(** * go-fun: the storage layer and the export pipeline

    A shallow embedding of [internal/task/task.go], of the two stores of
    [internal/storage] (the JSON file store and the in-memory store), of
    the write-coalescing wrapper [ConcurrentStorage] and of
    [ExportManager], then of the task manager of [internal/cli], of the
    due-date filter of [internal/filter] and of [normalizeTags] of
    [main.go], followed by the properties proved about them.

    Conventions of the embedding.
    - A [*task.Task] is modelled by the record value it points to at the
      time of the call; a slice of pointers is a [list Task].  What
      [Update] assigns to its argument shows in the record it stores; that
      a caller may keep a pointer into the in-memory store is not
      modelled.
    - A Go [error] is a value of the inductive type [error]; its text, as
      [fmt.Errorf] builds it, is given by [Error].  A function returning
      [(T, error)] returns a [result T]; a function returning only an
      [error] returns the new state and an [option error] ([None] is
      [nil]).
    - What comes from Go's libraries and runtime (encoding/json,
      strings.ToLower, time formatting, the iteration order of a map) is
      a field of the class [GoLib]; the operating system (files, failing
      system calls, the clock) is the record [os.World].
    - Mutexes are not modelled: every method body is one atomic step.
      The background worker of the wrapper is a step function of its own
      ([autoSaveWorker]), which may run between any two method calls, and
      the export goroutines run in an order given as an argument. *)

From Stdlib Require Import ZArith String Ascii List Lia.
From stdpp Require Import base gmap strings list pretty sorting.

Open Scope string_scope.

(** ** Errors *)

Inductive error : Type :=
  | ErrLib (msg : string)
      (* an error made by os or encoding/json, with its text *)
  | ErrTitleEmpty
  | ErrTitleTooLong
  | ErrDescriptionTooLong
  | ErrInvalidTask (cause : error)
  | ErrNotFound (id : string)
  | ErrAlreadyExists (id : string)
  | ErrLoadTasks (cause : error)
  | ErrReadFile (path : string) (cause : error)
  | ErrUnmarshal (cause : error)
  | ErrCreateDir (dir : string) (cause : error)
  | ErrMarshal (cause : error)
  | ErrWriteTemp (cause : error)
  | ErrRenameTemp (cause : error)
  | ErrNoFormats
  | ErrUnsupportedFormat (format : string)
  | ErrCreateCSV (cause : error)
  | ErrCreateMarkdown (cause : error)
  | ErrExport (errors : list string).

(** strings.Join *)
Fixpoint Join (elems : list string) (sep : string) : string :=
  match elems with
  | [] => ""
  | [e] => e
  | e :: rest => e +:+ sep +:+ Join rest sep
  end.

(** The text of an error: the format strings of the [fmt.Errorf] calls. *)
Fixpoint Error (e : error) : string :=
  match e with
  | ErrLib msg => msg
  | ErrTitleEmpty => "task title cannot be empty"
  | ErrTitleTooLong => "task title cannot exceed 100 characters"
  | ErrDescriptionTooLong => "task description cannot exceed 500 characters"
  | ErrInvalidTask c => "invalid task: " +:+ Error c
  | ErrNotFound id => "task with ID " +:+ id +:+ " not found"
  | ErrAlreadyExists id => "task with ID " +:+ id +:+ " already exists"
  | ErrLoadTasks c => "failed to load tasks: " +:+ Error c
  | ErrReadFile p c => "failed to read file " +:+ p +:+ ": " +:+ Error c
  | ErrUnmarshal c => "failed to unmarshal JSON: " +:+ Error c
  | ErrCreateDir d c => "failed to create directory " +:+ d +:+ ": " +:+ Error c
  | ErrMarshal c => "failed to marshal JSON: " +:+ Error c
  | ErrWriteTemp c => "failed to write temporary file: " +:+ Error c
  | ErrRenameTemp c => "failed to rename temporary file: " +:+ Error c
  | ErrNoFormats => "no formats specified"
  | ErrUnsupportedFormat f => "unsupported format: " +:+ f
  | ErrCreateCSV c => "failed to create CSV file: " +:+ Error c
  | ErrCreateMarkdown c => "failed to create Markdown file: " +:+ Error c
  | ErrExport errors => "export errors: " +:+ Join errors "; "
  end.

Inductive result (A : Type) : Type :=
  | Ok (a : A)
  | Err (e : error).
Arguments Ok {A} a.
Arguments Err {A} e.

(** ** internal/task *)

Module task.

(** [time.Time], as an instant counted from Go's zero time; [IsZero]
    holds of the zero value only. *)
Definition Time : Type := Z.
Definition IsZero (t : Time) : bool := (t =? 0)%Z.
Definition After (t u : Time) : bool := (u <? t)%Z.

(** [type Priority int] *)
Definition Priority : Type := Z.
Definition Low : Priority := 0%Z.
Definition Medium : Priority := 1%Z.
Definition High : Priority := 2%Z.

Definition Priority_String (p : Priority) : string :=
  if (p =? Low)%Z then "Low"
  else if (p =? Medium)%Z then "Medium"
  else if (p =? High)%Z then "High"
  else "Unknown".

Record Task : Type := mkTask {
  ID : string;
  Title : string;
  Description : string;
  priority : Priority;
  DueDate : Time;
  Completed : bool;
  CreatedAt : Time;
  UpdatedAt : Time;
  Tags : list string
}.

#[global] Instance Task_eq_dec : EqDecision Task.
Proof. solve_decision. Defined.

Definition set_ID (v : string) (t : Task) : Task :=
  mkTask v (Title t) (Description t) (priority t) (DueDate t)
         (Completed t) (CreatedAt t) (UpdatedAt t) (Tags t).
Definition set_CreatedAt (v : Time) (t : Task) : Task :=
  mkTask (ID t) (Title t) (Description t) (priority t) (DueDate t)
         (Completed t) v (UpdatedAt t) (Tags t).

(** [func (t *Task) Validate() error] *)
Definition Validate (t : Task) : option error :=
  if String.eqb (Title t) "" then Some ErrTitleEmpty
  else if (100 <? String.length (Title t))%nat then Some ErrTitleTooLong
  else if (500 <? String.length (Description t))%nat
       then Some ErrDescriptionTooLong
  else None.

(** [func (t *Task) Update(title, description, priority, dueDate) error];
    [now] is what [time.Now()] returns during the call.  The fields are
    assigned before the validation, so the record changes also when an
    error is returned. *)
Definition Update (now : Time) (t : Task) (title description : string)
    (p : Priority) (dueDate : Time) : Task * option error :=
  let t' := mkTask (ID t) title description p dueDate
                   (Completed t) (CreatedAt t) now (Tags t) in
  (t', Validate t').

(** More of [time]: instants are counted in nanoseconds. *)
Definition Before (t u : Time) : bool := (t <? u)%Z.
Definition Equal (t u : Time) : bool := (t =? u)%Z.
(** [t.Add(d)] *)
Definition Time_Add (t : Time) (d : Z) : Time := (t + d)%Z.
(** [t.Truncate(d)]: [t] rounded down to a multiple of [d] since the zero
    time; [t] itself when [d] is not positive. *)
Definition Truncate (t : Time) (d : Z) : Time :=
  if (d <=? 0)%Z then t else (t - t mod d)%Z.
(** [time.Hour] *)
Definition Hour : Z := 3600000000000%Z.

(** [int64(z)]: the wrap-around of 64-bit signed arithmetic. *)
Definition wrap64 (z : Z) : Z := ((z + 2 ^ 63) mod 2 ^ 64 - 2 ^ 63)%Z.

(** [t.UnixNano()]: the nanoseconds since January 1, 1970 UTC, which is
    62135596800 seconds after the zero time, as an [int64]. *)
Definition UnixNano (t : Time) : Z := wrap64 (t - 62135596800 * 1000000000)%Z.

(** The instants at which [UnixNano] does not wrap: those whose count of
    nanoseconds since 1970 fits 64 bits. *)
Definition unixRange (t : Time) : Prop :=
  (- 2 ^ 63 <= t - 62135596800 * 1000000000 < 2 ^ 63)%Z.

(** [generateID]; [now] is what its [time.Now()] returns. *)
Definition generateID (now : Time) : string := "task_" +:+ pretty (UnixNano now).

(** [NewTask]; [now] is the reading of [now := time.Now()] and [idNow]
    the later reading made by [generateID]. *)
Definition NewTask (now idNow : Time) (title description : string)
    (p : Priority) (dueDate : Time) (tags : list string) : Task :=
  mkTask (generateID idNow) title description p dueDate false now now tags.

(** [func (t *Task) Complete()] and [Uncomplete()] *)
Definition Complete (now : Time) (t : Task) : Task :=
  mkTask (ID t) (Title t) (Description t) (priority t) (DueDate t)
         true (CreatedAt t) now (Tags t).
Definition Uncomplete (now : Time) (t : Task) : Task :=
  mkTask (ID t) (Title t) (Description t) (priority t) (DueDate t)
         false (CreatedAt t) now (Tags t).

(** [IsOverdue], [IsDueToday], [IsDueSoon]; [now] is what [time.Now()]
    returns, and [IsDueSoon] reads the clock twice. *)
Definition IsOverdue (now : Time) (t : Task) : bool :=
  negb (Completed t) && negb (IsZero (DueDate t)) && Before (DueDate t) now.

Definition IsDueToday (now : Time) (t : Task) : bool :=
  if IsZero (DueDate t) then false
  else Equal (Truncate now (24 * Hour)) (Truncate (DueDate t) (24 * Hour)).

Definition IsDueSoon (now1 now2 : Time) (t : Task) : bool :=
  if IsZero (DueDate t) || Completed t then false
  else
    let sevenDaysFromNow := Time_Add now1 (7 * 24 * Hour) in
    Before (DueDate t) sevenDaysFromNow && After (DueDate t) now2.

End task.
Import task.

(** ** The Go libraries the code calls *)

Definition asciiLower (c : ascii) : ascii :=
  let n := nat_of_ascii c in
  if ((65 <=? n) && (n <=? 90))%nat then ascii_of_nat (n + 32) else c.

Fixpoint mapBytes (f : ascii → ascii) (s : string) : string :=
  match s with
  | EmptyString => EmptyString
  | String c r => String (f c) (mapBytes f r)
  end.

Fixpoint allBytes (p : ascii → bool) (s : string) : bool :=
  match s with
  | EmptyString => true
  | String c r => p c && allBytes p r
  end.

Definition isASCII (c : ascii) : bool := (nat_of_ascii c <? 128)%nat.

Class GoLib : Type := {
  (** [json.MarshalIndent(tasks, "", "  ")] *)
  json_MarshalIndent : list Task → result string;
  (** [json.Unmarshal(data, &tasks)]; a document with [null] among the
      elements of its array is not modelled *)
  json_Unmarshal : string → result (list Task);
  (** [strings.ToLower]; on a string of ASCII bytes it lowers A-Z *)
  strings_ToLower : string → string;
  strings_ToLower_ascii :
    ∀ s, allBytes isASCII s = true → strings_ToLower s = mapBytes asciiLower s;
  (** [t.Format(layout)] *)
  time_Format : Time → string → string;
  (** [filepath.Dir] *)
  filepath_Dir : string → string;
  (** the order in which [for _, t := range m] visits a map: any order *)
  map_range : gmap string Task → list Task;
  map_range_perm : ∀ m, map_range m ≡ₚ (map_to_list m).*2
}.

(** ** The operating system *)

Module os.

(** The files by path, the system calls that fail (by path, with the text
    of the error the call returns) and the clock [time.Now()] reads.
    Directories are not modelled: [MkdirAll] succeeds or fails only. *)
Record World : Type := mkWorld {
  files : gmap string string;
  readFault : gmap string string;
  writeFault : gmap string string;
  renameFault : gmap string string;
  mkdirFault : gmap string string;
  clock : Time
}.

Definition set_files (f : gmap string string) (w : World) : World :=
  mkWorld f (readFault w) (writeFault w) (renameFault w) (mkdirFault w)
          (clock w).

(** [_, err := os.Stat(name); os.IsNotExist(err)] *)
Definition Stat_IsNotExist (w : World) (name : string) : bool :=
  match files w !! name with
  | None => true
  | Some _ => false
  end.

Definition ReadFile (w : World) (name : string) : result string :=
  match readFault w !! name with
  | Some msg => Err (ErrLib msg)
  | None =>
      match files w !! name with
      | Some data => Ok data
      | None => Err (ErrLib ("open " +:+ name +:+ ": no such file or directory"))
      end
  end.

Definition MkdirAll (w : World) (path : string) : option error :=
  ErrLib <$> mkdirFault w !! path.

(** [os.WriteFile], and [os.Create] followed by the writes to the file:
    the file gets its whole content, or the call fails and nothing changes. *)
Definition WriteFile (w : World) (name data : string) : World * option error :=
  match writeFault w !! name with
  | Some msg => (w, Some (ErrLib msg))
  | None => (set_files (<[name := data]> (files w)) w, None)
  end.

Definition Rename (w : World) (oldpath newpath : string) : World * option error :=
  match renameFault w !! newpath with
  | Some msg => (w, Some (ErrLib msg))
  | None =>
      match files w !! oldpath with
      | Some data =>
          (set_files (<[newpath := data]> (delete oldpath (files w))) w, None)
      | None =>
          (w, Some (ErrLib ("rename " +:+ oldpath +:+ " " +:+ newpath
                            +:+ ": no such file or directory")))
      end
  end.

Definition Remove (w : World) (name : string) : World :=
  set_files (delete name (files w)) w.

Definition Now (w : World) : Time := clock w.

End os.

(** ** internal/storage: the [Storage] interface *)

Module Storage.

Class t (St : Type) : Type := {
  Load : St → result (list Task);
  Save : St → list Task → St * option error;
  Add : St → Task → St * option error;
  Update : St → string → Task → St * option error;
  Delete : St → string → St * option error;
  GetByID : St → string → result Task
}.

End Storage.

(** The loops over a task slice that the methods of both stores contain. *)

(** [for _, existing := range tasks { if existing.ID == id { ... } }]:
    the first record whose ID is [id]. *)
Fixpoint findByID (id : string) (tasks : list Task) : option Task :=
  match tasks with
  | [] => None
  | existing :: rest =>
      if String.eqb (ID existing) id then Some existing else findByID id rest
  end.

(** The loop of [Update]: at the first record whose ID is [id],
    [t.CreatedAt = existing.CreatedAt; t.ID = id; tasks[i] = t; break].
    [None] when the loop ends with [found] false. *)
Fixpoint updateLoop (id : string) (t : Task) (tasks : list Task)
    : option (list Task) :=
  match tasks with
  | [] => None
  | existing :: rest =>
      if String.eqb (ID existing) id
      then Some (set_ID id (set_CreatedAt (CreatedAt existing) t) :: rest)
      else cons existing <$> updateLoop id t rest
  end.

(** The loop of [Delete]: [tasks = append(tasks[:i], tasks[i+1:]...)] at
    the first record whose ID is [id]; [None] when none is found. *)
Fixpoint deleteLoop (id : string) (tasks : list Task) : option (list Task) :=
  match tasks with
  | [] => None
  | existing :: rest =>
      if String.eqb (ID existing) id then Some rest
      else cons existing <$> deleteLoop id rest
  end.

(** *** The JSON file store *)

Module JSONFileStorage.

(** The store and the world its file lives in. *)
Record t : Type := mk {
  filePath : string;
  world : os.World
}.

Definition set_world (w : os.World) (s : t) : t := mk (filePath s) w.

Section Methods.
Context {lib : GoLib}.

Definition Load (s : t) : result (list Task) :=
  if os.Stat_IsNotExist (world s) (filePath s) then Ok []
  else
    match os.ReadFile (world s) (filePath s) with
    | Err e => Err (ErrReadFile (filePath s) e)
    | Ok data =>
        if (String.length data =? 0)%nat then Ok []
        else
          match json_Unmarshal data with
          | Err e => Err (ErrUnmarshal e)
          | Ok tasks => Ok tasks
          end
    end.

Definition Save (s : t) (tasks : list Task) : t * option error :=
  let dir := filepath_Dir (filePath s) in
  match os.MkdirAll (world s) dir with
  | Some e => (s, Some (ErrCreateDir dir e))
  | None =>
      match json_MarshalIndent tasks with
      | Err e => (s, Some (ErrMarshal e))
      | Ok data =>
          let tempFile := filePath s +:+ ".tmp" in
          match os.WriteFile (world s) tempFile data with
          | (w1, Some e) => (set_world w1 s, Some (ErrWriteTemp e))
          | (w1, None) =>
              match os.Rename w1 tempFile (filePath s) with
              | (w2, Some e) =>
                  (set_world (os.Remove w2 tempFile) s, Some (ErrRenameTemp e))
              | (w2, None) => (set_world w2 s, None)
              end
          end
      end
  end.

Definition Add (s : t) (tk : Task) : t * option error :=
  match Load s with
  | Err e => (s, Some (ErrLoadTasks e))
  | Ok tasks =>
      match task.Validate tk with
      | Some e => (s, Some (ErrInvalidTask e))
      | None =>
          match findByID (ID tk) tasks with
          | Some _ => (s, Some (ErrAlreadyExists (ID tk)))
          | None => Save s (tasks ++ [tk])%list
          end
      end
  end.

Definition Update (s : t) (id : string) (tk : Task) : t * option error :=
  match Load s with
  | Err e => (s, Some (ErrLoadTasks e))
  | Ok tasks =>
      match task.Validate tk with
      | Some e => (s, Some (ErrInvalidTask e))
      | None =>
          match updateLoop id tk tasks with
          | None => (s, Some (ErrNotFound id))
          | Some tasks' => Save s tasks'
          end
      end
  end.

Definition Delete (s : t) (id : string) : t * option error :=
  match Load s with
  | Err e => (s, Some (ErrLoadTasks e))
  | Ok tasks =>
      match deleteLoop id tasks with
      | None => (s, Some (ErrNotFound id))
      | Some tasks' => Save s tasks'
      end
  end.

Definition GetByID (s : t) (id : string) : result Task :=
  match Load s with
  | Err e => Err (ErrLoadTasks e)
  | Ok tasks =>
      match findByID id tasks with
      | Some tk => Ok tk
      | None => Err (ErrNotFound id)
      end
  end.

#[global] Instance storage : Storage.t t :=
  {| Storage.Load := Load; Storage.Save := Save; Storage.Add := Add;
     Storage.Update := Update; Storage.Delete := Delete;
     Storage.GetByID := GetByID |}.

End Methods.
End JSONFileStorage.

(** *** The in-memory store *)

Module InMemoryStorage.

Record t : Type := mk { tasks : list Task }.

Definition NewInMemoryStorage : t := mk [].

Definition Load (s : t) : result (list Task) := Ok (tasks s).

Definition Save (s : t) (ts : list Task) : t * option error := (mk ts, None).

Definition Add (s : t) (tk : Task) : t * option error :=
  match task.Validate tk with
  | Some e => (s, Some (ErrInvalidTask e))
  | None =>
      match findByID (ID tk) (tasks s) with
      | Some _ => (s, Some (ErrAlreadyExists (ID tk)))
      | None => (mk (tasks s ++ [tk])%list, None)
      end
  end.

Definition Update (s : t) (id : string) (tk : Task) : t * option error :=
  match task.Validate tk with
  | Some e => (s, Some (ErrInvalidTask e))
  | None =>
      match updateLoop id tk (tasks s) with
      | None => (s, Some (ErrNotFound id))
      | Some tasks' => (mk tasks', None)
      end
  end.

Definition Delete (s : t) (id : string) : t * option error :=
  match deleteLoop id (tasks s) with
  | None => (s, Some (ErrNotFound id))
  | Some tasks' => (mk tasks', None)
  end.

Definition GetByID (s : t) (id : string) : result Task :=
  match findByID id (tasks s) with
  | Some tk => Ok tk
  | None => Err (ErrNotFound id)
  end.

#[global] Instance storage : Storage.t t :=
  {| Storage.Load := Load; Storage.Save := Save; Storage.Add := Add;
     Storage.Update := Update; Storage.Delete := Delete;
     Storage.GetByID := GetByID |}.

End InMemoryStorage.

(** *** The write-coalescing wrapper *)

Module ConcurrentStorage.

(** [autoSaveTicker] is whether a ticker is running, [autoSaveStop]
    whether the stop channel has been closed, and [workers] the number of
    [autoSaveWorker] goroutines that have not returned. *)
Record t (St : Type) : Type := mk {
  storage : St;
  autoSaveEnabled : bool;
  autoSaveTicker : bool;
  autoSaveStop : bool;
  unsavedTasks : list Task;
  workers : nat
}.
Arguments mk {St}.
Arguments storage {St}.
Arguments autoSaveEnabled {St}.
Arguments autoSaveTicker {St}.
Arguments autoSaveStop {St}.
Arguments unsavedTasks {St}.
Arguments workers {St}.

Section Methods.
Context {St : Type} {store : Storage.t St} {lib : GoLib}.

Definition set_storage (s : St) (cs : t St) : t St :=
  mk s (autoSaveEnabled cs) (autoSaveTicker cs) (autoSaveStop cs)
     (unsavedTasks cs) (workers cs).
Definition set_unsavedTasks (u : list Task) (cs : t St) : t St :=
  mk (storage cs) (autoSaveEnabled cs) (autoSaveTicker cs) (autoSaveStop cs)
     u (workers cs).

Definition NewConcurrentStorage (s : St) : t St := mk s false false false [] 0.

Definition EnableAutoSave (cs : t St) : t St :=
  if autoSaveEnabled cs then cs
  else mk (storage cs) true true (autoSaveStop cs) (unsavedTasks cs)
          (S (workers cs)).

(** [None] is the panic of [close] on a channel that is closed already. *)
Definition DisableAutoSave (cs : t St) : option (t St) :=
  if negb (autoSaveEnabled cs) then Some cs
  else if autoSaveStop cs then None
  else Some (mk (storage cs) false false true (unsavedTasks cs) (workers cs)).

(** The map [currentMap] after the two loops of [mergeTasks]. *)
Definition mergeMap (current unsaved : list Task) : gmap string Task :=
  let currentMap :=
    foldl (λ m tk, <[ID tk := tk]> m) (∅ : gmap string Task) current in
  foldl (λ m tk, <[ID tk := tk]> m) currentMap unsaved.

Definition mergeTasks (current unsaved : list Task) : list Task :=
  map_range (mergeMap current unsaved).

Definition saveUnsavedTasks (cs : t St) : t St :=
  if (length (unsavedTasks cs) =? 0)%nat then cs
  else
    match Storage.Load (storage cs) with
    | Err _ =>
        let '(s', _) := Storage.Save (storage cs) (unsavedTasks cs) in
        set_unsavedTasks [] (set_storage s' cs)
    | Ok currentTasks =>
        let mergedTasks := mergeTasks currentTasks (unsavedTasks cs) in
        match Storage.Save (storage cs) mergedTasks with
        | (s', None) => set_unsavedTasks [] (set_storage s' cs)
        | (s', Some _) => set_storage s' cs
        end
    end.

(** What a worker can receive in its [select]. *)
Inductive signal : Type := tick | stop.

(** One iteration of the loop of [autoSaveWorker] that receives [sig];
    [None] when no worker can receive it. After [stop] the worker has
    returned. *)
Definition autoSaveWorker (sig : signal) (cs : t St) : option (t St) :=
  match workers cs with
  | O => None
  | S n =>
      match sig with
      | tick =>
          if autoSaveTicker cs then Some (saveUnsavedTasks cs) else None
      | stop =>
          if autoSaveStop cs then
            let cs' := saveUnsavedTasks cs in
            Some (mk (storage cs') (autoSaveEnabled cs') (autoSaveTicker cs')
                     (autoSaveStop cs') (unsavedTasks cs') n)
          else None
      end
  end.

(** The loop of [QueueTaskForSave]: replace the first pending record with
    the ID of [tk], or append [tk] when there is none. *)
Fixpoint queueLoop (tk : Task) (unsaved : list Task) : list Task :=
  match unsaved with
  | [] => [tk]
  | existing :: rest =>
      if String.eqb (ID existing) (ID tk) then tk :: rest
      else existing :: queueLoop tk rest
  end.

Definition QueueTaskForSave (cs : t St) (tk : Task) : t St :=
  if negb (autoSaveEnabled cs) then cs
  else set_unsavedTasks (queueLoop tk (unsavedTasks cs)) cs.

Definition Load (cs : t St) : result (list Task) :=
  match Storage.Load (storage cs) with
  | Err e => Err e
  | Ok tasks =>
      if (0 <? length (unsavedTasks cs))%nat
      then Ok (mergeTasks tasks (unsavedTasks cs))
      else Ok tasks
  end.

Definition Save (cs : t St) (tasks : list Task) : t St * option error :=
  let cs1 := set_unsavedTasks [] cs in
  let '(s', e) := Storage.Save (storage cs1) tasks in
  (set_storage s' cs1, e).

Definition Add (cs : t St) (tk : Task) : t St * option error :=
  if autoSaveEnabled cs then (QueueTaskForSave cs tk, None)
  else
    let '(s', e) := Storage.Add (storage cs) tk in
    (set_storage s' cs, e).

Definition Update (cs : t St) (id : string) (tk : Task)
    : t St * option error :=
  if autoSaveEnabled cs then (QueueTaskForSave cs tk, None)
  else
    let '(s', e) := Storage.Update (storage cs) id tk in
    (set_storage s' cs, e).

Definition Delete (cs : t St) (id : string) : t St * option error :=
  if autoSaveEnabled cs then
    let cs1 :=
      match deleteLoop id (unsavedTasks cs) with
      | Some u => set_unsavedTasks u cs
      | None => cs
      end in
    let '(s', e) := Storage.Delete (storage cs1) id in
    (set_storage s' cs1, e)
  else
    let '(s', e) := Storage.Delete (storage cs) id in
    (set_storage s' cs, e).

Definition GetByID (cs : t St) (id : string) : result Task :=
  match findByID id (unsavedTasks cs) with
  | Some tk => Ok tk
  | None => Storage.GetByID (storage cs) id
  end.

#[global] Instance wrapper : Storage.t (t St) :=
  {| Storage.Load := Load; Storage.Save := Save; Storage.Add := Add;
     Storage.Update := Update; Storage.Delete := Delete;
     Storage.GetByID := GetByID |}.

End Methods.
End ConcurrentStorage.

(** *** The export pipeline *)

Module ExportManager.

Definition nl : string := String (ascii_of_nat 10) EmptyString.

(** [strings.ReplaceAll(s, ",", ";")] *)
Definition ReplaceAll_comma (s : string) : string :=
  mapBytes (λ c, if Ascii.eqb c ","%char then ";"%char else c) s.

(** [%t] *)
Definition fmt_bool (b : bool) : string := if b then "true" else "false".

Fixpoint concat_strings (l : list string) : string :=
  match l with
  | [] => ""
  | s :: r => s +:+ concat_strings r
  end.

Section Methods.
Context {St : Type} {store : Storage.t St} {lib : GoLib}.

Definition exportJSON (w : os.World) (tasks : list Task) (filename : string)
    : os.World * option error :=
  match json_MarshalIndent tasks with
  | Err e => (w, Some (ErrMarshal e))
  | Ok data => os.WriteFile w filename data
  end.

Definition csvRow (tk : Task) : string :=
  let dueDate :=
    if negb (IsZero (DueDate tk)) then time_Format (DueDate tk) "2006-01-02 15:04"
    else "" in
  ID tk +:+ "," +:+ ReplaceAll_comma (Title tk) +:+ ","
  +:+ ReplaceAll_comma (Description tk) +:+ ","
  +:+ Priority_String (priority tk) +:+ "," +:+ fmt_bool (Completed tk) +:+ ","
  +:+ dueDate +:+ "," +:+ time_Format (CreatedAt tk) "2006-01-02 15:04" +:+ ","
  +:+ time_Format (UpdatedAt tk) "2006-01-02 15:04" +:+ nl.

(** What [exportCSV] writes to the file it has created. *)
Definition csvDocument (tasks : list Task) : string :=
  "ID,Title,Description,Priority,Completed,Due Date,Created,Updated" +:+ nl
  +:+ concat_strings (csvRow <$> tasks).

Definition exportCSV (w : os.World) (tasks : list Task) (filename : string)
    : os.World * option error :=
  match os.WriteFile w filename (csvDocument tasks) with
  | (w', Some e) => (w', Some (ErrCreateCSV e))
  | (w', None) => (w', None)
  end.

Definition writeMarkdownTask (tk : Task) : string :=
  let status := if Completed tk then "✅" else "❌" in
  let priorityEmoji :=
    if (priority tk =? High)%Z then "🔴"
    else if (priority tk =? Medium)%Z then "🟡"
    else if (priority tk =? Low)%Z then "🟢"
    else "" in
  "### " +:+ status +:+ " " +:+ priorityEmoji +:+ " " +:+ Title tk +:+ nl +:+ nl
  +:+ (if negb (String.eqb (Description tk) "")
       then "**Description:** " +:+ Description tk +:+ nl +:+ nl else "")
  +:+ (if negb (IsZero (DueDate tk))
       then "**Due:** " +:+ time_Format (DueDate tk) "2006-01-02 15:04"
            +:+ nl +:+ nl
       else "")
  +:+ "**ID:** `" +:+ ID tk +:+ "`  " +:+ nl
  +:+ "**Created:** " +:+ time_Format (CreatedAt tk) "2006-01-02 15:04"
  +:+ "  " +:+ nl
  +:+ (if After (UpdatedAt tk) (CreatedAt tk)
       then "**Updated:** " +:+ time_Format (UpdatedAt tk) "2006-01-02 15:04"
            +:+ "  " +:+ nl
       else "")
  +:+ nl.

(** What [exportMarkdown] writes to the file it has created; [now] is
    [time.Now()]. *)
Definition markdownDocument (now : Time) (tasks : list Task) : string :=
  let completed := filter (λ tk, Completed tk = true) tasks in
  let pending := filter (λ tk, Completed tk = false) tasks in
  "# Task Export" +:+ nl +:+ nl
  +:+ "Generated on: " +:+ time_Format now "2006-01-02 15:04:05" +:+ nl +:+ nl
  +:+ (if (0 <? length pending)%nat
       then "## Pending Tasks (" +:+ pretty (length pending) +:+ ")" +:+ nl +:+ nl
            +:+ concat_strings (writeMarkdownTask <$> pending) +:+ nl
       else "")
  +:+ (if (0 <? length completed)%nat
       then "## Completed Tasks (" +:+ pretty (length completed) +:+ ")"
            +:+ nl +:+ nl
            +:+ concat_strings (writeMarkdownTask <$> completed)
       else "").

Definition exportMarkdown (w : os.World) (tasks : list Task) (filename : string)
    : os.World * option error :=
  match os.WriteFile w filename (markdownDocument (os.Now w) tasks) with
  | (w', Some e) => (w', Some (ErrCreateMarkdown e))
  | (w', None) => (w', None)
  end.

Definition exportFormat (w : os.World) (tasks : list Task)
    (format filename : string) : os.World * option error :=
  let f := strings_ToLower format in
  if String.eqb f "json" then exportJSON w tasks filename
  else if String.eqb f "csv" then exportCSV w tasks filename
  else if String.eqb f "markdown" || String.eqb f "md"
       then exportMarkdown w tasks filename
  else (w, Some (ErrUnsupportedFormat format)).

(** One export goroutine runs and its result is received: the file is
    written and, on an error, [format: err] is appended to [errors]. *)
Definition exportOne (tasks : list Task) (baseFilename : string)
    (acc : os.World * list string) (format : string)
    : os.World * list string :=
  let filename := baseFilename +:+ "." +:+ format in
  let '(w', err) := exportFormat (fst acc) tasks format filename in
  match err with
  | Some e => (w', (snd acc ++ [format +:+ ": " +:+ Error e])%list)
  | None => (w', snd acc)
  end.

(** [em] is the store of the manager and [w] the world the files are
    written in.  [order] is the order in which the goroutines, one per
    element of [formats], deliver their results: a permutation of
    [formats], chosen by the scheduler.  Each goroutine is one step, taken
    in that order: a goroutine writes the file of its own format only, and
    what it writes and reports does not depend on the files the others
    have written, so the order of the writes is of no consequence. *)
Definition ConcurrentExport (em : St) (w : os.World) (order : list string)
    (formats : list string) (baseFilename : string)
    : os.World * option error :=
  if (length formats =? 0)%nat then (w, Some ErrNoFormats)
  else
    match Storage.Load em with
    | Err e => (w, Some (ErrLoadTasks e))
    | Ok tasks =>
        let '(w', errors) := foldl (exportOne tasks baseFilename) (w, []) order in
        if (0 <? length errors)%nat then (w', Some (ErrExport errors))
        else (w', None)
    end.

End Methods.
End ExportManager.

(** ** internal/cli: the task manager *)

Module TaskManager.

(** The errors the methods of [TaskManager] return: an error of the
    storage layer or of a renderer returned as it is, or one of the
    errors the methods build themselves. *)
Inductive cliError : Type :=
  | ErrInner (e : error)
  | ErrGetTask (cause : error)
  | ErrUpdateTask (cause : error)
  | ErrUnsupportedExportFormat (format : string).

Definition cliErrorText (e : cliError) : string :=
  match e with
  | ErrInner e => Error e
  | ErrGetTask c => "failed to get task: " +:+ Error c
  | ErrUpdateTask c => "failed to update task: " +:+ Error c
  | ErrUnsupportedExportFormat f => "unsupported export format: " +:+ f
  end.

Definition inner (r : os.World * option error) : os.World * option cliError :=
  (fst r, ErrInner <$> snd r).

Section ExportMethods.
Context {St : Type} {store : Storage.t St} {lib : GoLib}.

(** The [switch] of [ExportTasks] and of the goroutines of
    [ConcurrentExport].  The renderers [exportJSON], [exportCSV],
    [exportMarkdown] and [writeMarkdownTask] of [TaskManager] have the
    bodies of those of [ExportManager], which stand for them here. *)
Definition exportSwitch (w : os.World) (tasks : list Task)
    (format filename : string) : os.World * option cliError :=
  let f := strings_ToLower format in
  if String.eqb f "json" then inner (ExportManager.exportJSON w tasks filename)
  else if String.eqb f "csv" then inner (ExportManager.exportCSV w tasks filename)
  else if String.eqb f "markdown" || String.eqb f "md"
       then inner (ExportManager.exportMarkdown w tasks filename)
  else (w, Some (ErrUnsupportedExportFormat format)).

Definition ExportTasks (tm : St) (w : os.World) (format filename : string)
    : os.World * option cliError :=
  match Storage.Load tm with
  | Err e => (w, Some (ErrInner (ErrLoadTasks e)))
  | Ok tasks => exportSwitch w tasks format filename
  end.

(** The state of the collecting loop: the world, the error texts
    collected and the lines printed on the standard output. *)
Record collected : Type := mkCollected {
  cworld : os.World;
  cerrors : list string;
  cstdout : list string
}.

(** One export goroutine runs and its result is received. *)
Definition exportOne (tasks : list Task) (baseFilename : string)
    (acc : collected) (formatName : string) : collected :=
  let filename := baseFilename +:+ "." +:+ formatName in
  let '(w', err) := exportSwitch (cworld acc) tasks formatName filename in
  match err with
  | Some e =>
      mkCollected w' (cerrors acc ++ [formatName +:+ ": " +:+ cliErrorText e])%list
                  (cstdout acc)
  | None =>
      mkCollected w' (cerrors acc)
                  (cstdout acc
                   ++ ["✅ Exported to " +:+ baseFilename +:+ "." +:+ formatName
                       +:+ ExportManager.nl])%list
  end.

(** As for [ExportManager.ConcurrentExport], [order] is the order in
    which the goroutines deliver their results; the second component is
    what is printed. *)
Definition ConcurrentExport (tm : St) (w : os.World) (order : list string)
    (formats : list string) (baseFilename : string)
    : os.World * list string * option cliError :=
  if (length formats =? 0)%nat then (w, [], Some (ErrInner ErrNoFormats))
  else
    match Storage.Load tm with
    | Err e => (w, [], Some (ErrInner (ErrLoadTasks e)))
    | Ok tasks =>
        let acc := foldl (exportOne tasks baseFilename) (mkCollected w [] []) order in
        if (0 <? length (cerrors acc))%nat
        then (cworld acc, cstdout acc, Some (ErrInner (ErrExport (cerrors acc))))
        else (cworld acc, cstdout acc, None)
    end.

End ExportMethods.

(** The methods of [TaskManager] that change a record, over the JSON file
    store, which is the store [main] gives the manager: every [GetByID]
    decodes the file anew, so the record a method changes is its own
    copy. *)
Section Records.
Context {lib : GoLib}.

Definition innerS (r : JSONFileStorage.t * option error)
    : JSONFileStorage.t * option cliError :=
  (fst r, ErrInner <$> snd r).

Definition Complete (tm : JSONFileStorage.t) (id : string)
    : JSONFileStorage.t * option cliError :=
  match JSONFileStorage.GetByID tm id with
  | Err e => (tm, Some (ErrGetTask e))
  | Ok t =>
      let t' := task.Complete (os.Now (JSONFileStorage.world tm)) t in
      innerS (JSONFileStorage.Update tm id t')
  end.

Definition Uncomplete (tm : JSONFileStorage.t) (id : string)
    : JSONFileStorage.t * option cliError :=
  match JSONFileStorage.GetByID tm id with
  | Err e => (tm, Some (ErrGetTask e))
  | Ok t =>
      let t' := task.Uncomplete (os.Now (JSONFileStorage.world tm)) t in
      innerS (JSONFileStorage.Update tm id t')
  end.

Definition Delete (tm : JSONFileStorage.t) (id : string)
    : JSONFileStorage.t * option cliError :=
  match JSONFileStorage.GetByID tm id with
  | Err e => (tm, Some (ErrGetTask e))
  | Ok _ => innerS (JSONFileStorage.Delete tm id)
  end.

Definition Update (tm : JSONFileStorage.t) (id title description : string)
    (p : Priority) (dueDate : Time) : JSONFileStorage.t * option cliError :=
  match JSONFileStorage.GetByID tm id with
  | Err e => (tm, Some (ErrGetTask e))
  | Ok t =>
      match task.Update (os.Now (JSONFileStorage.world tm)) t title description
                        p dueDate with
      | (_, Some e) => (tm, Some (ErrUpdateTask e))
      | (t', None) => innerS (JSONFileStorage.Update tm id t')
      end
  end.

End Records.

End TaskManager.

(** ** internal/filter *)

Module filter.

Inductive FilterMode : Type :=
| ModeInvalid
| ModeToday
| ModeOverdue
| ModeNextNDays.

Record TaskDueFilter : Type := mkTaskDueFilter {
  Mode : FilterMode;
  Days : Z
}.

(** The two errors of [NewTaskDueFilter]: ["invalid filter flag: %q"] of
    the input and ["days cannot be negative: %d"] of the number. *)
Inductive filterError : Type :=
| ErrInvalidFlag (input : string)
| ErrNegativeDays (days : Z).

Section Filter.
(** [strconv.Atoi]; [None] is its error. *)
Variable Atoi : string → option Z.
(** [t.AddDate(years, months, days)] *)
Variable AddDate : Time → Z → Z → Z → Time.
Context {lib : GoLib}.

Definition NewTaskDueFilter (input : string)
    : TaskDueFilter * option filterError :=
  if String.eqb input "today" then (mkTaskDueFilter ModeToday 0, None)
  else if String.eqb input "overdue" then (mkTaskDueFilter ModeOverdue 0, None)
  else if String.eqb input "week" then (mkTaskDueFilter ModeNextNDays 7, None)
  else
    match Atoi input with
    | None => (mkTaskDueFilter ModeInvalid 0, Some (ErrInvalidFlag input))
    | Some days =>
        if (days <? 0)%Z
        then (mkTaskDueFilter ModeInvalid 0, Some (ErrNegativeDays days))
        else (mkTaskDueFilter ModeNextNDays days, None)
    end.

(** [Matches]; [now1] and [now2] are the readings of [time.Now()], the
    second one made in the last case only. *)
Definition Matches (now1 now2 : Time) (f : TaskDueFilter) (date : Time) : bool :=
  match Mode f with
  | ModeToday =>
      String.eqb (time_Format date "2006-01-02") (time_Format now1 "2006-01-02")
  | ModeOverdue => task.Before date now1
  | ModeNextNDays =>
      After date now1 && task.Before date (AddDate now2 0 0 (Days f))
  | ModeInvalid => false
  end.

End Filter.
End filter.

(** ** main *)

(** [sort.Strings]: the strings in increasing order, compared byte by
    byte. *)
Definition string_le (a b : string) : Prop := String.leb a b = true.
#[global] Instance string_le_dec : RelDecision string_le.
Proof. intros a b. unfold string_le. solve_decision. Defined.

Definition sort_Strings (l : list string) : list string :=
  merge_sort string_le l.

(** [normalizeTags]; the set is the map from strings to the empty
    struct, and [range] is the order in which the loop over the map visits
    its keys. *)
Definition normalizeTags (range : gset string → list string)
    (in_ : list string) : list string :=
  let set := foldl (λ (set : gset string) v, {[ v ]} ∪ set) ∅ in_ in
  let out := range set in
  sort_Strings out.

(** ** Notions used to state the properties *)

(** The record [Update] stores: the input with the ID forced to [id] and
    the creation time of the record it replaces. *)
Definition storedBy (id : string) (old tk : Task) : Task :=
  set_ID id (set_CreatedAt (CreatedAt old) tk).

(** The codec returns the records it was given: what [Save] writes for
    [ts] is not empty and decodes to [ts]. *)
Definition RoundTrips {lib : GoLib} (ts : list Task) : Prop :=
  ∀ data, json_MarshalIndent ts = Ok data →
          data ≠ "" ∧ json_Unmarshal data = Ok ts.

(** The last record of [l] whose ID is [id]. *)
Fixpoint lastByID (id : string) (l : list Task) : option Task :=
  match l with
  | [] => None
  | x :: rest =>
      match lastByID id rest with
      | Some y => Some y
      | None => if String.eqb (ID x) id then Some x else None
      end
  end.

(** The record under [id] when the pending records are laid over the
    loaded ones: the pending record when there is one, whole. *)
Definition overlay (current pending : list Task) (id : string) : option Task :=
  match lastByID id pending with
  | Some p => Some p
  | None => lastByID id current
  end.

(** [merged] holds one record per ID, the one [overlay] gives. *)
Definition MergedByID (current pending merged : list Task) : Prop :=
  NoDup (ID <$> merged)
  ∧ ∀ x, x ∈ merged ↔ overlay current pending (ID x) = Some x.

(** The write calls of the wrapper. *)
Inductive write : Type :=
  | WAdd (tk : Task)
  | WUpdate (id : string) (tk : Task).

Definition written (op : write) : Task :=
  match op with WAdd tk => tk | WUpdate _ tk => tk end.

Definition call {St : Type} {store : Storage.t St} {lib : GoLib}
    (cs : ConcurrentStorage.t St) (op : write) : ConcurrentStorage.t St :=
  match op with
  | WAdd tk => fst (ConcurrentStorage.Add cs tk)
  | WUpdate id tk => fst (ConcurrentStorage.Update cs id tk)
  end.

(** A format name, lowered, that [exportFormat] has a renderer for. *)
Definition supported (f : string) : bool :=
  String.eqb f "json" || String.eqb f "csv"
  || String.eqb f "markdown" || String.eqb f "md".

(** What the renderer of the lowered format name [f] writes. *)
Definition rendering {lib : GoLib} (now : Time) (tasks : list Task)
    (f : string) : result string :=
  if String.eqb f "json" then
    match json_MarshalIndent tasks with
    | Ok data => Ok data
    | Err e => Err (ErrMarshal e)
    end
  else if String.eqb f "csv" then Ok (ExportManager.csvDocument tasks)
  else Ok (ExportManager.markdownDocument now tasks).

(** [s] contains [sub]. *)
Definition Mentions (sub s : string) : Prop :=
  ∃ pre post, s = pre +:+ sub +:+ post.

Section ExportNotions.
Context {lib : GoLib}.

(** What one export goroutine does, without the world it returns: the
    content it writes, or the error it reports. *)
Definition attempt (w : os.World) (tasks : list Task) (baseFilename : string)
    (format : string) : string + error :=
  let f := strings_ToLower format in
  if supported f then
    match rendering (os.Now w) tasks f with
    | Err e => inr e
    | Ok data =>
        match os.writeFault w !! (baseFilename +:+ "." +:+ format) with
        | None => inl data
        | Some msg =>
            inr (if String.eqb f "json" then ErrLib msg
                 else if String.eqb f "csv" then ErrCreateCSV (ErrLib msg)
                 else ErrCreateMarkdown (ErrLib msg))
        end
    end
  else inr (ErrUnsupportedFormat format).

(** The error texts the results leave, in the order of arrival. *)
Definition reports (w : os.World) (tasks : list Task) (base : string)
    (order : list string) : list string :=
  omap (λ format, match attempt w tasks base format with
                  | inl _ => None
                  | inr e => Some (format +:+ ": " +:+ Error e)
                  end) order.

End ExportNotions.

(** The calls of the [Storage] interface, and what each returns. *)
Inductive request : Type :=
  | RLoad
  | RSave (tasks : list Task)
  | RAdd (tk : Task)
  | RUpdate (id : string) (tk : Task)
  | RDelete (id : string)
  | RGetByID (id : string).

Inductive reply : Type :=
  | PTasks (r : result (list Task))
  | PError (e : option error)
  | PTask (r : result Task).

(** One call on a store, and a sequence of calls with their replies. *)
Definition serve {St : Type} {store : Storage.t St} (s : St) (r : request)
    : St * reply :=
  match r with
  | RLoad => (s, PTasks (Storage.Load s))
  | RSave tasks => let '(s', e) := Storage.Save s tasks in (s', PError e)
  | RAdd tk => let '(s', e) := Storage.Add s tk in (s', PError e)
  | RUpdate id tk => let '(s', e) := Storage.Update s id tk in (s', PError e)
  | RDelete id => let '(s', e) := Storage.Delete s id in (s', PError e)
  | RGetByID id => (s, PTask (Storage.GetByID s id))
  end.

Fixpoint serveAll {St : Type} {store : Storage.t St} (s : St)
    (rs : list request) : St * list reply :=
  match rs with
  | [] => (s, [])
  | r :: rest =>
      let '(s1, p) := serve s r in
      let '(s2, ps) := serveAll s1 rest in
      (s2, p :: ps)
  end.


(** The number of bytes [c] in [s]. *)
Fixpoint countByte (c : ascii) (s : string) : nat :=
  match s with
  | EmptyString => 0
  | String x r => (if Ascii.eqb x c then 1 else 0) + countByte c r
  end.

(** ** A concrete library, world and records to evaluate the model on *)

Module demo.
Local Open Scope Z_scope.

Definition taskA : Task :=
  mkTask "a" "Write report" "first draft, with figures" High 0 false 100 200 [].
Definition taskB : Task :=
  mkTask "b" "Buy milk" "" Low 500 true 110 120 ["home"].
(** An update for record [a] that carries another ID, another creation
    time and an older [UpdatedAt]. *)
Definition taskA' : Task :=
  mkTask "zzz" "Write the report" "second draft" Medium 0 false 999 150 [].
(** A record that does not validate: its title is empty. *)
Definition taskBad : Task :=
  mkTask "ghost" "" "no title" Low 0 false 300 300 [].

Definition storedA' : Task := set_ID "a" (set_CreatedAt 100%Z taskA').

(** A JSON codec that knows a few documents only. *)
Definition documents : list (list Task * string) :=
  [ ([], "[]");
    ([taskA], "[A]");
    ([taskA; taskB], "[A,B]");
    ([storedA'; taskB], "[A',B]") ].

Fixpoint encodeWith (table : list (list Task * string)) (ts : list Task)
    : result string :=
  match table with
  | [] => Err (ErrLib "json: unsupported value")
  | (k, d) :: rest => if decide (k = ts) then Ok d else encodeWith rest ts
  end.

Fixpoint decodeWith (table : list (list Task * string)) (d : string)
    : result (list Task) :=
  match table with
  | [] => Err (ErrLib "invalid character")
  | (k, d') :: rest => if String.eqb d' d then Ok k else decodeWith rest d
  end.

Definition lib : GoLib :=
  {| json_MarshalIndent := encodeWith documents;
     json_Unmarshal := decodeWith documents;
     strings_ToLower := mapBytes asciiLower;
     strings_ToLower_ascii := λ s _, eq_refl;
     time_Format := λ t layout, pretty t;
     filepath_Dir := λ path, ".";
     map_range := λ m, (map_to_list m).*2;
     map_range_perm := λ m, Permutation_refl _ |}.

Definition emptyWorld : os.World := os.mkWorld ∅ ∅ ∅ ∅ ∅ 1000%Z.

(** A world whose file [tasks.json] holds the records [a] and [b]. *)
Definition world : os.World :=
  os.mkWorld {[ "tasks.json" := "[A,B]" ]} ∅ ∅ ∅ ∅ 1000%Z.

(** The same world, in which renaming onto [tasks.json] fails. *)
Definition worldNoRename : os.World :=
  os.mkWorld {[ "tasks.json" := "[A,B]" ]} ∅ ∅
             {[ "tasks.json" := "rename tasks.json.tmp tasks.json: permission denied" ]}
             ∅ 1000%Z.

(** A world whose file cannot be read, and one whose file is no JSON. *)
Definition worldNoRead : os.World :=
  os.mkWorld {[ "tasks.json" := "[A,B]" ]}
             {[ "tasks.json" := "open tasks.json: permission denied" ]}
             ∅ ∅ ∅ 1000%Z.
Definition worldGarbage : os.World :=
  os.mkWorld {[ "tasks.json" := "{oops" ]} ∅ ∅ ∅ ∅ 1000%Z.

Definition fileStore (w : os.World) : JSONFileStorage.t :=
  JSONFileStorage.mk "tasks.json" w.

Definition memStore : InMemoryStorage.t := InMemoryStorage.mk [taskA; taskB].

(** One hundred and one records, with the IDs [t0] ... [t100]. *)
Definition many : list Task :=
  (λ n : nat, mkTask ("t" +:+ pretty n) "Task" "" Low 0 false 0 0 []) <$> seq 0 101.

Definition taskC : Task :=
  mkTask "c" "Call Ann" "" Medium 0 false 130 130 [].

(** A wrapper over the in-memory store, auto-save enabled, with two
    pending records: a newer version of [a] and the new record [c]. *)
Definition pendingMem : ConcurrentStorage.t InMemoryStorage.t :=
  ConcurrentStorage.mk memStore true true false [storedA'; taskC] 1%nat.

(** A wrapper over a file store whose file cannot be read, with the
    record [a] pending. *)
Definition pendingUnreadable : ConcurrentStorage.t JSONFileStorage.t :=
  ConcurrentStorage.mk (fileStore worldNoRead) true true false
                       [taskA] 1%nat.

(** A wrapper over a file store whose file cannot be replaced. *)
Definition pendingNoRename : ConcurrentStorage.t JSONFileStorage.t :=
  ConcurrentStorage.mk (fileStore worldNoRename) true true false
                       [taskC] 1%nat.

End demo.

(** ** More sample data *)

Module examples.
Local Open Scope Z_scope.

(** Record [a] of the samples once completed and once rewritten, both at
    the clock reading 1000 of the sample worlds. *)
Definition taskADone : Task :=
  mkTask "a" "Write report" "first draft, with figures" High 0 true 100 1000 [].
Definition taskANew : Task :=
  mkTask "a" "Write paper" "" Low 700 false 100 1000 [].

(** A record due five nanoseconds into the fourth day of 24 hours. *)
Definition taskLate : Task :=
  mkTask "l" "Pay rent" "" High 259200000000005 false 0 0 [].

(** An update for record [b] that carries another ID and another
    creation time, and the record the stores make of it. *)
Definition taskBNew : Task :=
  mkTask "zzz" "Buy oat milk" "two cartons" Medium 600 true 999 400
         ["home"; "shop"].
Definition storedBNew : Task :=
  mkTask "b" "Buy oat milk" "two cartons" Medium 600 true 110 400
         ["home"; "shop"].

(** Record [b] of the samples reopened at the clock reading 1000. *)
Definition taskBOpen : Task :=
  mkTask "b" "Buy milk" "" Low 500 false 110 1000 ["home"].

(** A codec that knows the documents of [demo] and six more. *)
Definition documents : list (list Task * string) :=
  (demo.documents
   ++ [ ([demo.taskB], "[B]");
        ([demo.taskA; demo.taskB; demo.taskC], "[A,B,C]");
        ([taskADone; demo.taskB], "[A+,B]");
        ([taskANew; demo.taskB], "[A*,B]");
        ([demo.taskA; storedBNew], "[A,B']");
        ([demo.taskA; taskBOpen], "[A,B-]") ])%list.

Definition lib : GoLib :=
  {| json_MarshalIndent := demo.encodeWith documents;
     json_Unmarshal := demo.decodeWith documents;
     strings_ToLower := mapBytes asciiLower;
     strings_ToLower_ascii := λ s _, eq_refl;
     time_Format := λ t layout, pretty t;
     filepath_Dir := λ path, ".";
     map_range := λ m, (map_to_list m).*2;
     map_range_perm := λ m, Permutation_refl _ |}.

(** A record that validates although its title is no UTF-8: the one byte
    255.  [encoding/json] writes such a byte as the replacement character
    U+FFFD, so that the document it makes of [taskRaw] decodes to
    [taskCoerced], whose title is the three bytes of that character. *)
Definition taskRaw : Task :=
  mkTask "r" (String (ascii_of_nat 255) EmptyString) "" Low 0 false 0 0 [].
Definition taskCoerced : Task :=
  mkTask "r" (String (ascii_of_nat 239) (String (ascii_of_nat 191)
                (String (ascii_of_nat 189) EmptyString))) "" Low 0 false 0 0 [].

(** The codec on the document of [taskRaw], as [encoding/json] has it. *)
Definition coercing : GoLib :=
  {| json_MarshalIndent := demo.encodeWith [([taskRaw], "[R]")];
     json_Unmarshal := demo.decodeWith [([taskCoerced], "[R]")];
     strings_ToLower := mapBytes asciiLower;
     strings_ToLower_ascii := λ s _, eq_refl;
     time_Format := λ t layout, pretty t;
     filepath_Dir := λ path, ".";
     map_range := λ m, (map_to_list m).*2;
     map_range_perm := λ m, Permutation_refl _ |}.


(** A reader of decimal numbers with an optional sign, and the addition
    of days of 24 hours, for [strconv.Atoi] and [AddDate]. *)
Fixpoint digits (s : string) (acc : Z) : option Z :=
  match s with
  | EmptyString => Some acc
  | String c r =>
      let n := Z.of_nat (nat_of_ascii c) in
      if (48 <=? n) && (n <=? 57) then digits r (10 * acc + (n - 48)) else None
  end.

Definition Atoi (s : string) : option Z :=
  match s with
  | EmptyString => None
  | String "-" (String c r) => Z.opp <$> digits (String c r) 0
  | String "+" (String c r) => digits (String c r) 0
  | _ => digits s 0
  end.

Definition AddDate (t : Time) (years months days : Z) : Time :=
  t + days * (24 * task.Hour).

End examples.

(** * Properties *)

(** ** Sanity checks of the model on concrete inputs *)

Section DemoChecks.
#[local] Existing Instance demo.lib.

Example demo_file_load :
  JSONFileStorage.Load (demo.fileStore demo.world) = Ok [demo.taskA; demo.taskB].
Proof. vm_compute. reflexivity. Qed.

Example demo_mem_update :
  InMemoryStorage.Update demo.memStore "a" demo.taskA'
  = (InMemoryStorage.mk [demo.storedA'; demo.taskB], None).
Proof. vm_compute. reflexivity. Qed.

Example demo_file_update :
  ∃ s', JSONFileStorage.Update (demo.fileStore demo.world) "a" demo.taskA' = (s', None)
        ∧ JSONFileStorage.Load s' = Ok [demo.storedA'; demo.taskB].
Proof. eexists. split; vm_compute; reflexivity. Qed.

Example demo_export :
  ∃ w', ExportManager.ConcurrentExport demo.memStore demo.emptyWorld
          ["bogus"; "csv"; "json"] ["json"; "csv"; "bogus"] "base"
        = (w', Some (ErrExport ["bogus: unsupported format: bogus"]))
        ∧ os.files w' !! "base.json" = Some "[A,B]"
        ∧ os.files w' !! "base.bogus" = None.
Proof. eexists. split; [vm_compute; reflexivity|]. split; vm_compute; reflexivity. Qed.

Example demo_markdown :
  ExportManager.markdownDocument 1000%Z [demo.taskA; demo.taskB]
  = Join [ "# Task Export"; "";
           "Generated on: 1000"; "";
           "## Pending Tasks (1)"; "";
           "### ❌ 🔴 Write report"; "";
           "**Description:** first draft, with figures"; "";
           "**ID:** `a`  ";
           "**Created:** 100  ";
           "**Updated:** 200  ";
           ""; "";
           "## Completed Tasks (1)"; "";
           "### ✅ 🟢 Buy milk"; "";
           "**Due:** 500"; "";
           "**ID:** `b`  ";
           "**Created:** 110  ";
           "**Updated:** 120  ";
           ""; "" ] ExportManager.nl.
Proof. vm_compute. reflexivity. Qed.

(** The wrapper state [demo.pendingMem] is reached through the methods. *)
Example demo_pendingMem_reached :
  foldl call
    (ConcurrentStorage.EnableAutoSave
       (ConcurrentStorage.NewConcurrentStorage demo.memStore))
    [WUpdate "a" demo.storedA'; WAdd demo.taskC]
  = demo.pendingMem.
Proof. reflexivity. Qed.

End DemoChecks.

(** ** Validation *)

(** A record validates when its title has 1 to 100 bytes and its
    description at most 500. *)
Lemma Validate_None (tk : Task) :
  task.Validate tk = None
  ↔ (1 ≤ String.length (Title tk) ≤ 100)%nat
    ∧ (String.length (Description tk) ≤ 500)%nat.
Proof.
  unfold task.Validate.
  destruct (String.eqb_spec (Title tk) "") as [E|E].
  - rewrite E. simpl. split; [discriminate | lia].
  - assert (1 ≤ String.length (Title tk))%nat.
    { destruct (Title tk); [congruence | simpl; lia]. }
    destruct (Nat.ltb_spec 100 (String.length (Title tk)));
      [split; [discriminate | lia]|].
    destruct (Nat.ltb_spec 500 (String.length (Description tk)));
      [split; [discriminate | lia]|].
    split; [lia | reflexivity].
Qed.

(** ** The loops over a task slice *)

Lemma findByID_Some (id : string) (l : list Task) (tk : Task) :
  findByID id l = Some tk → ID tk = id ∧ tk ∈ l.
Proof.
  induction l as [|x l IH]; simpl; [discriminate|].
  destruct (String.eqb_spec (ID x) id) as [Heq|Hne].
  - intros [= <-]. split; [exact Heq | apply list_elem_of_here].
  - intros Hf. destruct (IH Hf) as [? ?]. split; [assumption|].
    now apply list_elem_of_further.
Qed.

Lemma findByID_None (id : string) (l : list Task) :
  findByID id l = None ↔ ∀ tk, tk ∈ l → ID tk ≠ id.
Proof.
  induction l as [|x l IH]; simpl.
  - split; [|reflexivity]. intros _ tk Hin. inversion Hin.
  - destruct (String.eqb_spec (ID x) id) as [Heq|Hne].
    + split; [discriminate|]. intros Hall. exfalso.
      apply (Hall x); [apply list_elem_of_here | exact Heq].
    + rewrite IH. split.
      * intros Hall tk Hin. apply elem_of_cons in Hin as [->|Hin]; auto.
      * intros Hall tk Hin. apply Hall. now apply list_elem_of_further.
Qed.

Lemma updateLoop_None (id : string) (tk : Task) (l : list Task) :
  updateLoop id tk l = None ↔ findByID id l = None.
Proof.
  induction l as [|x l IH]; simpl; [split; reflexivity|].
  destruct (String.eqb (ID x) id); [split; discriminate|].
  destruct (updateLoop id tk l); simpl.
  - split; [discriminate|]. intros Hn. apply IH in Hn. discriminate.
  - split; [|reflexivity]. intros _. now apply IH.
Qed.

Lemma updateLoop_Some (id : string) (tk : Task) (l l' : list Task) :
  updateLoop id tk l = Some l' →
  ∃ old, findByID id l = Some old
         ∧ findByID id l' = Some (storedBy id old tk)
         ∧ (∀ id', id' ≠ id → findByID id' l' = findByID id' l)
         ∧ length l' = length l.
Proof.
  revert l'. induction l as [|x l IH]; simpl; intros l'; [discriminate|].
  destruct (String.eqb_spec (ID x) id) as [Heq|Hne].
  - intros [= <-]. exists x. simpl. rewrite String.eqb_refl.
    split; [reflexivity|]. split; [reflexivity|]. split; [|reflexivity].
    intros id' Hid'.
    destruct (String.eqb_spec id id') as [->|_]; [congruence|].
    destruct (String.eqb_spec (ID x) id') as [E|_]; [congruence|reflexivity].
  - destruct (updateLoop id tk l) as [l0|] eqn:Hl; simpl; [|discriminate].
    intros [= <-]. destruct (IH l0 eq_refl) as (old & H1 & H2 & H3 & H4).
    exists old. simpl.
    destruct (String.eqb_spec (ID x) id) as [E|_]; [congruence|].
    split; [assumption|]. split; [assumption|]. split; [|now rewrite H4].
    intros id' Hid'. rewrite (H3 id' Hid'). reflexivity.
Qed.

(** The loops at the first record of the ID, wherever it stands. *)
Lemma findByID_first (id : string) (l1 l2 : list Task) (x : Task) :
  (∀ y, y ∈ l1 → ID y ≠ id) → ID x = id →
  findByID id (l1 ++ x :: l2)%list = Some x.
Proof.
  intros Hl1 Hx. induction l1 as [|y l1 IH]; simpl.
  - rewrite Hx, String.eqb_refl. reflexivity.
  - destruct (String.eqb_spec (ID y) id) as [E|_].
    + exfalso. apply (Hl1 y); [apply list_elem_of_here | exact E].
    + apply IH. intros z Hz. apply Hl1. now apply list_elem_of_further.
Qed.

Lemma findByID_split (id : string) (l : list Task) (x : Task) :
  findByID id l = Some x →
  ∃ l1 l2, l = (l1 ++ x :: l2)%list ∧ (∀ y, y ∈ l1 → ID y ≠ id) ∧ ID x = id.
Proof.
  induction l as [|y l IH]; simpl; [discriminate|].
  destruct (String.eqb_spec (ID y) id) as [E|N].
  - intros [= <-]. exists [], l. split; [reflexivity|]. split; [|exact E].
    intros z Hz. inversion Hz.
  - intros Hf. destruct (IH Hf) as (l1 & l2 & -> & H1 & H2).
    exists (y :: l1), l2. split; [reflexivity|]. split; [|exact H2].
    intros z Hz. apply elem_of_cons in Hz as [->|Hz]; [exact N | now apply H1].
Qed.

Lemma updateLoop_first (id : string) (tk : Task) (l1 l2 : list Task) (x : Task) :
  (∀ y, y ∈ l1 → ID y ≠ id) → ID x = id →
  updateLoop id tk (l1 ++ x :: l2)%list
  = Some (l1 ++ set_ID id (set_CreatedAt (CreatedAt x) tk) :: l2)%list.
Proof.
  intros Hl1 Hx. induction l1 as [|y l1 IH]; simpl.
  - rewrite Hx, String.eqb_refl. reflexivity.
  - destruct (String.eqb_spec (ID y) id) as [E|_].
    + exfalso. apply (Hl1 y); [apply list_elem_of_here | exact E].
    + rewrite IH; [reflexivity|].
      intros z Hz. apply Hl1. now apply list_elem_of_further.
Qed.

Lemma deleteLoop_first (id : string) (l1 l2 : list Task) (x : Task) :
  (∀ y, y ∈ l1 → ID y ≠ id) → ID x = id →
  deleteLoop id (l1 ++ x :: l2)%list = Some (l1 ++ l2)%list.
Proof.
  intros Hl1 Hx. induction l1 as [|y l1 IH]; simpl.
  - rewrite Hx, String.eqb_refl. reflexivity.
  - destruct (String.eqb_spec (ID y) id) as [E|_].
    + exfalso. apply (Hl1 y); [apply list_elem_of_here | exact E].
    + rewrite IH; [reflexivity|].
      intros z Hz. apply Hl1. now apply list_elem_of_further.
Qed.

(** ** The JSON file store: what [Save] leaves and what [Load] reads *)

Section FileStore.
Context {lib : GoLib}.
Import JSONFileStorage.

Lemma Save_ok (s s' : t) (ts : list Task) :
  Save s ts = (s', None) →
  ∃ data, json_MarshalIndent ts = Ok data
          ∧ filePath s' = filePath s
          ∧ os.files (world s') !! filePath s = Some data
          ∧ os.readFault (world s') = os.readFault (world s).
Proof.
  unfold Save. destruct (os.MkdirAll _ _); [discriminate|].
  destruct (json_MarshalIndent ts) as [data|e]; [|discriminate].
  unfold os.WriteFile. destruct (os.writeFault _ !! _); [discriminate|].
  unfold os.Rename. simpl. destruct (os.renameFault _ !! _); [discriminate|].
  rewrite lookup_insert_eq. intros [= <-]. exists data. simpl.
  repeat split. apply lookup_insert_eq.
Qed.

Lemma Load_after (s : t) (ts : list Task) (data : string) :
  os.files (world s) !! filePath s = Some data →
  os.readFault (world s) !! filePath s = None →
  data ≠ "" → json_Unmarshal data = Ok ts →
  Load s = Ok ts.
Proof.
  intros Hf Hr Hd Hu. unfold Load, os.Stat_IsNotExist, os.ReadFile.
  rewrite Hf, Hr. destruct data as [|c r]; [congruence|]. simpl.
  now rewrite Hu.
Qed.

(** When [Load] returns a record, the file was there and could be read. *)
Lemma Load_nonempty_readable (s : t) (ts : list Task) :
  Load s = Ok ts → ts ≠ [] → os.readFault (world s) !! filePath s = None.
Proof.
  unfold Load, os.Stat_IsNotExist, os.ReadFile.
  destruct (os.files _ !! _); [|intros [= <-]; congruence].
  destruct (os.readFault _ !! _); [discriminate|reflexivity].
Qed.

End FileStore.

(** ** Load on the file store *)

(** C7. [Load] on the file store returns the empty collection, and no
    error, when the backing file does not exist.  When the file exists, a
    failure to read it is returned as an error, and so is a failure to
    decode its content.  (The decoder is called on a non-empty content
    only: an existing file of length zero is the empty collection too.) *)
Theorem Load_absent_is_empty_failure_is_error {lib : GoLib}
    (s : JSONFileStorage.t) :
  let path := JSONFileStorage.filePath s in
  let w := JSONFileStorage.world s in
  (os.files w !! path = None → JSONFileStorage.Load s = Ok [])
  ∧ (∀ data msg,
       os.files w !! path = Some data → os.readFault w !! path = Some msg →
       JSONFileStorage.Load s = Err (ErrReadFile path (ErrLib msg)))
  ∧ (∀ data e,
       os.files w !! path = Some data → os.readFault w !! path = None →
       data ≠ "" → json_Unmarshal data = Err e →
       JSONFileStorage.Load s = Err (ErrUnmarshal e))
  ∧ (os.files w !! path = Some "" → os.readFault w !! path = None →
     JSONFileStorage.Load s = Ok []).
Proof.
  intros path w. subst path w.
  unfold JSONFileStorage.Load, os.Stat_IsNotExist, os.ReadFile.
  split; [intros ->; reflexivity|].
  split; [intros data msg -> ->; reflexivity|].
  split.
  - intros data e -> -> Hd Hu. destruct data as [|c r]; [congruence|].
    simpl. now rewrite Hu.
  - intros -> ->. reflexivity.
Qed.

Lemma Load_absent_is_empty_failure_is_error_witness :
  JSONFileStorage.Load (lib := demo.lib) (demo.fileStore demo.emptyWorld) = Ok []
  ∧ JSONFileStorage.Load (lib := demo.lib) (demo.fileStore demo.worldNoRead)
    = Err (ErrReadFile "tasks.json"
             (ErrLib "open tasks.json: permission denied"))
  ∧ JSONFileStorage.Load (lib := demo.lib) (demo.fileStore demo.worldGarbage)
    = Err (ErrUnmarshal (ErrLib "invalid character")).
Proof.
  split; [|split].
  - apply (proj1 (Load_absent_is_empty_failure_is_error
             (lib := demo.lib) (demo.fileStore demo.emptyWorld))).
    reflexivity.
  - apply (proj1 (proj2 (Load_absent_is_empty_failure_is_error
             (lib := demo.lib) (demo.fileStore demo.worldNoRead))) "[A,B]").
    + reflexivity.
    + reflexivity.
  - apply (proj1 (proj2 (proj2 (Load_absent_is_empty_failure_is_error
             (lib := demo.lib) (demo.fileStore demo.worldGarbage)))) "{oops").
    + reflexivity.
    + reflexivity.
    + discriminate.
    + reflexivity.
Defined.

(** ** Save followed by Load *)

Lemma demo_RoundTrips (ts : list Task) : RoundTrips (lib := demo.lib) ts.
Proof.
  intros data. unfold json_MarshalIndent, json_Unmarshal; cbn [demo.lib].
  unfold demo.documents. cbn [demo.encodeWith].
  repeat (case_decide; [subst ts; intros [= <-]; split; [discriminate|reflexivity]|]).
  discriminate.
Qed.

Lemma examples_RoundTrips (ts : list Task) : RoundTrips (lib := examples.lib) ts.
Proof.
  intros data. unfold json_MarshalIndent, json_Unmarshal; cbn [examples.lib].
  unfold examples.documents, demo.documents. cbn [app demo.encodeWith].
  repeat (case_decide; [subst ts; intros [= <-]; split; [discriminate|reflexivity]|]).
  discriminate.
Qed.

(** [Save] on the file store succeeds when no system call fails and the
    records can be encoded. *)
Lemma Save_succeeds {lib : GoLib} (s : JSONFileStorage.t) (ts : list Task)
    (data : string) :
  let path := JSONFileStorage.filePath s in
  let w := JSONFileStorage.world s in
  os.mkdirFault w !! filepath_Dir path = None →
  json_MarshalIndent ts = Ok data →
  os.writeFault w !! (path +:+ ".tmp") = None →
  os.renameFault w !! path = None →
  ∃ s', JSONFileStorage.Save s ts = (s', None).
Proof.
  intros path w Hm Hj Hw Hr. subst path w.
  unfold JSONFileStorage.Save, os.MkdirAll, os.WriteFile, os.Rename.
  rewrite Hm, Hj, Hw. simpl. rewrite Hr, lookup_insert_eq. eauto.
Qed.

Lemma Save_read_back {lib : GoLib} (s s' : JSONFileStorage.t) (ts : list Task) :
  JSONFileStorage.Save s ts = (s', None) → RoundTrips ts →
  os.readFault (JSONFileStorage.world s) !! JSONFileStorage.filePath s = None →
  JSONFileStorage.Load s' = Ok ts.
Proof.
  intros Hs Hrt Hr.
  destruct (Save_ok s s' ts Hs) as (data & Hj & Hp & Hf & Hrf).
  destruct (Hrt data Hj) as [Hne Hu].
  apply (Load_after s' ts data); rewrite ?Hp, ?Hrf; assumption.
Qed.

(** C8, as the claim states it, fails on the file store: a record whose
    title is the byte 255 validates, [encoding/json] writes that byte as
    the replacement character, and [Load] after [Save] returns a record
    with another title. *)
Lemma Save_then_Load_alters_a_valid_record :
  ¬ (∀ (s s' : JSONFileStorage.t) (ts loaded : list Task),
       Forall (λ x, task.Validate x = None) ts →
       JSONFileStorage.Save (lib := examples.coercing) s ts = (s', None) →
       JSONFileStorage.Load (lib := examples.coercing) s' = Ok loaded →
       ∀ id, findByID id loaded = findByID id ts).
Proof.
  intros H.
  specialize (H (demo.fileStore demo.emptyWorld)
                (fst (JSONFileStorage.Save (lib := examples.coercing)
                        (demo.fileStore demo.emptyWorld) [examples.taskRaw]))
                [examples.taskRaw] [examples.taskCoerced]).
  assert (E : findByID "r" [examples.taskCoerced]
              = findByID "r" [examples.taskRaw]).
  { apply H.
    - repeat constructor.
    - vm_compute. reflexivity.
    - vm_compute. reflexivity. }
  vm_compute in E. discriminate.
Qed.

(** C8, amended.  On the in-memory store [Save] followed by [Load]
    returns the collection that was saved: the very list, for a list of
    any length (0, 1 and more than 100 records included).  On the file
    store [Load] after a successful [Save] returns what the decoder makes
    of what the encoder has written, the empty collection when that is
    empty: the store adds and loses nothing of its own, and the collection
    saved comes back when the JSON codec returns the records it was given.
    [Save] does succeed when the records can be encoded and no system call
    fails. *)
Theorem Save_then_Load {lib : GoLib} (ts : list Task) :
  (∀ s : InMemoryStorage.t,
     ∃ s', InMemoryStorage.Save s ts = (s', None)
           ∧ InMemoryStorage.Load s' = Ok ts)
  ∧ (∀ s s' : JSONFileStorage.t,
       JSONFileStorage.Save s ts = (s', None) →
       os.readFault (JSONFileStorage.world s) !! JSONFileStorage.filePath s = None →
       ∃ data,
         json_MarshalIndent ts = Ok data
         ∧ os.files (JSONFileStorage.world s') !! JSONFileStorage.filePath s
           = Some data
         ∧ JSONFileStorage.Load s'
           = (if String.eqb data "" then Ok []
              else match json_Unmarshal data with
                   | Ok loaded => Ok loaded
                   | Err e => Err (ErrUnmarshal e)
                   end)
         ∧ (RoundTrips ts → JSONFileStorage.Load s' = Ok ts))
  ∧ (∀ s s' : JSONFileStorage.t,
       JSONFileStorage.Save s ts = (s', None) →
       RoundTrips ts →
       os.readFault (JSONFileStorage.world s) !! JSONFileStorage.filePath s = None →
       JSONFileStorage.Load s' = Ok ts)
  ∧ (∀ (s : JSONFileStorage.t) data,
       let path := JSONFileStorage.filePath s in
       let w := JSONFileStorage.world s in
       json_MarshalIndent ts = Ok data → RoundTrips ts →
       os.mkdirFault w !! filepath_Dir path = None →
       os.writeFault w !! (path +:+ ".tmp") = None →
       os.renameFault w !! path = None →
       os.readFault w !! path = None →
       ∃ s', JSONFileStorage.Save s ts = (s', None)
             ∧ JSONFileStorage.Load s' = Ok ts).
Proof.
  split; [|split; [|split]].
  - intros s. eexists. split; reflexivity.
  - intros s s' Hs Hr.
    destruct (Save_ok s s' ts Hs) as (data & Hj & Hp & Hf & Hrf).
    exists data. split; [exact Hj|]. split; [exact Hf|]. split.
    + unfold JSONFileStorage.Load, os.Stat_IsNotExist, os.ReadFile.
      rewrite Hp, Hf, Hrf, Hr. destruct data; reflexivity.
    + intros Hrt. now apply (Save_read_back s s').
  - intros s s' Hs Hrt Hr. now apply (Save_read_back s s').
  - intros s data path w Hj Hrt Hm Hw Hrn Hr.
    destruct (Save_succeeds s ts data Hm Hj Hw Hrn) as [s' Hs].
    exists s'. split; [exact Hs|]. now apply (Save_read_back s s').
Qed.

Lemma Save_then_Load_witness :
  (∃ s', JSONFileStorage.Save (lib := demo.lib) (demo.fileStore demo.emptyWorld)
           [demo.taskA; demo.taskB] = (s', None)
         ∧ JSONFileStorage.Load (lib := demo.lib) s' = Ok [demo.taskA; demo.taskB])
  (* the record with the title of one byte 255 comes back with another *)
  ∧ (∃ s', JSONFileStorage.Save (lib := examples.coercing)
             (demo.fileStore demo.emptyWorld) [examples.taskRaw] = (s', None)
           ∧ JSONFileStorage.Load (lib := examples.coercing) s'
             = Ok [examples.taskCoerced])
  ∧ (∃ s', InMemoryStorage.Save InMemoryStorage.NewInMemoryStorage [] = (s', None)
           ∧ InMemoryStorage.Load s' = Ok [])
  ∧ (∃ s', InMemoryStorage.Save InMemoryStorage.NewInMemoryStorage [demo.taskA]
           = (s', None)
           ∧ InMemoryStorage.Load s' = Ok [demo.taskA])
  ∧ length demo.many = 101
  ∧ (∃ s', InMemoryStorage.Save InMemoryStorage.NewInMemoryStorage demo.many
           = (s', None)
           ∧ InMemoryStorage.Load s' = Ok demo.many).
Proof.
  split; [|split; [|split; [|split; [|split]]]].
  - eexists. split; [vm_compute; reflexivity|].
    apply (proj1 (proj2 (proj2 (Save_then_Load (lib := demo.lib)
                                  [demo.taskA; demo.taskB])))
             (demo.fileStore demo.emptyWorld)).
    + vm_compute. reflexivity.
    + apply demo_RoundTrips.
    + reflexivity.
  - eexists. split; [vm_compute; reflexivity|].
    destruct (proj1 (proj2 (Save_then_Load (lib := examples.coercing)
                              [examples.taskRaw]))
                (demo.fileStore demo.emptyWorld) _
                ltac:(vm_compute; reflexivity) eq_refl)
      as (data & Hj & _ & HL & _).
    rewrite HL. vm_compute in Hj. injection Hj as <-. vm_compute. reflexivity.
  - apply (proj1 (Save_then_Load (lib := demo.lib) [])).
  - apply (proj1 (Save_then_Load (lib := demo.lib) [demo.taskA])).
  - reflexivity.
  - apply (proj1 (Save_then_Load (lib := demo.lib) demo.many)).
Defined.

(** ** Update on the two stores *)

Lemma mem_Update_ok (s s' : InMemoryStorage.t) (id : string) (tk : Task) :
  InMemoryStorage.Update s id tk = (s', None) →
  ∃ old, task.Validate tk = None
         ∧ findByID id (InMemoryStorage.tasks s) = Some old
         ∧ findByID id (InMemoryStorage.tasks s') = Some (storedBy id old tk).
Proof.
  unfold InMemoryStorage.Update.
  destruct (task.Validate tk); [discriminate|].
  destruct (updateLoop id tk (InMemoryStorage.tasks s)) as [l'|] eqn:Hl;
    [|discriminate].
  intros [= <-]. destruct (updateLoop_Some _ _ _ _ Hl) as (old & H1 & H2 & _).
  exists old. simpl. auto.
Qed.

Lemma file_Update_ok {lib : GoLib} (s s' : JSONFileStorage.t) (id : string)
    (tk : Task) :
  JSONFileStorage.Update s id tk = (s', None) →
  ∃ tasks old tasks' data,
    JSONFileStorage.Load s = Ok tasks
    ∧ task.Validate tk = None
    ∧ findByID id tasks = Some old
    ∧ updateLoop id tk tasks = Some tasks'
    ∧ findByID id tasks' = Some (storedBy id old tk)
    ∧ json_MarshalIndent tasks' = Ok data
    ∧ os.files (JSONFileStorage.world s') !! JSONFileStorage.filePath s = Some data
    ∧ (RoundTrips tasks' → JSONFileStorage.Load s' = Ok tasks').
Proof.
  unfold JSONFileStorage.Update.
  destruct (JSONFileStorage.Load s) as [tasks|e] eqn:HL; [|discriminate].
  destruct (task.Validate tk); [discriminate|].
  destruct (updateLoop id tk tasks) as [tasks'|] eqn:Hl; [|discriminate].
  intros Hs. destruct (updateLoop_Some _ _ _ _ Hl) as (old & H1 & H2 & _).
  destruct (Save_ok _ _ _ Hs) as (data & Hj & Hp & Hf & Hrf).
  exists tasks, old, tasks', data. repeat (split; [assumption || reflexivity|]).
  intros Hrt. destruct (Hrt data Hj) as [Hne Hu].
  apply (Load_after s' tasks' data); rewrite ?Hp, ?Hrf; try assumption.
  apply (Load_nonempty_readable s tasks HL).
  intros ->. discriminate.
Qed.

(** C4. [Update(id, task)] on the in-memory store and on the file store
    (there, once the file has been loaded; when it cannot be loaded the
    load error is returned).  A record with bad fields is refused with the
    validation error and the store is left as it was; a valid record whose
    [id] no stored record has is refused with the not-found error.  A
    valid record whose [id] a stored record has, wherever that record
    stands, is accepted: the first record of that ID is replaced, at its
    place, by the input with its ID set to [id], whatever ID the input
    carried, and with the creation time of the record replaced, the other
    fields being those of the input; the other records stay.  The change
    is persisted: the in-memory store holds the new collection, and the
    file store saves it, so that when the collection can be encoded and no
    system call fails [Update] succeeds and the file holds the encoding,
    which [Load] and [GetByID] read back when the codec returns what it
    was given. *)
Theorem Update_validates_finds_and_replaces {lib : GoLib}
    (id : string) (tk : Task) :
  (∀ s : InMemoryStorage.t,
     (∀ e, task.Validate tk = Some e →
           InMemoryStorage.Update s id tk = (s, Some (ErrInvalidTask e)))
     ∧ (task.Validate tk = None →
        (∀ x, x ∈ InMemoryStorage.tasks s → ID x ≠ id) →
        InMemoryStorage.Update s id tk = (s, Some (ErrNotFound id)))
     ∧ (task.Validate tk = None →
        ∀ l1 old l2,
          InMemoryStorage.tasks s = (l1 ++ old :: l2)%list →
          (∀ x, x ∈ l1 → ID x ≠ id) → ID old = id →
          let new := mkTask id (Title tk) (Description tk) (priority tk)
                            (DueDate tk) (Completed tk) (CreatedAt old)
                            (UpdatedAt tk) (Tags tk) in
          InMemoryStorage.Update s id tk
          = (InMemoryStorage.mk (l1 ++ new :: l2), None)
          ∧ InMemoryStorage.GetByID (InMemoryStorage.mk (l1 ++ new :: l2)) id
            = Ok new)
     ∧ (∀ s', InMemoryStorage.Update s id tk = (s', None) →
          ∃ old new,
            InMemoryStorage.GetByID s id = Ok old
            ∧ InMemoryStorage.GetByID s' id = Ok new
            ∧ new = storedBy id old tk
            ∧ ID new = id ∧ CreatedAt new = CreatedAt old))
  ∧ (∀ (s : JSONFileStorage.t) (tasks : list Task),
       JSONFileStorage.Load s = Ok tasks →
       (∀ e, task.Validate tk = Some e →
             JSONFileStorage.Update s id tk = (s, Some (ErrInvalidTask e)))
       ∧ (task.Validate tk = None →
          (∀ x, x ∈ tasks → ID x ≠ id) →
          JSONFileStorage.Update s id tk = (s, Some (ErrNotFound id)))
       ∧ (task.Validate tk = None →
          ∀ l1 old l2,
            tasks = (l1 ++ old :: l2)%list →
            (∀ x, x ∈ l1 → ID x ≠ id) → ID old = id →
            let new := mkTask id (Title tk) (Description tk) (priority tk)
                              (DueDate tk) (Completed tk) (CreatedAt old)
                              (UpdatedAt tk) (Tags tk) in
            let path := JSONFileStorage.filePath s in
            let w := JSONFileStorage.world s in
            JSONFileStorage.Update s id tk
            = JSONFileStorage.Save s (l1 ++ new :: l2)
            ∧ ∀ data,
                json_MarshalIndent (l1 ++ new :: l2)%list = Ok data →
                os.mkdirFault w !! filepath_Dir path = None →
                os.writeFault w !! (path +:+ ".tmp") = None →
                os.renameFault w !! path = None →
                ∃ s', JSONFileStorage.Update s id tk = (s', None)
                      ∧ os.files (JSONFileStorage.world s') !! path = Some data
                      ∧ (RoundTrips (l1 ++ new :: l2)%list →
                         JSONFileStorage.Load s' = Ok (l1 ++ new :: l2)%list
                         ∧ JSONFileStorage.GetByID s' id = Ok new))
       ∧ (∀ s', JSONFileStorage.Update s id tk = (s', None) →
            ∃ old new tasks' data,
              JSONFileStorage.GetByID s id = Ok old
              ∧ new = storedBy id old tk
              ∧ ID new = id ∧ CreatedAt new = CreatedAt old
              ∧ updateLoop id tk tasks = Some tasks'
              ∧ json_MarshalIndent tasks' = Ok data
              ∧ os.files (JSONFileStorage.world s') !! JSONFileStorage.filePath s
                = Some data
              ∧ (RoundTrips tasks' → JSONFileStorage.GetByID s' id = Ok new)))
  ∧ (∀ (s : JSONFileStorage.t) e,
       JSONFileStorage.Load s = Err e →
       JSONFileStorage.Update s id tk = (s, Some (ErrLoadTasks e)))
  ∧ (∀ (s : JSONFileStorage.t) e,
       task.Validate tk = Some e →
       ∃ e', JSONFileStorage.Update s id tk = (s, Some e')).
Proof.
  split; [|split; [|split]].
  - intros s. split; [|split; [|split]].
    + intros e He. unfold InMemoryStorage.Update. now rewrite He.
    + intros Hv Hno. unfold InMemoryStorage.Update. rewrite Hv.
      apply findByID_None, (updateLoop_None id tk) in Hno. now rewrite Hno.
    + intros Hv l1 old l2 Hl Hl1 Hold new.
      unfold InMemoryStorage.Update, InMemoryStorage.GetByID. rewrite Hv, Hl.
      rewrite (updateLoop_first id tk l1 l2 old Hl1 Hold).
      split; [reflexivity|]. simpl.
      now rewrite (findByID_first id l1 l2 new Hl1 eq_refl).
    + intros s' Hs. destruct (mem_Update_ok _ _ _ _ Hs) as (old & _ & H1 & H2).
      exists old, (storedBy id old tk). unfold InMemoryStorage.GetByID.
      rewrite H1, H2. repeat split.
  - intros s tasks HL. split; [|split; [|split]].
    + intros e He. unfold JSONFileStorage.Update. now rewrite HL, He.
    + intros Hv Hno. unfold JSONFileStorage.Update. rewrite HL, Hv.
      apply findByID_None, (updateLoop_None id tk) in Hno. now rewrite Hno.
    + intros Hv l1 old l2 -> Hl1 Hold new path w.
      assert (Hupd : JSONFileStorage.Update s id tk
                     = JSONFileStorage.Save s (l1 ++ new :: l2)).
      { unfold JSONFileStorage.Update. rewrite HL, Hv.
        now rewrite (updateLoop_first id tk l1 l2 old Hl1 Hold). }
      split; [exact Hupd|].
      intros data Hj Hm Hw Hr.
      destruct (Save_succeeds s (l1 ++ new :: l2) data Hm Hj Hw Hr) as [s' Hs].
      exists s'. rewrite Hupd. split; [exact Hs|].
      destruct (Save_ok _ _ _ Hs) as (data' & Hj' & _ & Hf & _).
      rewrite Hj in Hj'. injection Hj' as <-.
      split; [exact Hf|]. intros Hrt.
      assert (HL' : JSONFileStorage.Load s' = Ok (l1 ++ new :: l2)%list).
      { apply (Save_read_back s s' _ Hs Hrt).
        apply (Load_nonempty_readable s _ HL). now destruct l1. }
      split; [exact HL'|]. unfold JSONFileStorage.GetByID. rewrite HL'.
      now rewrite (findByID_first id l1 l2 new Hl1 eq_refl).
    + intros s' Hs.
      destruct (file_Update_ok _ _ _ _ Hs)
        as (tasks0 & old & tasks' & data & HL0 & _ & H1 & H2 & H3 & Hj & Hf & Hrt).
      rewrite HL in HL0. injection HL0 as <-.
      exists old, (storedBy id old tk), tasks', data.
      unfold JSONFileStorage.GetByID. rewrite HL, H1.
      repeat (split; [assumption || reflexivity|]).
      intros R. now rewrite (Hrt R), H3.
  - intros s e He. unfold JSONFileStorage.Update. now rewrite He.
  - intros s e He. unfold JSONFileStorage.Update.
    destruct (JSONFileStorage.Load s); [|eauto]. rewrite He. eauto.
Qed.

Lemma Update_validates_finds_and_replaces_witness :
  (* a record with an empty title *)
  InMemoryStorage.Update demo.memStore "a" demo.taskBad
  = (demo.memStore, Some (ErrInvalidTask ErrTitleEmpty))
  (* a valid record, an unknown id *)
  ∧ JSONFileStorage.Update (lib := examples.lib) (demo.fileStore demo.world)
      "nope" demo.taskA'
    = (demo.fileStore demo.world, Some (ErrNotFound "nope"))
  (* a valid record carrying the ID zzz, stored under b, the second record *)
  ∧ InMemoryStorage.Update demo.memStore "b" examples.taskBNew
    = (InMemoryStorage.mk [demo.taskA; examples.storedBNew], None)
  ∧ ID examples.taskBNew = "zzz"
  ∧ CreatedAt examples.storedBNew = CreatedAt demo.taskB
  ∧ ∃ s',
      JSONFileStorage.Update (lib := examples.lib) (demo.fileStore demo.world)
        "b" examples.taskBNew = (s', None)
      ∧ os.files (JSONFileStorage.world s') !! "tasks.json" = Some "[A,B']"
      ∧ JSONFileStorage.Load (lib := examples.lib) s'
        = Ok [demo.taskA; examples.storedBNew]
      ∧ JSONFileStorage.GetByID (lib := examples.lib) s' "b"
        = Ok examples.storedBNew.
Proof.
  pose proof (Update_validates_finds_and_replaces (lib := examples.lib) "a"
                demo.taskBad) as [Hbad _].
  pose proof (Update_validates_finds_and_replaces (lib := examples.lib) "nope"
                demo.taskA') as [_ [Hnope _]].
  pose proof (Update_validates_finds_and_replaces (lib := examples.lib) "b"
                examples.taskBNew) as [Hmem [Hfile _]].
  split; [|split; [|split; [|split; [|split]]]].
  - apply (proj1 (Hbad demo.memStore)). reflexivity.
  - apply (proj1 (proj2 (Hnope (demo.fileStore demo.world)
                           [demo.taskA; demo.taskB]
                           ltac:(vm_compute; reflexivity)))).
    + reflexivity.
    + intros x Hx. repeat (apply elem_of_cons in Hx as [->|Hx]; [discriminate|]).
      inversion Hx.
  - apply (proj1 (proj2 (proj2 (Hmem demo.memStore)))
             eq_refl [demo.taskA] demo.taskB [] eq_refl).
    + intros x Hx. apply list_elem_of_singleton in Hx as ->. discriminate.
    + reflexivity.
  - reflexivity.
  - reflexivity.
  - destruct (proj1 (proj2 (proj2 (Hfile (demo.fileStore demo.world)
                                      [demo.taskA; demo.taskB]
                                      ltac:(vm_compute; reflexivity))))
                eq_refl [demo.taskA] demo.taskB [] eq_refl) as [_ Hok].
    + intros x Hx. apply list_elem_of_singleton in Hx as ->. discriminate.
    + reflexivity.
    + destruct (Hok "[A,B']" ltac:(vm_compute; reflexivity) eq_refl eq_refl eq_refl)
        as (s' & Hu & Hf & Hrt).
      exists s'. split; [exact Hu|]. split; [exact Hf|].
      apply Hrt. apply examples_RoundTrips.
Defined.

(** C5, as the claim states it, fails: a successful [Update] whose input
    carries an [UpdatedAt] that is not later than the stored one leaves a
    record whose [UpdatedAt] has not increased, on both stores. *)
Lemma Update_UpdatedAt_may_not_increase :
  ¬ (∀ (s s' : InMemoryStorage.t) (id : string) (tk old new : Task),
       InMemoryStorage.Update s id tk = (s', None) →
       InMemoryStorage.GetByID s id = Ok old →
       InMemoryStorage.GetByID s' id = Ok new →
       (UpdatedAt old < UpdatedAt new)%Z)
  ∧ ¬ (∀ (s s' : JSONFileStorage.t) (id : string) (tk old new : Task),
       JSONFileStorage.Update (lib := demo.lib) s id tk = (s', None) →
       JSONFileStorage.GetByID (lib := demo.lib) s id = Ok old →
       JSONFileStorage.GetByID (lib := demo.lib) s' id = Ok new →
       (UpdatedAt old < UpdatedAt new)%Z).
Proof.
  split.
  - intros H.
    specialize (H demo.memStore (InMemoryStorage.mk [demo.storedA'; demo.taskB])
                  "a" demo.taskA' demo.taskA demo.storedA'
                  eq_refl eq_refl eq_refl).
    vm_compute in H. discriminate.
  - intros H.
    pose (s' := fst (JSONFileStorage.Update (lib := demo.lib)
                       (demo.fileStore demo.world) "a" demo.taskA')).
    specialize (H (demo.fileStore demo.world) s' "a" demo.taskA' demo.taskA
                  demo.storedA').
    assert (Hlt : (UpdatedAt demo.taskA < UpdatedAt demo.storedA')%Z).
    { apply H; vm_compute; reflexivity. }
    vm_compute in Hlt. discriminate.
Qed.

(** C5, amended.  A successful [Update] stores the [UpdatedAt] the input
    record carries: the stores do not set it.  It is [Task.Update] that
    sets the field, to what [time.Now()] returns. *)
Theorem Update_stores_the_input_UpdatedAt {lib : GoLib} (id : string) (tk : Task) :
  (∀ s s' : InMemoryStorage.t,
     InMemoryStorage.Update s id tk = (s', None) →
     ∃ new, InMemoryStorage.GetByID s' id = Ok new
            ∧ UpdatedAt new = UpdatedAt tk)
  ∧ (∀ s s' : JSONFileStorage.t,
       JSONFileStorage.Update s id tk = (s', None) →
       ∃ tasks tasks' new,
         JSONFileStorage.Load s = Ok tasks
         ∧ updateLoop id tk tasks = Some tasks'
         ∧ findByID id tasks' = Some new
         ∧ UpdatedAt new = UpdatedAt tk
         ∧ (RoundTrips tasks' → JSONFileStorage.GetByID s' id = Ok new))
  ∧ (∀ now title description p dueDate,
       UpdatedAt (fst (task.Update now tk title description p dueDate)) = now).
Proof.
  split; [|split].
  - intros s s' Hs. destruct (mem_Update_ok _ _ _ _ Hs) as (old & _ & _ & H2).
    exists (storedBy id old tk). unfold InMemoryStorage.GetByID.
    rewrite H2. split; reflexivity.
  - intros s s' Hs.
    destruct (file_Update_ok _ _ _ _ Hs)
      as (tasks & old & tasks' & data & HL & _ & _ & H2 & H3 & _ & _ & Hrt).
    exists tasks, tasks', (storedBy id old tk).
    repeat (split; [assumption || reflexivity|]).
    intros R. unfold JSONFileStorage.GetByID. now rewrite (Hrt R), H3.
  - reflexivity.
Qed.

Lemma Update_stores_the_input_UpdatedAt_witness :
  ∃ new, InMemoryStorage.GetByID
           (InMemoryStorage.mk [demo.storedA'; demo.taskB]) "a" = Ok new
         ∧ UpdatedAt new = 150%Z.
Proof.
  apply (proj1 (Update_stores_the_input_UpdatedAt (lib := demo.lib) "a" demo.taskA')
           demo.memStore (InMemoryStorage.mk [demo.storedA'; demo.taskB])).
  reflexivity.
Defined.

(** ** The merge of the wrapper *)

Lemma lastByID_Some (id : string) (l : list Task) (x : Task) :
  lastByID id l = Some x → ID x = id ∧ x ∈ l.
Proof.
  induction l as [|y l IH]; simpl; [discriminate|].
  destruct (lastByID id l) as [z|].
  - intros [= <-]. destruct (IH eq_refl). split; [assumption|].
    now apply list_elem_of_further.
  - destruct (String.eqb_spec (ID y) id); [|discriminate].
    intros [= <-]. split; [assumption | apply list_elem_of_here].
Qed.

Lemma lastByID_None (id : string) (l : list Task) :
  lastByID id l = None ↔ findByID id l = None.
Proof.
  induction l as [|y l IH]; simpl; [split; reflexivity|].
  destruct (String.eqb (ID y) id).
  - destruct (lastByID id l); split; discriminate.
  - rewrite <- IH. destruct (lastByID id l); split; congruence.
Qed.

(** With one record per ID the first and the last record of an ID are
    the same. *)
Lemma lastByID_findByID (id : string) (l : list Task) :
  NoDup (ID <$> l) → lastByID id l = findByID id l.
Proof.
  induction l as [|y l IH]; simpl; [reflexivity|].
  intros Hnd. apply NoDup_cons in Hnd as [Hy Hnd]. rewrite (IH Hnd).
  destruct (String.eqb_spec (ID y) id) as [E|E].
  - destruct (findByID id l) as [z|] eqn:Hz; [|reflexivity].
    exfalso. apply Hy. destruct (findByID_Some _ _ _ Hz) as [Hid Hin].
    apply list_elem_of_fmap. exists z. split; [congruence | assumption].
  - destruct (findByID id l); reflexivity.
Qed.

Lemma foldl_insert_lookup (l : list Task) (m : gmap string Task) (id : string) :
  foldl (λ m tk, <[ID tk := tk]> m) m l !! id
  = match lastByID id l with Some p => Some p | None => m !! id end.
Proof.
  revert m. induction l as [|x l IH]; intros m; simpl; [reflexivity|].
  rewrite IH. destruct (lastByID id l); [reflexivity|].
  destruct (String.eqb_spec (ID x) id) as [E|E].
  - rewrite <- E. apply lookup_insert_eq.
  - now apply lookup_insert_ne.
Qed.

Section Wrapper.
Context {St : Type} {store : Storage.t St} {lib : GoLib}.
Import ConcurrentStorage.

Lemma mergeMap_lookup (current unsaved : list Task) (id : string) :
  mergeMap current unsaved !! id = overlay current unsaved id.
Proof.
  unfold mergeMap, overlay. rewrite !foldl_insert_lookup, lookup_empty.
  destruct (lastByID id unsaved); [reflexivity|].
  destruct (lastByID id current); reflexivity.
Qed.

Lemma mergeMap_key (current unsaved : list Task) (k : string) (x : Task) :
  mergeMap current unsaved !! k = Some x → ID x = k.
Proof.
  rewrite mergeMap_lookup. unfold overlay.
  destruct (lastByID k unsaved) as [p|] eqn:Hp.
  - intros [= <-]. now apply lastByID_Some in Hp.
  - intros Hc. now apply lastByID_Some in Hc.
Qed.

Lemma mergeTasks_spec (current unsaved : list Task) :
  MergedByID current unsaved (mergeTasks current unsaved).
Proof.
  unfold MergedByID, mergeTasks.
  set (m := mergeMap current unsaved).
  pose proof (map_range_perm m) as Hperm.
  split.
  - rewrite Hperm.
    assert (Hk : ID <$> (map_to_list m).*2 = (map_to_list m).*1).
    { rewrite <- list_fmap_compose. apply Forall_fmap_ext_1, Forall_forall.
      intros [k x] Hin. simpl. apply elem_of_map_to_list in Hin.
      now apply mergeMap_key in Hin. }
    rewrite Hk. apply NoDup_fst_map_to_list.
  - intros x. rewrite Hperm. rewrite <- mergeMap_lookup. fold m.
    rewrite list_elem_of_fmap. split.
    + intros ([k y] & -> & Hin). simpl. apply elem_of_map_to_list in Hin.
      pose proof (mergeMap_key _ _ _ _ Hin) as Hk. now rewrite Hk.
    + intros Hx. exists (ID x, x). split; [reflexivity|].
      now apply elem_of_map_to_list.
Qed.

(** What [MergedByID] gives for an ID a pending record has, and for an
    ID only a loaded record has. *)
Lemma MergedByID_pending_wins (current pending merged : list Task)
    (id : string) (p : Task) :
  MergedByID current pending merged → lastByID id pending = Some p →
  p ∈ merged ∧ ∀ x, x ∈ merged → ID x = id → x = p.
Proof.
  intros [_ Hm] Hp. destruct (lastByID_Some _ _ _ Hp) as [Hid _]. split.
  - apply Hm. unfold overlay. now rewrite Hid, Hp.
  - intros x Hx Hxid. apply Hm in Hx. unfold overlay in Hx.
    rewrite Hxid, Hp in Hx. congruence.
Qed.

Lemma MergedByID_current_kept (current pending merged : list Task)
    (id : string) (c : Task) :
  MergedByID current pending merged → lastByID id pending = None →
  lastByID id current = Some c →
  c ∈ merged ∧ ∀ x, x ∈ merged → ID x = id → x = c.
Proof.
  intros [_ Hm] Hp Hc. destruct (lastByID_Some _ _ _ Hc) as [Hid _]. split.
  - apply Hm. unfold overlay. now rewrite Hid, Hp, Hc.
  - intros x Hx Hxid. apply Hm in Hx. unfold overlay in Hx.
    rewrite Hxid, Hp, Hc in Hx. congruence.
Qed.

End Wrapper.

(** ** The flush of the wrapper *)

Section Flush.
Context {St : Type} {store : Storage.t St} {lib : GoLib}.
Import ConcurrentStorage.

(** C1. The flush [saveUnsavedTasks]: with an empty pending buffer it
    changes nothing.  Otherwise it loads the collection of the underlying
    store; when that succeeds it saves the merged collection, which holds
    one record per ID, the pending record (whole) for every ID a pending
    record has and the loaded record for the other IDs, and it empties the
    buffer if and only if that save succeeds; when the load fails it saves
    the pending records alone and empties the buffer whatever the save
    returns. *)
Theorem saveUnsavedTasks_algorithm (cs : t St) :
  let pending := unsavedTasks cs in
  (pending = [] → saveUnsavedTasks cs = cs)
  ∧ (pending ≠ [] →
     ∀ current, Storage.Load (storage cs) = Ok current →
       let merged := mergeTasks current pending in
       MergedByID current pending merged
       ∧ ∀ s' e, Storage.Save (storage cs) merged = (s', e) →
           saveUnsavedTasks cs
           = set_unsavedTasks (match e with None => [] | Some _ => pending end)
                              (set_storage s' cs))
  ∧ (pending ≠ [] →
     ∀ e0, Storage.Load (storage cs) = Err e0 →
       ∀ s' e, Storage.Save (storage cs) pending = (s', e) →
         saveUnsavedTasks cs = set_unsavedTasks [] (set_storage s' cs)).
Proof.
  intros pending. subst pending. unfold saveUnsavedTasks.
  split; [|split].
  - intros ->. reflexivity.
  - intros Hne current HL. split; [apply mergeTasks_spec|].
    intros s' e HS. destruct (unsavedTasks cs) eqn:Hu; [congruence|].
    simpl. rewrite HL, HS.
    destruct e; [|reflexivity].
    unfold set_unsavedTasks, set_storage. simpl. now rewrite Hu.
  - intros Hne e0 HL s' e HS. destruct (unsavedTasks cs) eqn:Hu; [congruence|].
    simpl. rewrite HL, HS. reflexivity.
Qed.

End Flush.

Section FlushWitness.
#[local] Existing Instance demo.lib.

Lemma saveUnsavedTasks_algorithm_witness :
  (* the load succeeds: a is overwritten, b kept, c inserted *)
  ConcurrentStorage.saveUnsavedTasks (lib := demo.lib) demo.pendingMem
  = ConcurrentStorage.mk
      (InMemoryStorage.mk [demo.taskC; demo.storedA'; demo.taskB])
      true true false [] 1
  (* the load fails: the pending record alone is saved, b is lost *)
  ∧ ∃ s', JSONFileStorage.Save (lib := demo.lib)
            (demo.fileStore demo.worldNoRead) [demo.taskA] = (s', None)
          ∧ ConcurrentStorage.saveUnsavedTasks (lib := demo.lib)
              demo.pendingUnreadable
            = ConcurrentStorage.mk s' true true false [] 1.
Proof.
  split.
  - destruct (saveUnsavedTasks_algorithm demo.pendingMem) as (_ & Hmerge & _).
    destruct (Hmerge ltac:(discriminate) [demo.taskA; demo.taskB] eq_refl)
      as [_ Hsave].
    rewrite (Hsave (InMemoryStorage.mk
                      [demo.taskC; demo.storedA'; demo.taskB]) None).
    + reflexivity.
    + vm_compute. reflexivity.
  - destruct (saveUnsavedTasks_algorithm demo.pendingUnreadable)
      as (_ & _ & Hfail).
    eexists. split; [vm_compute; reflexivity|].
    rewrite (Hfail ltac:(discriminate)
               (ErrReadFile "tasks.json"
                  (ErrLib "open tasks.json: permission denied"))
               ltac:(vm_compute; reflexivity) _ None
               ltac:(vm_compute; reflexivity)).
    reflexivity.
Defined.

End FlushWitness.

(** ** Reads and writes through the wrapper *)

Lemma findByID_queueLoop (id : string) (tk : Task) (u : list Task) :
  findByID id (ConcurrentStorage.queueLoop tk u)
  = if String.eqb (ID tk) id then Some tk else findByID id u.
Proof.
  induction u as [|x u IH]; simpl.
  - destruct (String.eqb (ID tk) id); reflexivity.
  - destruct (String.eqb_spec (ID x) (ID tk)) as [E|E]; simpl.
    + rewrite E. destruct (String.eqb (ID tk) id); reflexivity.
    + rewrite IH. destruct (String.eqb_spec (ID x) id) as [E'|E'];
        [|reflexivity].
      destruct (String.eqb_spec (ID tk) id); [congruence|reflexivity].
Qed.

Lemma queueLoop_IDs (tk : Task) (u : list Task) :
  ID <$> ConcurrentStorage.queueLoop tk u
  = match findByID (ID tk) u with
    | Some _ => ID <$> u
    | None => ((ID <$> u) ++ [ID tk])%list
    end.
Proof.
  induction u as [|x u IH]; [reflexivity|].
  cbn [ConcurrentStorage.queueLoop findByID].
  destruct (String.eqb_spec (ID x) (ID tk)) as [E|E].
  - rewrite !fmap_cons. now rewrite E.
  - rewrite !fmap_cons, IH. destruct (findByID (ID tk) u); reflexivity.
Qed.

(** The pending buffer keeps one record per ID. *)
Lemma queueLoop_NoDup (tk : Task) (u : list Task) :
  NoDup (ID <$> u) → NoDup (ID <$> ConcurrentStorage.queueLoop tk u).
Proof.
  intros Hnd. rewrite queueLoop_IDs.
  destruct (findByID (ID tk) u) eqn:Hf; [assumption|].
  apply NoDup_app. split; [assumption|]. split; [|apply NoDup_singleton].
  intros i Hi Hi'. apply list_elem_of_singleton in Hi'. subst i.
  apply list_elem_of_fmap in Hi as (x & Hx & Hin).
  apply (proj1 (findByID_None _ _) Hf x Hin). congruence.
Qed.

Section Reads.
Context {St : Type} {store : Storage.t St} {lib : GoLib}.
Import ConcurrentStorage.

Lemma call_enabled (cs : t St) (op : write) :
  autoSaveEnabled cs = true →
  call cs op = set_unsavedTasks (queueLoop (written op) (unsavedTasks cs)) cs.
Proof.
  intros He. destruct op; simpl; unfold Add, Update, QueueTaskForSave;
    rewrite He; reflexivity.
Qed.

Lemma calls_enabled (ops : list write) (cs : t St) :
  autoSaveEnabled cs = true →
  autoSaveEnabled (foldl call cs ops) = true
  ∧ storage (foldl call cs ops) = storage cs
  ∧ (NoDup (ID <$> unsavedTasks cs) →
     NoDup (ID <$> unsavedTasks (foldl call cs ops)))
  ∧ ∀ id, findByID id (unsavedTasks (foldl call cs ops))
          = match lastByID id (written <$> ops) with
            | Some tk => Some tk
            | None => findByID id (unsavedTasks cs)
            end.
Proof.
  revert cs. induction ops as [|op ops IH]; intros cs He.
  - simpl. repeat split; auto.
  - cbn [foldl]. rewrite fmap_cons. cbn [lastByID].
    rewrite (call_enabled cs op He).
    destruct (IH (set_unsavedTasks (queueLoop (written op) (unsavedTasks cs)) cs) He)
      as (H1 & H2 & H3 & H4).
    split; [assumption|]. split; [assumption|]. split.
    + intros Hnd. apply H3. simpl. now apply queueLoop_NoDup.
    + intros id. rewrite H4.
      destruct (lastByID id (written <$> ops)); [reflexivity|].
      simpl. rewrite findByID_queueLoop.
      destruct (String.eqb (ID (written op)) id); reflexivity.
Qed.

(** C3, amended.  [Load] on the wrapper, enabled or not, reads the
    underlying store and lays the pending buffer over what it has read:
    it returns the error of the underlying load, or the loaded collection
    with one record per ID, the pending one for every ID a pending record
    has.  [GetByID] does not read the store first: it returns the pending
    record of the ID when there is one, also when the store cannot be
    loaded, and asks the underlying store only otherwise, so the pending
    record wins for an ID both have.  With auto-save enabled, after any
    sequence of [Add] and [Update] calls the store is untouched and
    [GetByID] returns for an ID the record of the last call that wrote a
    record carrying that ID, and what it returned before the calls when
    there is no such call; [Load] holds that record and no other of that
    ID.  The [id] argument of [Update] plays no part: after
    [Update(id, task)] with a record that carries another ID, [GetByID] of
    [id] returns what it returned before. *)
Theorem reads_lay_pending_over_store (cs : t St) :
  (∀ e, Storage.Load (storage cs) = Err e → Load cs = Err e)
  ∧ (∀ tasks, Storage.Load (storage cs) = Ok tasks →
       (unsavedTasks cs = [] → Load cs = Ok tasks)
       ∧ (unsavedTasks cs ≠ [] →
          ∃ r, Load cs = Ok r ∧ MergedByID tasks (unsavedTasks cs) r))
  ∧ (∀ id, GetByID cs id
           = match findByID id (unsavedTasks cs) with
             | Some p => Ok p
             | None => Storage.GetByID (storage cs) id
             end)
  ∧ (∀ id p e, findByID id (unsavedTasks cs) = Some p →
       Storage.Load (storage cs) = Err e →
       GetByID cs id = Ok p ∧ Load cs = Err e)
  ∧ (autoSaveEnabled cs = true →
     ∀ ops id,
       GetByID (foldl call cs ops) id
       = match lastByID id (written <$> ops) with
         | Some tk => Ok tk
         | None => GetByID cs id
         end)
  ∧ (autoSaveEnabled cs = true →
     ∀ id tk, ID tk ≠ id →
       GetByID (fst (Update cs id tk)) id = GetByID cs id
       ∧ GetByID (fst (Update cs id tk)) (ID tk) = Ok tk)
  ∧ (autoSaveEnabled cs = true →
     ∀ ops id tk, lastByID id (written <$> ops) = Some tk →
       GetByID (foldl call cs ops) id = Ok tk
       ∧ storage (foldl call cs ops) = storage cs
       ∧ (NoDup (ID <$> unsavedTasks cs) →
          ∀ tasks, Storage.Load (storage cs) = Ok tasks →
            ∃ r, Load (foldl call cs ops) = Ok r
                 ∧ tk ∈ r ∧ ∀ x, x ∈ r → ID x = id → x = tk)).
Proof.
  assert (Hget : ∀ (c : t St) id,
            GetByID c id = match findByID id (unsavedTasks c) with
                           | Some p => Ok p
                           | None => Storage.GetByID (storage c) id
                           end).
  { intros c id. unfold GetByID. destruct (findByID id (unsavedTasks c)); reflexivity. }
  split; [|split; [|split; [|split; [|split; [|split]]]]].
  - intros e He. unfold Load. now rewrite He.
  - intros tasks HL. unfold Load. rewrite HL. split.
    + intros ->. reflexivity.
    + intros Hne. destruct (unsavedTasks cs) eqn:Hu; [congruence|]. simpl.
      eexists. split; [reflexivity | apply mergeTasks_spec].
  - intros id. apply Hget.
  - intros id p e Hp He. split.
    + now rewrite Hget, Hp.
    + unfold Load. now rewrite He.
  - intros He ops id.
    destruct (calls_enabled ops cs He) as (_ & Hst & _ & Hfind).
    rewrite !Hget, Hfind, Hst.
    destruct (lastByID id (written <$> ops)); reflexivity.
  - intros He id tk Hne. rewrite !Hget.
    unfold Update, QueueTaskForSave. rewrite He. simpl.
    rewrite !findByID_queueLoop, String.eqb_refl.
    destruct (String.eqb_spec (ID tk) id); [contradiction|]. split; reflexivity.
  - intros He ops id tk Hlast.
    destruct (calls_enabled ops cs He) as (_ & Hst & Hnd & Hfind).
    split; [|split; [assumption|]].
    + unfold GetByID. now rewrite Hfind, Hlast.
    + intros Hnd0 tasks HL. specialize (Hnd Hnd0).
      assert (Hp : lastByID id (unsavedTasks (foldl call cs ops)) = Some tk).
      { rewrite (lastByID_findByID _ _ Hnd), Hfind. now rewrite Hlast. }
      unfold Load. rewrite Hst, HL.
      destruct (unsavedTasks (foldl call cs ops)) as [|p u] eqn:Hu;
        [discriminate|].
      simpl. eexists. split; [reflexivity|].
      apply (MergedByID_pending_wins tasks (p :: u)); [apply mergeTasks_spec|].
      exact Hp.
Qed.

(** C9. [Save] on the wrapper empties the pending buffer and returns what
    the [Save] of the underlying store returns: when that one fails the
    pending records are gone all the same. *)
Theorem Save_discards_pending_even_on_failure (cs : t St) (tasks : list Task) :
  Save cs tasks
  = (set_storage (fst (Storage.Save (storage cs) tasks)) (set_unsavedTasks [] cs),
     snd (Storage.Save (storage cs) tasks))
  ∧ unsavedTasks (fst (Save cs tasks)) = []
  ∧ (∀ e, snd (Storage.Save (storage cs) tasks) = Some e →
          snd (Save cs tasks) = Some e ∧ unsavedTasks (fst (Save cs tasks)) = []).
Proof.
  unfold Save. simpl. destruct (Storage.Save (storage cs) tasks) as [s' e].
  simpl. repeat split. assumption.
Qed.

(** C10. With auto-save enabled, [Update(id, task)] on the wrapper
    succeeds for every [id] and every record: neither the underlying store
    nor the pending buffer is searched for [id], and the record is not
    validated.  The record is queued under its own ID; [id] is not used,
    and the underlying store is not touched. *)
Theorem Update_enabled_queues_unchecked (cs : t St) (id : string) (tk : Task) :
  autoSaveEnabled cs = true →
  Update cs id tk
  = (set_unsavedTasks (queueLoop tk (unsavedTasks cs)) cs, None)
  ∧ (∀ id', Update cs id' tk = Update cs id tk)
  ∧ GetByID (fst (Update cs id tk)) (ID tk) = Ok tk
  ∧ (ID tk ≠ id →
     findByID id (unsavedTasks (fst (Update cs id tk)))
     = findByID id (unsavedTasks cs))
  ∧ storage (fst (Update cs id tk)) = storage cs.
Proof.
  intros He. unfold Update, QueueTaskForSave. rewrite He. simpl.
  split; [reflexivity|]. split; [reflexivity|]. split; [|split; [|reflexivity]].
  - unfold GetByID. simpl. now rewrite findByID_queueLoop, String.eqb_refl.
  - intros Hne. rewrite findByID_queueLoop.
    destruct (String.eqb_spec (ID tk) id); [congruence|reflexivity].
Qed.

(** The flush touches the store and the pending buffer only. *)
Lemma saveUnsavedTasks_flags (cs : t St) :
  autoSaveEnabled (saveUnsavedTasks cs) = autoSaveEnabled cs
  ∧ autoSaveTicker (saveUnsavedTasks cs) = autoSaveTicker cs
  ∧ autoSaveStop (saveUnsavedTasks cs) = autoSaveStop cs
  ∧ workers (saveUnsavedTasks cs) = workers cs.
Proof.
  unfold saveUnsavedTasks.
  destruct (length (unsavedTasks cs) =? 0)%nat; [repeat split|].
  destruct (Storage.Load (storage cs)).
  - destruct (Storage.Save _ _) as [? []]; repeat split.
  - destruct (Storage.Save _ _); repeat split.
Qed.

(** C6, amended.  [EnableAutoSave] on a disabled wrapper sets the flag and
    starts a ticker and a worker; on an enabled wrapper it changes
    nothing.  [DisableAutoSave] on a disabled wrapper changes nothing.  On
    an enabled wrapper whose stop channel is open, [DisableAutoSave]
    clears the flag, stops the ticker and closes the stop channel, and
    leaves the pending buffer and the store as they were; the flush is
    made by the worker, which on the stop signal runs [saveUnsavedTasks]
    once and returns. *)
Theorem autoSave_state_machine (cs : t St) :
  (autoSaveEnabled cs = false →
     EnableAutoSave cs
     = mk (storage cs) true true (autoSaveStop cs) (unsavedTasks cs)
          (S (workers cs)))
  ∧ (autoSaveEnabled cs = true → EnableAutoSave cs = cs)
  ∧ (autoSaveEnabled cs = false → DisableAutoSave cs = Some cs)
  ∧ (autoSaveEnabled cs = true → autoSaveStop cs = false →
     ∃ cs', DisableAutoSave cs = Some cs'
            ∧ cs' = mk (storage cs) false false true (unsavedTasks cs) (workers cs)
            ∧ (0 < workers cs →
               ∃ cs'', autoSaveWorker stop cs' = Some cs''
                       ∧ storage cs'' = storage (saveUnsavedTasks cs')
                       ∧ unsavedTasks cs'' = unsavedTasks (saveUnsavedTasks cs')
                       ∧ autoSaveEnabled cs'' = false
                       ∧ workers cs'' = pred (workers cs))).
Proof.
  unfold EnableAutoSave, DisableAutoSave.
  split; [intros ->; reflexivity|].
  split; [intros ->; reflexivity|].
  split; [intros ->; reflexivity|].
  intros -> ->. simpl. eexists. split; [reflexivity|]. split; [reflexivity|].
  intros Hw. unfold autoSaveWorker. simpl.
  destruct (workers cs) as [|n] eqn:Hn; [lia|].
  eexists. split; [reflexivity|]. simpl.
  split; [reflexivity|]. split; [reflexivity|]. split; [|reflexivity].
  apply saveUnsavedTasks_flags.
Qed.

End Reads.

(** ** The wrapper on concrete states *)

Section WrapperWitnesses.
#[local] Existing Instance demo.lib.
Import ConcurrentStorage.

(** C3, as the claim states it, fails twice.  [GetByID] is not a lookup
    in what [Load] returns: over a store that cannot be read [Load] fails
    and [GetByID] returns the pending record.  And a write is not always
    read back: after [Update(a, task)] with a record that carries the ID
    [zzz], [GetByID] of [a] returns the record of the store. *)
Lemma GetByID_neither_reads_through_nor_reads_every_write :
  ¬ (∀ (cs : t JSONFileStorage.t) (id : string),
       autoSaveEnabled cs = true →
       GetByID cs id
       = match Load cs with
         | Err e => Err e
         | Ok merged =>
             match findByID id merged with
             | Some x => Ok x
             | None => Err (ErrNotFound id)
             end
         end)
  ∧ ¬ (∀ (cs : t InMemoryStorage.t) (id : string) (tk : Task),
       autoSaveEnabled cs = true →
       GetByID (fst (Update cs id tk)) id = Ok tk).
Proof.
  split.
  - intros H. specialize (H demo.pendingUnreadable "a" eq_refl).
    vm_compute in H. discriminate.
  - intros H.
    specialize (H (EnableAutoSave (NewConcurrentStorage demo.memStore)) "a"
                  demo.taskA' eq_refl).
    vm_compute in H. discriminate.
Qed.

Lemma reads_lay_pending_over_store_witness :
  let cs := EnableAutoSave (NewConcurrentStorage demo.memStore) in
  let cs' := foldl call cs [WAdd demo.taskC; WUpdate "a" demo.storedA'] in
  GetByID cs' "a" = Ok demo.storedA'
  ∧ storage cs' = demo.memStore
  ∧ InMemoryStorage.GetByID demo.memStore "a" = Ok demo.taskA
  (* a record carrying the ID zzz, written under a *)
  ∧ GetByID (fst (Update cs "a" demo.taskA')) "a" = Ok demo.taskA
  ∧ GetByID (fst (Update cs "a" demo.taskA')) "zzz" = Ok demo.taskA'
  (* a pending record over a store that cannot be read *)
  ∧ GetByID demo.pendingUnreadable "a" = Ok demo.taskA
  ∧ Load demo.pendingUnreadable
    = Err (ErrReadFile "tasks.json"
             (ErrLib "open tasks.json: permission denied")).
Proof.
  cbv zeta.
  pose proof (reads_lay_pending_over_store
                (EnableAutoSave (NewConcurrentStorage demo.memStore)))
    as (_ & _ & _ & _ & _ & Hupd & Hops).
  pose proof (reads_lay_pending_over_store demo.pendingUnreadable)
    as (_ & _ & _ & Hbad & _).
  destruct (Hops eq_refl [WAdd demo.taskC; WUpdate "a" demo.storedA'] "a"
              demo.storedA' eq_refl) as (Hget & Hst & _).
  destruct (Hupd eq_refl "a" demo.taskA' ltac:(discriminate)) as [Hstale Hown].
  destruct (Hbad "a" demo.taskA
              (ErrReadFile "tasks.json"
                 (ErrLib "open tasks.json: permission denied"))
              eq_refl ltac:(vm_compute; reflexivity)) as [Hp HL].
  split; [exact Hget|]. split; [exact Hst|]. split; [reflexivity|].
  split; [rewrite Hstale; reflexivity|]. split; [exact Hown|].
  split; [exact Hp | exact HL].
Defined.

Lemma Save_discards_pending_even_on_failure_witness :
  unsavedTasks demo.pendingNoRename = [demo.taskC]
  ∧ snd (Save demo.pendingNoRename [demo.taskA; demo.taskB])
    = Some (ErrRenameTemp
              (ErrLib "rename tasks.json.tmp tasks.json: permission denied"))
  ∧ unsavedTasks (fst (Save demo.pendingNoRename [demo.taskA; demo.taskB])) = [].
Proof.
  split; [reflexivity|].
  apply (proj2 (proj2 (Save_discards_pending_even_on_failure
                         demo.pendingNoRename [demo.taskA; demo.taskB]))).
  vm_compute. reflexivity.
Defined.

Lemma Update_enabled_queues_unchecked_witness :
  task.Validate demo.taskBad = Some ErrTitleEmpty
  ∧ InMemoryStorage.GetByID demo.memStore "missing" = Err (ErrNotFound "missing")
  ∧ findByID "missing" (unsavedTasks demo.pendingMem) = None
  ∧ snd (Update demo.pendingMem "missing" demo.taskBad) = None
  ∧ GetByID (fst (Update demo.pendingMem "missing" demo.taskBad)) "ghost"
    = Ok demo.taskBad
  ∧ GetByID (fst (Update demo.pendingMem "missing" demo.taskBad)) "missing"
    = Err (ErrNotFound "missing").
Proof.
  destruct (Update_enabled_queues_unchecked demo.pendingMem "missing"
              demo.taskBad eq_refl) as (Hupd & _ & Hget & _ & _).
  split; [reflexivity|]. split; [reflexivity|]. split; [reflexivity|].
  split; [now rewrite Hupd|]. split; [exact Hget|].
  rewrite Hupd. vm_compute. reflexivity.
Defined.

(** C6, as the claim states it, fails: [DisableAutoSave] makes no flush.
    When it returns, the pending records are still in the buffer and not
    in the store. *)
Lemma DisableAutoSave_makes_no_flush :
  ¬ (∀ cs : t InMemoryStorage.t,
       autoSaveEnabled cs = true →
       ∃ cs', DisableAutoSave cs = Some cs'
              ∧ autoSaveEnabled cs' = false
              ∧ storage cs' = storage (saveUnsavedTasks cs)
              ∧ unsavedTasks cs' = unsavedTasks (saveUnsavedTasks cs)).
Proof.
  intros H. destruct (H demo.pendingMem eq_refl) as (cs' & Hd & _ & _ & Hu).
  injection Hd as <-. vm_compute in Hu. discriminate.
Qed.

Lemma autoSave_state_machine_witness :
  ∃ cs' cs'',
    DisableAutoSave demo.pendingMem = Some cs'
    ∧ autoSaveEnabled cs' = false
    ∧ unsavedTasks cs' = [demo.storedA'; demo.taskC]
    ∧ storage cs' = demo.memStore
    ∧ autoSaveWorker stop cs' = Some cs''
    ∧ unsavedTasks cs'' = []
    ∧ storage cs'' = InMemoryStorage.mk [demo.taskC; demo.storedA'; demo.taskB]
    ∧ workers cs'' = 0.
Proof.
  destruct (proj2 (proj2 (proj2 (autoSave_state_machine demo.pendingMem)))
              eq_refl eq_refl) as (cs' & Hd & -> & Hworker).
  destruct (Hworker ltac:(simpl; lia)) as (cs'' & Hw & Hs & Hu & _ & Hn).
  exists (mk demo.memStore false false true [demo.storedA'; demo.taskC] 1), cs''.
  split; [exact Hd|]. split; [reflexivity|]. split; [reflexivity|].
  split; [reflexivity|]. split; [exact Hw|].
  split; [rewrite Hu; vm_compute; reflexivity|].
  split; [rewrite Hs; vm_compute; reflexivity | exact Hn].
Defined.

(** The stop channel is made once, by [NewConcurrentStorage], and never
    again: the second [DisableAutoSave] of a wrapper closes a closed
    channel, which panics. *)
Example second_DisableAutoSave_panics :
  let cs0 := NewConcurrentStorage demo.memStore in
  ∃ cs1, DisableAutoSave (EnableAutoSave cs0) = Some cs1
         ∧ DisableAutoSave (EnableAutoSave cs1) = None.
Proof. eexists. split; reflexivity. Qed.

End WrapperWitnesses.

(** ** The export pipeline *)

Lemma append_assoc (a b c : string) : (a +:+ b) +:+ c = a +:+ b +:+ c.
Proof.
  induction a as [|x a IH]; [reflexivity|].
  change (String x ((a +:+ b) +:+ c) = String x (a +:+ b +:+ c)).
  now rewrite IH.
Qed.

Lemma append_nil_r (a : string) : a +:+ "" = a.
Proof.
  induction a as [|x a IH]; [reflexivity|].
  change (String x (a +:+ "") = String x a). now rewrite IH.
Qed.

Lemma Mentions_refl (s : string) : Mentions s s.
Proof. exists "", "". rewrite append_nil_r. reflexivity. Qed.

Lemma Mentions_append_l (sub s pre : string) :
  Mentions sub s → Mentions sub (pre +:+ s).
Proof.
  intros (p & q & ->). exists (pre +:+ p), q. now rewrite append_assoc.
Qed.

Lemma Mentions_append_r (sub s post : string) :
  Mentions sub s → Mentions sub (s +:+ post).
Proof.
  intros (p & q & ->). exists p, (q +:+ post). now rewrite !append_assoc.
Qed.

Lemma Mentions_Join (x : string) (l : list string) (sep : string) :
  x ∈ l → Mentions x (Join l sep).
Proof.
  induction l as [|y l IH]; [intros H; inversion H|].
  intros Hin. apply elem_of_cons in Hin as [->|Hin].
  - destruct l as [|z l]; [apply Mentions_refl|].
    change (Join (y :: z :: l) sep) with (y +:+ sep +:+ Join (z :: l) sep).
    apply Mentions_append_r, Mentions_refl.
  - destruct l as [|z l]; [inversion Hin|].
    change (Join (y :: z :: l) sep) with (y +:+ sep +:+ Join (z :: l) sep).
    apply Mentions_append_l, Mentions_append_l, IH, Hin.
Qed.

Lemma filename_inj (base f g : string) :
  base +:+ "." +:+ f = base +:+ "." +:+ g → f = g.
Proof. intros H. apply String.app_inj in H. now apply String.app_inj in H. Qed.

Section ExportLemmas.
Context {St : Type} {store : Storage.t St} {lib : GoLib}.
Import ExportManager.

Lemma exportOne_attempt (tasks : list Task) (base : string) (w : os.World)
    (errs : list string) (format : string) :
  exportOne tasks base (w, errs) format
  = match attempt w tasks base format with
    | inl data =>
        (os.set_files (<[base +:+ "." +:+ format := data]> (os.files w)) w, errs)
    | inr e => (w, (errs ++ [format +:+ ": " +:+ Error e])%list)
    end.
Proof.
  unfold exportOne, attempt, exportFormat, supported, rendering. simpl.
  destruct (String.eqb (strings_ToLower format) "json").
  { unfold exportJSON, os.WriteFile. simpl.
    destruct (json_MarshalIndent tasks); [|reflexivity].
    destruct (os.writeFault w !! _); reflexivity. }
  destruct (String.eqb (strings_ToLower format) "csv").
  { unfold exportCSV, os.WriteFile. simpl.
    destruct (os.writeFault w !! _); reflexivity. }
  destruct (String.eqb (strings_ToLower format) "markdown"); simpl.
  { unfold exportMarkdown, os.WriteFile.
    destruct (os.writeFault w !! _); reflexivity. }
  destruct (String.eqb (strings_ToLower format) "md"); simpl; [|reflexivity].
  unfold exportMarkdown, os.WriteFile.
  destruct (os.writeFault w !! _); reflexivity.
Qed.

Lemma attempt_set_files (w : os.World) (files : gmap string string)
    (tasks : list Task) (base format : string) :
  attempt (os.set_files files w) tasks base format = attempt w tasks base format.
Proof. reflexivity. Qed.

Lemma exports_fold (tasks : list Task) (base : string) (order : list string)
    (w : os.World) (errs : list string) :
  ∃ files',
    foldl (exportOne tasks base) (w, errs) order
    = (os.set_files files' w, (errs ++ reports w tasks base order)%list)
    ∧ (∀ name,
         (∀ f, f ∈ order → base +:+ "." +:+ f = name →
               ∃ e, attempt w tasks base f = inr e) →
         files' !! name = os.files w !! name)
    ∧ (∀ f data, f ∈ order → attempt w tasks base f = inl data →
                 files' !! (base +:+ "." +:+ f) = Some data).
Proof.
  revert w errs. induction order as [|g order IH]; intros w errs.
  - exists (os.files w). simpl. rewrite app_nil_r. destruct w. repeat split.
    intros f data Hin. inversion Hin.
  - cbn [foldl]. rewrite exportOne_attempt.
    destruct (attempt w tasks base g) as [data|e] eqn:Hg.
    + destruct (IH (os.set_files (<[base +:+ "." +:+ g := data]> (os.files w)) w) errs)
        as (files' & Hfold & Hother & Hwritten).
      exists files'. split; [|split].
      * rewrite Hfold. unfold reports. cbn [omap list_omap]. rewrite Hg. reflexivity.
      * intros name Hname. rewrite Hother.
        -- simpl. apply lookup_insert_ne. intros Heq.
           destruct (Hname g (list_elem_of_here _ _) Heq) as [e He]. congruence.
        -- intros f Hf Hfn. apply Hname; [now apply list_elem_of_further|assumption].
      * intros f d Hf Hd. apply elem_of_cons in Hf.
        destruct (decide (f ∈ order)) as [Hin|Hnin].
        { now apply Hwritten. }
        destruct Hf as [->|Hf]; [|contradiction].
        rewrite Hother.
        -- simpl. rewrite lookup_insert_eq. congruence.
        -- intros f Hf Hfn. apply filename_inj in Hfn. congruence.
    + destruct (IH w (errs ++ [g +:+ ": " +:+ Error e])%list) as (files' & Hfold & Hother & Hwritten).
      exists files'. split; [|split].
      * rewrite Hfold. unfold reports. cbn [omap list_omap]. rewrite Hg.
        now rewrite <- app_assoc.
      * intros name Hname. apply Hother.
        intros f Hf Hfn. apply Hname; [now apply list_elem_of_further|assumption].
      * intros f d Hf Hd. apply elem_of_cons in Hf as [->|Hf]; [congruence|].
        now apply Hwritten.
Qed.

End ExportLemmas.

Section ExportClaims.
Context {St : Type} {store : Storage.t St} {lib : GoLib}.
Import ExportManager.

Lemma ConcurrentExport_result (em : St) (w : os.World) (tasks : list Task)
    (formats order : list string) (base : string) :
  Storage.Load em = Ok tasks → formats ≠ [] →
  ∃ files',
    ConcurrentExport em w order formats base
    = (os.set_files files' w,
       match reports w tasks base order with
       | [] => None
       | errors => Some (ErrExport errors)
       end)
    ∧ (∀ name,
         (∀ f, f ∈ order → base +:+ "." +:+ f = name →
               ∃ e, attempt w tasks base f = inr e) →
         files' !! name = os.files w !! name)
    ∧ (∀ f data, f ∈ order → attempt w tasks base f = inl data →
                 files' !! (base +:+ "." +:+ f) = Some data).
Proof.
  intros HL Hne. unfold ConcurrentExport. rewrite HL.
  destruct formats as [|f0 formats]; [congruence|]. simpl.
  destruct (exports_fold tasks base order w []) as (files' & Hfold & H1 & H2).
  exists files'. rewrite Hfold. simpl.
  split; [|split; assumption].
  destruct (reports w tasks base order); reflexivity.
Qed.

Lemma attempt_unsupported (w : os.World) (tasks : list Task) (base f : string) :
  supported (strings_ToLower f) = false →
  attempt w tasks base f = inr (ErrUnsupportedFormat f).
Proof. intros H. unfold attempt. now rewrite H. Qed.

Lemma attempt_supported (w : os.World) (tasks : list Task) (base f data : string) :
  supported (strings_ToLower f) = true →
  rendering (os.Now w) tasks (strings_ToLower f) = Ok data →
  os.writeFault w !! (base +:+ "." +:+ f) = None →
  attempt w tasks base f = inl data.
Proof. intros H1 H2 H3. unfold attempt. now rewrite H1, H2, H3. Qed.

Lemma reports_unsupported (w : os.World) (tasks : list Task) (base f : string)
    (order : list string) :
  f ∈ order → supported (strings_ToLower f) = false →
  (f +:+ ": unsupported format: " +:+ f) ∈ reports w tasks base order.
Proof.
  intros Hin Hu. unfold reports. apply list_elem_of_omap. exists f.
  split; [assumption|]. now rewrite (attempt_unsupported _ _ _ _ Hu).
Qed.

(** A row of the CSV document field by field, and the document line by
    line: the header, then one row for each record. *)
Lemma csvRow_fields (tk : Task) :
  csvRow tk
  = Join [ID tk;
          ReplaceAll_comma (Title tk);
          ReplaceAll_comma (Description tk);
          Priority_String (priority tk);
          (if Completed tk then "true" else "false");
          (if IsZero (DueDate tk) then ""
           else time_Format (DueDate tk) "2006-01-02 15:04");
          time_Format (CreatedAt tk) "2006-01-02 15:04";
          time_Format (UpdatedAt tk) "2006-01-02 15:04"] "," +:+ nl.
Proof.
  unfold csvRow, fmt_bool. cbn [Join].
  destruct (IsZero (DueDate tk)); simpl negb; cbv iota;
    rewrite ?append_assoc; reflexivity.
Qed.

Lemma csvDocument_lines (tasks : list Task) :
  csvDocument tasks
  = Join ["ID"; "Title"; "Description"; "Priority"; "Completed"; "Due Date";
          "Created"; "Updated"] "," +:+ nl
    +:+ concat_strings
          ((λ tk, Join [ID tk;
                        ReplaceAll_comma (Title tk);
                        ReplaceAll_comma (Description tk);
                        Priority_String (priority tk);
                        (if Completed tk then "true" else "false");
                        (if IsZero (DueDate tk) then ""
                         else time_Format (DueDate tk) "2006-01-02 15:04");
                        time_Format (CreatedAt tk) "2006-01-02 15:04";
                        time_Format (UpdatedAt tk) "2006-01-02 15:04"] ","
                  +:+ nl) <$> tasks).
Proof.
  unfold csvDocument.
  rewrite (list_fmap_ext csvRow _ tasks (λ _ tk _, csvRow_fields tk)).
  reflexivity.
Qed.

(** C2.  [ConcurrentExport], for every order in which the export
    goroutines run.  An unsupported format name is an error of its own
    goroutine: its text is one of the texts joined in the error returned,
    which therefore mentions the name, and no file is written for it.
    Every supported format of the list is exported all the same: when its
    content can be rendered and its file written, the file holds the
    rendering; for json that is the document the encoder makes of the
    collection, and for csv the header line followed by one line for each
    record, in their order, of the eight fields ID, title, description,
    priority name, completion, due date, creation and update time, the
    commas of title and description replaced.  For the formats json, csv
    and bogus over a collection of two records, [base.json] holds the JSON
    document, [base.csv] these three lines, [base.bogus] is not written,
    and the error returned is
    [export errors: bogus: unsupported format: bogus]. *)
Theorem ConcurrentExport_collects_format_errors (em : St) (w : os.World)
    (tasks : list Task) (formats order : list string) (base : string) :
  Storage.Load em = Ok tasks →
  order ≡ₚ formats →
  let line (fields : list string) := Join fields "," +:+ nl in
  let header :=
    line ["ID"; "Title"; "Description"; "Priority"; "Completed"; "Due Date";
          "Created"; "Updated"] in
  let row (tk : Task) :=
    line [ID tk;
          ReplaceAll_comma (Title tk);
          ReplaceAll_comma (Description tk);
          Priority_String (priority tk);
          (if Completed tk then "true" else "false");
          (if IsZero (DueDate tk) then ""
           else time_Format (DueDate tk) "2006-01-02 15:04");
          time_Format (CreatedAt tk) "2006-01-02 15:04";
          time_Format (UpdatedAt tk) "2006-01-02 15:04"] in
  ∃ w' err,
    ConcurrentExport em w order formats base = (w', err)
    ∧ (∀ f, f ∈ formats → supported (strings_ToLower f) = false →
         ∃ errors,
           err = Some (ErrExport errors)
           ∧ (f +:+ ": unsupported format: " +:+ f) ∈ errors
           ∧ Mentions f (Error (ErrExport errors))
           ∧ os.files w' !! (base +:+ "." +:+ f)
             = os.files w !! (base +:+ "." +:+ f))
    ∧ (∀ f data, f ∈ formats → supported (strings_ToLower f) = true →
         rendering (os.Now w) tasks (strings_ToLower f) = Ok data →
         os.writeFault w !! (base +:+ "." +:+ f) = None →
         os.files w' !! (base +:+ "." +:+ f) = Some data)
    ∧ (∀ f doc, f ∈ formats → strings_ToLower f = "json" →
         json_MarshalIndent tasks = Ok doc →
         os.writeFault w !! (base +:+ "." +:+ f) = None →
         os.files w' !! (base +:+ "." +:+ f) = Some doc)
    ∧ (∀ f, f ∈ formats → strings_ToLower f = "csv" →
         os.writeFault w !! (base +:+ "." +:+ f) = None →
         os.files w' !! (base +:+ "." +:+ f)
         = Some (header +:+ concat_strings (row <$> tasks)))
    ∧ (∀ t1 t2 doc,
         formats = ["json"; "csv"; "bogus"] → tasks = [t1; t2] →
         json_MarshalIndent [t1; t2] = Ok doc →
         os.writeFault w !! (base +:+ ".json") = None →
         os.writeFault w !! (base +:+ ".csv") = None →
         err = Some (ErrExport ["bogus: unsupported format: bogus"])
         ∧ Error (ErrExport ["bogus: unsupported format: bogus"])
           = "export errors: bogus: unsupported format: bogus"
         ∧ os.files w' !! (base +:+ ".json") = Some doc
         ∧ os.files w' !! (base +:+ ".csv")
           = Some (header +:+ row t1 +:+ row t2)
         ∧ os.files w' !! (base +:+ ".bogus") = os.files w !! (base +:+ ".bogus")).
Proof.
  intros HL Hperm line header row.
  destruct formats as [|f0 formats'] eqn:Hformats.
  { (* no format: nothing to show about the formats *)
    eexists _, _. split; [reflexivity|].
    split; [intros f Hf; inversion Hf|].
    split; [intros f d Hf; inversion Hf|].
    split; [intros f d Hf; inversion Hf|].
    split; [intros f Hf; inversion Hf|]. intros; discriminate. }
  rewrite <- Hformats in *.
  assert (Hne : formats ≠ []) by (rewrite Hformats; discriminate).
  destruct (ConcurrentExport_result em w tasks formats order base HL Hne)
    as (files' & Hres & Hother & Hwritten).
  assert (Hunsup : ∀ f, f ∈ formats → supported (strings_ToLower f) = false →
            files' !! (base +:+ "." +:+ f) = os.files w !! (base +:+ "." +:+ f)).
  { intros f Hf Hu. apply Hother. intros g Hg Hgn.
    apply filename_inj in Hgn. subst g. eexists.
    now apply attempt_unsupported. }
  assert (Hsup : ∀ f data, f ∈ formats → supported (strings_ToLower f) = true →
            rendering (os.Now w) tasks (strings_ToLower f) = Ok data →
            os.writeFault w !! (base +:+ "." +:+ f) = None →
            files' !! (base +:+ "." +:+ f) = Some data).
  { intros f data Hf H1 H2 H3. apply Hwritten.
    - now rewrite Hperm.
    - now apply attempt_supported. }
  assert (Hjson : ∀ f doc, f ∈ formats → strings_ToLower f = "json" →
            json_MarshalIndent tasks = Ok doc →
            os.writeFault w !! (base +:+ "." +:+ f) = None →
            files' !! (base +:+ "." +:+ f) = Some doc).
  { intros f doc Hf Hl Hdoc Hw. apply (Hsup f doc Hf); rewrite ?Hl; try assumption.
    - reflexivity.
    - unfold rendering. simpl. now rewrite Hdoc. }
  assert (Hcsv : ∀ f, f ∈ formats → strings_ToLower f = "csv" →
            os.writeFault w !! (base +:+ "." +:+ f) = None →
            files' !! (base +:+ "." +:+ f)
            = Some (header +:+ concat_strings (row <$> tasks))).
  { intros f Hf Hl Hw.
    rewrite (Hsup f (csvDocument tasks) Hf); rewrite ?Hl; try assumption;
      try reflexivity.
    rewrite csvDocument_lines. subst header row line. simpl.
    now rewrite !append_assoc. }
  eexists _, _. split; [exact Hres|]. simpl.
  split; [|split; [exact Hsup|split; [exact Hjson|split; [exact Hcsv|]]]].
  - intros f Hf Hu.
    assert (Hin : (f +:+ ": unsupported format: " +:+ f)
                  ∈ reports w tasks base order).
    { apply reports_unsupported; [now rewrite Hperm | assumption]. }
    destruct (reports w tasks base order) as [|r rs] eqn:Hr; [inversion Hin|].
    exists (r :: rs). split; [reflexivity|]. split; [assumption|].
    split; [|now apply Hunsup].
    apply (Mentions_append_l _ _ "export errors: ").
    apply (Mentions_Join _ _ "; ") in Hin.
    destruct Hin as (pre & post & ->).
    exists pre, (": unsupported format: " +:+ f +:+ post).
    now rewrite !append_assoc.
  - intros t1 t2 doc Hfs Hts Hdoc Hwj Hwc.
    assert (Lj : strings_ToLower "json" = "json")
      by (rewrite strings_ToLower_ascii; reflexivity).
    assert (Lc : strings_ToLower "csv" = "csv")
      by (rewrite strings_ToLower_ascii; reflexivity).
    assert (Lb : strings_ToLower "bogus" = "bogus")
      by (rewrite strings_ToLower_ascii; reflexivity).
    assert (Ij : "json" ∈ formats) by (rewrite Hfs; apply list_elem_of_here).
    assert (Ic : "csv" ∈ formats)
      by (rewrite Hfs; apply list_elem_of_further, list_elem_of_here).
    assert (Ib : "bogus" ∈ formats)
      by (rewrite Hfs; do 2 apply list_elem_of_further; apply list_elem_of_here).
    assert (Aj : attempt w tasks base "json" = inl doc).
    { apply attempt_supported; rewrite ?Lj; try assumption; [reflexivity|].
      unfold rendering. simpl. now rewrite Hts, Hdoc. }
    assert (Ac : attempt w tasks base "csv" = inl (csvDocument tasks)).
    { apply attempt_supported; rewrite ?Lc; try assumption; reflexivity. }
    assert (Ab : attempt w tasks base "bogus" = inr (ErrUnsupportedFormat "bogus")).
    { apply attempt_unsupported. rewrite Lb. reflexivity. }
    assert (Hrep : reports w tasks base order
                   = ["bogus: unsupported format: bogus"]).
    { apply Permutation_singleton_r. unfold reports.
      rewrite (omap_Permutation _ _ _ Hperm), Hfs. cbn [omap list_omap].
      now rewrite Aj, Ac, Ab. }
    rewrite Hrep. split; [reflexivity|]. split; [reflexivity|].
    split; [|split].
    + apply (Hjson "json" doc Ij Lj); [now rewrite Hts | assumption].
    + etransitivity; [apply (Hcsv "csv" Ic Lc Hwc)|].
      rewrite Hts. simpl. now rewrite append_nil_r.
    + apply (Hunsup "bogus" Ib). rewrite Lb. reflexivity.
Qed.

End ExportClaims.

Section ExportWitness.
#[local] Existing Instance demo.lib.
Import ExportManager.

Lemma ConcurrentExport_collects_format_errors_witness :
  ∃ w',
    ConcurrentExport demo.memStore demo.emptyWorld ["bogus"; "csv"; "json"]
      ["json"; "csv"; "bogus"] "base"
    = (w', Some (ErrExport ["bogus: unsupported format: bogus"]))
    ∧ os.files w' !! "base.json" = Some "[A,B]"
    ∧ os.files w' !! "base.csv"
      = Some ("ID,Title,Description,Priority,Completed,Due Date,Created,Updated"
              +:+ nl
              +:+ "a,Write report,first draft; with figures,High,false,,100,200"
              +:+ nl
              +:+ "b,Buy milk,,Low,true,500,110,120" +:+ nl)
    ∧ os.files w' !! "base.bogus" = None.
Proof.
  destruct (ConcurrentExport_collects_format_errors (store := InMemoryStorage.storage)
              demo.memStore demo.emptyWorld
              [demo.taskA; demo.taskB] ["json"; "csv"; "bogus"]
              ["bogus"; "csv"; "json"] "base" eq_refl)
    as (w' & err & Hres & _ & _ & _ & _ & Hspec).
  { (* the order is a permutation of the formats *)
    change (["bogus"; "csv"; "json"] ≡ₚ ["json"; "csv"; "bogus"]).
    etransitivity; [apply Permutation_swap|].
    etransitivity; [apply Permutation_skip, Permutation_swap|].
    etransitivity; [apply Permutation_swap|]. reflexivity. }
  destruct (Hspec demo.taskA demo.taskB "[A,B]" eq_refl eq_refl eq_refl eq_refl eq_refl)
    as (-> & _ & Hj & Hc & Hb).
  exists w'. split; [exact Hres|]. split; [exact Hj|]. split; [|exact Hb].
  etransitivity; [exact Hc|]. vm_compute. reflexivity.
Defined.

End ExportWitness.

(** * Further properties of the stores *)

(** ** More on the loops *)

Lemma findByID_app (id : string) (l k : list Task) :
  findByID id (l ++ k)
  = match findByID id l with Some x => Some x | None => findByID id k end.
Proof.
  induction l as [|x l IH]; [reflexivity|]. simpl.
  destruct (String.eqb (ID x) id); [reflexivity | exact IH].
Qed.

Lemma findByID_In_Some (id : string) (l : list Task) (x : Task) :
  x ∈ l → ID x = id → ∃ y, findByID id l = Some y.
Proof.
  intros Hin Hid. destruct (findByID id l) as [y|] eqn:Hf; [eauto|].
  exfalso. exact (proj1 (findByID_None id l) Hf x Hin Hid).
Qed.

Lemma deleteLoop_None (id : string) (l : list Task) :
  deleteLoop id l = None ↔ findByID id l = None.
Proof.
  induction l as [|x l IH]; simpl; [split; reflexivity|].
  destruct (String.eqb (ID x) id); [split; discriminate|].
  destruct (deleteLoop id l); simpl.
  - split; [discriminate|]. intros Hn. apply IH in Hn. discriminate.
  - split; [|reflexivity]. intros _. now apply IH.
Qed.

(** [deleteLoop] takes out the first record of the ID and nothing else. *)
Lemma deleteLoop_Some (id : string) (l l' : list Task) :
  deleteLoop id l = Some l' →
  ∃ l1 x l2, l = (l1 ++ x :: l2)%list ∧ l' = (l1 ++ l2)%list
             ∧ ID x = id ∧ findByID id l = Some x ∧ findByID id l1 = None.
Proof.
  revert l'. induction l as [|y l IH]; simpl; intros l'; [discriminate|].
  destruct (String.eqb_spec (ID y) id) as [E|E].
  - intros [= <-]. exists [], y, l. repeat split. assumption.
  - destruct (deleteLoop id l) as [l0|]; simpl; [|discriminate].
    intros [= <-]. destruct (IH l0 eq_refl) as (l1 & x & l2 & -> & -> & Hx & Hf & H1).
    exists (y :: l1), x, l2. simpl.
    destruct (String.eqb_spec (ID y) id); [congruence|]. repeat split; assumption.
Qed.

Lemma deleteLoop_other (id id' : string) (l l' : list Task) :
  deleteLoop id l = Some l' → id' ≠ id → findByID id' l' = findByID id' l.
Proof.
  intros Hd Hne.
  destruct (deleteLoop_Some _ _ _ Hd) as (l1 & x & l2 & -> & -> & Hx & _ & _).
  rewrite !findByID_app. simpl.
  destruct (String.eqb_spec (ID x) id') as [E|E]; [congruence|reflexivity].
Qed.

Lemma deleteLoop_length (id : string) (l l' : list Task) :
  deleteLoop id l = Some l' → length l = S (length l').
Proof.
  intros Hd.
  destruct (deleteLoop_Some _ _ _ Hd) as (l1 & x & l2 & -> & -> & _).
  rewrite !length_app. simpl. lia.
Qed.

Lemma deleteLoop_IDs (id : string) (l l' : list Task) :
  deleteLoop id l = Some l' → NoDup (ID <$> l) →
  NoDup (ID <$> l') ∧ findByID id l' = None.
Proof.
  intros Hd Hnd.
  destruct (deleteLoop_Some _ _ _ Hd) as (l1 & x & l2 & -> & -> & Hx & _ & H1).
  rewrite fmap_app, fmap_cons in Hnd.
  apply NoDup_app in Hnd as (Hn1 & Hdisj & Hn2).
  apply NoDup_cons in Hn2 as [Hx2 Hn2].
  split.
  - rewrite fmap_app. apply NoDup_app. repeat split; [assumption| |assumption].
    intros i Hi Hi'. apply (Hdisj i Hi). now apply list_elem_of_further.
  - rewrite findByID_app, H1. apply findByID_None. intros y Hy Hyid.
    apply Hx2. apply list_elem_of_fmap. exists y. split; [congruence|assumption].
Qed.



Lemma Validate_storedBy (id : string) (old tk : Task) :
  task.Validate (storedBy id old tk) = task.Validate tk.
Proof. reflexivity. Qed.


(** ** The file store: what a call leaves in the world *)

Lemma append_length (a b : string) :
  String.length (a +:+ b) = String.length a + String.length b.
Proof.
  induction a as [|c a IH]; [reflexivity|].
  change (S (String.length (a +:+ b)) = S (String.length a + String.length b)).
  now rewrite IH.
Qed.

Lemma tempFile_ne (path : string) : path +:+ ".tmp" ≠ path.
Proof.
  intros H. apply (f_equal String.length) in H. rewrite append_length in H.
  simpl in H. lia.
Qed.

Section FileWorld.
Context {lib : GoLib}.
Import JSONFileStorage.

(** [Load] reads the file of the store and nothing else. *)
Lemma Load_ext (s s' : t) :
  filePath s' = filePath s →
  os.files (world s') !! filePath s = os.files (world s) !! filePath s →
  os.readFault (world s') = os.readFault (world s) →
  Load s' = Load s.
Proof.
  intros Hp Hf Hr. unfold Load, os.Stat_IsNotExist, os.ReadFile.
  now rewrite Hp, Hf, Hr.
Qed.

(** What [Save] does to the world, whatever it returns. *)
Lemma Save_world (s s' : t) (ts : list Task) (e : option error) :
  Save s ts = (s', e) →
  filePath s' = filePath s
  ∧ os.readFault (world s') = os.readFault (world s)
  ∧ os.writeFault (world s') = os.writeFault (world s)
  ∧ os.renameFault (world s') = os.renameFault (world s)
  ∧ os.mkdirFault (world s') = os.mkdirFault (world s)
  ∧ os.clock (world s') = os.clock (world s)
  ∧ (∀ p, p ≠ filePath s → p ≠ filePath s +:+ ".tmp" →
          os.files (world s') !! p = os.files (world s) !! p)
  ∧ match e with
    | None =>
        ∃ data, json_MarshalIndent ts = Ok data
                ∧ os.files (world s') !! filePath s = Some data
                ∧ os.files (world s') !! (filePath s +:+ ".tmp") = None
    | Some err =>
        os.files (world s') !! filePath s = os.files (world s) !! filePath s
        ∧ (∀ c, err = ErrRenameTemp c →
                os.files (world s') !! (filePath s +:+ ".tmp") = None)
    end.
Proof.
  pose proof (tempFile_ne (filePath s)) as Hne.
  unfold Save. destruct (os.MkdirAll _ _).
  { intros [= <- <-]. repeat split; congruence. }
  destruct (json_MarshalIndent ts) as [data|e0].
  2:{ intros [= <- <-]. repeat split; congruence. }
  unfold os.WriteFile. destruct (os.writeFault _ !! _) eqn:Hw.
  { intros [= <- <-]. simpl. repeat split; congruence. }
  unfold os.Rename. simpl. destruct (os.renameFault _ !! _) eqn:Hr.
  - intros [= <- <-]. simpl. repeat split.
    + intros p Hp Hp'. rewrite lookup_delete_ne by congruence.
      now rewrite lookup_insert_ne by congruence.
    + rewrite lookup_delete_ne by congruence.
      now rewrite lookup_insert_ne by congruence.
    + intros c _. apply lookup_delete_eq.
  - rewrite lookup_insert_eq. intros [= <- <-]. simpl. repeat split.
    + intros p Hp Hp'. rewrite lookup_insert_ne by congruence.
      rewrite lookup_delete_ne by congruence.
      now rewrite lookup_insert_ne by congruence.
    + exists data. split; [reflexivity|]. split; [apply lookup_insert_eq|].
      rewrite lookup_insert_ne by congruence. apply lookup_delete_eq.
Qed.


(** A [Save] that succeeds is read back by [Load] when the codec returns
    what it was given and the file can be read. *)
Lemma Save_ok_Load (s s' : t) (ts : list Task) :
  Save s ts = (s', None) → RoundTrips ts →
  os.readFault (world s) !! filePath s = None →
  Load s' = Ok ts.
Proof.
  intros Hs Hrt Hr.
  destruct (Save_ok s s' ts Hs) as (data & Hj & Hp & Hf & Hrf).
  destruct (Hrt data Hj) as [Hne Hu].
  apply (Load_after s' ts data); rewrite ?Hp, ?Hrf; assumption.
Qed.

End FileWorld.

(** ** Add, Delete and Update on the two stores *)

Section StoreContracts.
Context {lib : GoLib}.





(** X2. [Delete] on both stores: an ID no stored record has is refused
    with the not-found error and the store is left as it was.  An ID a
    stored record has, wherever that record stands, is accepted: the first
    record of the ID is taken out and the others stay, in their order.
    The in-memory store then holds that collection; the file store saves
    it, so that [Delete] succeeds when the collection can be encoded and
    no system call fails, and [Load] reads it back when the codec returns
    what it was given.  After a successful [Delete] the collection is one
    record shorter and every other ID gives the record it gave before;
    when the IDs were unique the ID is not found any more (on the file
    store, again, when the codec returns what it was given). *)
Theorem Delete_removes_exactly_one_record (id : string) :
  (∀ s : InMemoryStorage.t,
     ((∀ x, x ∈ InMemoryStorage.tasks s → ID x ≠ id) →
      InMemoryStorage.Delete s id = (s, Some (ErrNotFound id)))
     ∧ (∀ l1 x l2,
          InMemoryStorage.tasks s = (l1 ++ x :: l2)%list →
          (∀ y, y ∈ l1 → ID y ≠ id) → ID x = id →
          InMemoryStorage.Delete s id = (InMemoryStorage.mk (l1 ++ l2), None))
     ∧ (∀ s', InMemoryStorage.Delete s id = (s', None) →
          (∃ x, InMemoryStorage.GetByID s id = Ok x)
          ∧ length (InMemoryStorage.tasks s) = S (length (InMemoryStorage.tasks s'))
          ∧ (∀ id', id' ≠ id →
               InMemoryStorage.GetByID s' id' = InMemoryStorage.GetByID s id')
          ∧ (NoDup (ID <$> InMemoryStorage.tasks s) →
             InMemoryStorage.GetByID s' id = Err (ErrNotFound id))))
  ∧ (∀ (s : JSONFileStorage.t) (tasks : list Task),
       JSONFileStorage.Load s = Ok tasks →
       ((∀ x, x ∈ tasks → ID x ≠ id) →
        JSONFileStorage.Delete s id = (s, Some (ErrNotFound id)))
       ∧ (∀ l1 x l2,
            tasks = (l1 ++ x :: l2)%list →
            (∀ y, y ∈ l1 → ID y ≠ id) → ID x = id →
            let path := JSONFileStorage.filePath s in
            let w := JSONFileStorage.world s in
            JSONFileStorage.Delete s id = JSONFileStorage.Save s (l1 ++ l2)
            ∧ ∀ data,
                json_MarshalIndent (l1 ++ l2)%list = Ok data →
                os.mkdirFault w !! filepath_Dir path = None →
                os.writeFault w !! (path +:+ ".tmp") = None →
                os.renameFault w !! path = None →
                ∃ s', JSONFileStorage.Delete s id = (s', None)
                      ∧ os.files (JSONFileStorage.world s') !! path = Some data
                      ∧ (RoundTrips (l1 ++ l2)%list →
                         JSONFileStorage.Load s' = Ok (l1 ++ l2)%list))
       ∧ (∀ s', JSONFileStorage.Delete s id = (s', None) →
            ∃ tasks',
              deleteLoop id tasks = Some tasks'
              ∧ length tasks = S (length tasks')
              ∧ (RoundTrips tasks' →
                 JSONFileStorage.Load s' = Ok tasks'
                 ∧ (∀ id', id' ≠ id →
                      JSONFileStorage.GetByID s' id' = JSONFileStorage.GetByID s id')
                 ∧ (NoDup (ID <$> tasks) →
                    JSONFileStorage.GetByID s' id = Err (ErrNotFound id))))).
Proof.
  split.
  - intros s. split; [|split].
    + intros Hno. apply findByID_None, deleteLoop_None in Hno.
      unfold InMemoryStorage.Delete. now rewrite Hno.
    + intros l1 x l2 Hl Hl1 Hx. unfold InMemoryStorage.Delete.
      now rewrite Hl, (deleteLoop_first id l1 l2 x Hl1 Hx).
    + intros s'. unfold InMemoryStorage.Delete.
      destruct (deleteLoop id (InMemoryStorage.tasks s)) as [l'|] eqn:Hd;
        [|discriminate].
      intros [= <-]. simpl. unfold InMemoryStorage.GetByID. simpl.
      destruct (deleteLoop_Some _ _ _ Hd) as (_ & x & _ & _ & _ & _ & Hx & _).
      split; [exists x; now rewrite Hx|].
      split; [now apply (deleteLoop_length id)|]. split.
      * intros id' Hne. now rewrite (deleteLoop_other _ _ _ _ Hd Hne).
      * intros Hnd. destruct (deleteLoop_IDs _ _ _ Hd Hnd) as [_ ->]. reflexivity.
  - intros s tasks HL. split; [|split].
    + intros Hno. apply findByID_None, deleteLoop_None in Hno.
      unfold JSONFileStorage.Delete. now rewrite HL, Hno.
    + intros l1 x l2 -> Hl1 Hx path w.
      assert (Hdel : JSONFileStorage.Delete s id
                     = JSONFileStorage.Save s (l1 ++ l2)).
      { unfold JSONFileStorage.Delete.
        now rewrite HL, (deleteLoop_first id l1 l2 x Hl1 Hx). }
      split; [exact Hdel|]. intros data Hj Hm Hw Hr.
      destruct (Save_succeeds s (l1 ++ l2) data Hm Hj Hw Hr) as [s' Hs].
      exists s'. rewrite Hdel. split; [exact Hs|].
      destruct (Save_ok _ _ _ Hs) as (data' & Hj' & _ & Hf & _).
      rewrite Hj in Hj'. injection Hj' as <-.
      split; [exact Hf|]. intros Hrt.
      apply (Save_ok_Load _ _ _ Hs Hrt).
      apply (Load_nonempty_readable s _ HL). now destruct l1.
    + intros s'. unfold JSONFileStorage.Delete. rewrite HL.
      destruct (deleteLoop id tasks) as [tasks'|] eqn:Hd; [|discriminate].
      intros Hs. exists tasks'. split; [reflexivity|].
      split; [now apply (deleteLoop_length id)|].
      intros Hrt.
      assert (Hr : os.readFault (JSONFileStorage.world s)
                     !! JSONFileStorage.filePath s = None).
      { apply (Load_nonempty_readable s tasks HL). intros ->. discriminate. }
      pose proof (Save_ok_Load _ _ _ Hs Hrt Hr) as HL'.
      split; [assumption|]. unfold JSONFileStorage.GetByID. rewrite HL', HL.
      split.
      * intros id' Hne. now rewrite (deleteLoop_other _ _ _ _ Hd Hne).
      * intros Hnd. destruct (deleteLoop_IDs _ _ _ Hd Hnd) as [_ ->]. reflexivity.
Qed.


(** X4. The file is replaced whole or not at all.  When [Save], [Add],
    [Update] or [Delete] on the file store returns an error, the file of
    the store holds what it held and [Load] returns what it returned; a
    [Save] whose rename fails leaves no temporary file; and [Save]
    changes no file but the file of the store and its temporary file. *)
Theorem file_store_failure_changes_nothing (s : JSONFileStorage.t) :
  let path := JSONFileStorage.filePath s in
  let kept (s' : JSONFileStorage.t) :=
    JSONFileStorage.filePath s' = path
    ∧ os.files (JSONFileStorage.world s') !! path
      = os.files (JSONFileStorage.world s) !! path
    ∧ JSONFileStorage.Load s' = JSONFileStorage.Load s in
  (∀ ts s' e, JSONFileStorage.Save s ts = (s', Some e) → kept s')
  ∧ (∀ tk s' e, JSONFileStorage.Add s tk = (s', Some e) → kept s')
  ∧ (∀ id tk s' e, JSONFileStorage.Update s id tk = (s', Some e) → kept s')
  ∧ (∀ id s' e, JSONFileStorage.Delete s id = (s', Some e) → kept s')
  ∧ (∀ ts s' c, JSONFileStorage.Save s ts = (s', Some (ErrRenameTemp c)) →
       os.files (JSONFileStorage.world s') !! (path +:+ ".tmp") = None)
  ∧ (∀ ts s' e p, JSONFileStorage.Save s ts = (s', e) →
       p ≠ path → p ≠ path +:+ ".tmp" →
       os.files (JSONFileStorage.world s') !! p
       = os.files (JSONFileStorage.world s) !! p).
Proof.
  intros path kept. subst path.
  assert (HS : ∀ ts s' e, JSONFileStorage.Save s ts = (s', Some e) → kept s').
  { intros ts s' e Hs.
    destruct (Save_world _ _ _ _ Hs) as (Hp & Hr & _ & _ & _ & _ & _ & Hf & _).
    split; [assumption|]. split; [assumption|]. now apply Load_ext. }
  assert (Hsame : kept s) by (repeat split).
  split; [exact HS|]. split; [|split; [|split; [|split]]].
  - intros tk s' e. unfold JSONFileStorage.Add.
    destruct (JSONFileStorage.Load s); [|intros [= <- _]; exact Hsame].
    destruct (task.Validate tk); [intros [= <- _]; exact Hsame|].
    destruct (findByID _ _); [intros [= <- _]; exact Hsame|]. apply HS.
  - intros id tk s' e. unfold JSONFileStorage.Update.
    destruct (JSONFileStorage.Load s); [|intros [= <- _]; exact Hsame].
    destruct (task.Validate tk); [intros [= <- _]; exact Hsame|].
    destruct (updateLoop _ _ _); [apply HS | intros [= <- _]; exact Hsame].
  - intros id s' e. unfold JSONFileStorage.Delete.
    destruct (JSONFileStorage.Load s); [|intros [= <- _]; exact Hsame].
    destruct (deleteLoop _ _); [apply HS | intros [= <- _]; exact Hsame].
  - intros ts s' c Hs.
    destruct (Save_world _ _ _ _ Hs) as (_ & _ & _ & _ & _ & _ & _ & _ & Ht).
    now apply (Ht c).
  - intros ts s' e p Hs Hp Hp'.
    destruct (Save_world _ _ _ _ Hs) as (_ & _ & _ & _ & _ & _ & Hfr & _).
    now apply Hfr.
Qed.



End StoreContracts.

(** * Further properties of the wrapper *)

Lemma findByID_MergedByID (current pending merged : list Task) (id : string) :
  MergedByID current pending merged →
  findByID id merged = overlay current pending id.
Proof.
  intros [_ Hm]. destruct (overlay current pending id) as [x|] eqn:Ho.
  - assert (Hid : ID x = id).
    { unfold overlay in Ho. destruct (lastByID id pending) eqn:Hp.
      - injection Ho as ->. now apply lastByID_Some in Hp.
      - now apply lastByID_Some in Ho. }
    assert (Hx : x ∈ merged) by (apply Hm; now rewrite Hid).
    destruct (findByID_In_Some _ _ _ Hx Hid) as [y Hy]. rewrite Hy.
    destruct (findByID_Some _ _ _ Hy) as [Hyid Hyin].
    apply Hm in Hyin. rewrite Hyid, Ho in Hyin. congruence.
  - apply findByID_None. intros x Hx Hid. apply Hm in Hx.
    rewrite Hid, Ho in Hx. discriminate.
Qed.


Section WrapperMore.
Context {St : Type} {store : Storage.t St} {lib : GoLib}.
Import ConcurrentStorage.



(** X8. A wrapper whose auto-save is disabled and whose buffer is empty
    is transparent: any sequence of calls gets from it the replies the
    wrapped store gives, leaves the wrapped store in the state the same
    calls on it alone lead to, and leaves the wrapper disabled and its
    buffer empty. *)
Theorem disabled_wrapper_is_transparent (rs : list request) (cs : t St) :
  autoSaveEnabled cs = false → unsavedTasks cs = [] →
  snd (serveAll cs rs) = snd (serveAll (storage cs) rs)
  ∧ storage (fst (serveAll cs rs)) = fst (serveAll (storage cs) rs)
  ∧ autoSaveEnabled (fst (serveAll cs rs)) = false
  ∧ unsavedTasks (fst (serveAll cs rs)) = [].
Proof.
  revert cs. induction rs as [|r rs IH]; intros cs He Hu; [repeat split; assumption|].
  assert (Hstep : snd (serve cs r) = snd (serve (storage cs) r)
                  ∧ storage (fst (serve cs r)) = fst (serve (storage cs) r)
                  ∧ autoSaveEnabled (fst (serve cs r)) = false
                  ∧ unsavedTasks (fst (serve cs r)) = []).
  { destruct r; simpl.
    - unfold Load. rewrite Hu. simpl.
      destruct (Storage.Load (storage cs)); repeat split; assumption.
    - unfold Save. simpl. destruct (Storage.Save (storage cs) tasks).
      repeat split; assumption.
    - unfold Add. rewrite He. destruct (Storage.Add (storage cs) tk).
      repeat split; assumption.
    - unfold Update. rewrite He. destruct (Storage.Update (storage cs) id tk).
      repeat split; assumption.
    - unfold Delete. rewrite He. destruct (Storage.Delete (storage cs) id).
      repeat split; assumption.
    - unfold GetByID. rewrite Hu. repeat split; assumption. }
  destruct Hstep as (H1 & H2 & H3 & H4).
  cbn [serveAll].
  destruct (serve cs r) as [cs1 p] eqn:Hc.
  destruct (serve (storage cs) r) as [s1 p'] eqn:Hs. simpl in H1, H2, H3, H4.
  destruct (IH cs1 H3 H4) as (I1 & I2 & I3 & I4). rewrite H2 in I1, I2.
  destruct (serveAll cs1 rs) as [cs2 ps]. destruct (serveAll s1 rs) as [s2 ps'].
  simpl in I1, I2, I3, I4. simpl.
  split; [congruence|]. split; [assumption|]. split; assumption.
Qed.

(** With auto-save enabled, [Delete] returns what the
    [Delete] of the wrapped store returns, and takes the first pending
    record of the ID out of the buffer whatever that is. *)
Lemma Delete_enabled (cs : t St) (id : string) :
  autoSaveEnabled cs = true →
  snd (Delete cs id) = snd (Storage.Delete (storage cs) id)
  ∧ storage (fst (Delete cs id)) = fst (Storage.Delete (storage cs) id)
  ∧ unsavedTasks (fst (Delete cs id))
    = match deleteLoop id (unsavedTasks cs) with
      | Some u => u
      | None => unsavedTasks cs
      end.
Proof.
  intros He. unfold Delete. rewrite He.
  destruct (deleteLoop id (unsavedTasks cs)); simpl;
    destruct (Storage.Delete (storage cs) id); repeat split.
Qed.

End WrapperMore.

Section WrapperOverMemory.
Context {lib : GoLib}.
Import ConcurrentStorage.

(** X9. With auto-save enabled, [Delete] of a record that is pending
    only (the wrapped in-memory store has no record of the ID) takes the
    record out of the buffer and returns the not-found error of the
    store: the record [GetByID] returned before the call is gone after
    it, and the call reports a failure. *)
Theorem Delete_of_a_pending_only_record (cs : t InMemoryStorage.t)
    (id : string) (p : Task) :
  autoSaveEnabled cs = true →
  NoDup (ID <$> unsavedTasks cs) →
  findByID id (unsavedTasks cs) = Some p →
  (∀ x, x ∈ InMemoryStorage.tasks (storage cs) → ID x ≠ id) →
  GetByID cs id = Ok p
  ∧ snd (Delete cs id) = Some (ErrNotFound id)
  ∧ storage (fst (Delete cs id)) = storage cs
  ∧ GetByID (fst (Delete cs id)) id = Err (ErrNotFound id)
  ∧ ∀ id', id' ≠ id → GetByID (fst (Delete cs id)) id' = GetByID cs id'.
Proof.
  intros He Hnd Hp Hno.
  destruct (Delete_enabled cs id He) as (H1 & H2 & H3).
  assert (Hs : Storage.Delete (storage cs) id = (storage cs, Some (ErrNotFound id))).
  { simpl. unfold InMemoryStorage.Delete.
    apply findByID_None, deleteLoop_None in Hno. now rewrite Hno. }
  rewrite Hs in H1, H2. simpl in H1, H2.
  destruct (deleteLoop id (unsavedTasks cs)) as [u|] eqn:Hd.
  2:{ apply deleteLoop_None in Hd. congruence. }
  split; [unfold GetByID; now rewrite Hp|].
  split; [assumption|]. split; [assumption|].
  unfold GetByID. rewrite H2, H3. split.
  - destruct (deleteLoop_IDs _ _ _ Hd Hnd) as [_ ->]. simpl.
    unfold InMemoryStorage.GetByID. apply findByID_None in Hno. now rewrite Hno.
  - intros id' Hne. now rewrite (deleteLoop_other _ _ _ _ Hd Hne).
Qed.

(** X10. Over the in-memory store a flush is not seen by a reader: with
    one record per ID in the buffer and in the store, [GetByID] on the
    wrapper returns after the flush what it returned before, for every
    ID.  After the flush the buffer is empty, the store itself returns
    that record, and the store still has one record per ID. *)
Theorem flush_is_invisible_to_GetByID (cs : t InMemoryStorage.t) :
  NoDup (ID <$> unsavedTasks cs) →
  NoDup (ID <$> InMemoryStorage.tasks (storage cs)) →
  unsavedTasks (saveUnsavedTasks cs) = []
  ∧ NoDup (ID <$> InMemoryStorage.tasks (storage (saveUnsavedTasks cs)))
  ∧ ∀ id, GetByID (saveUnsavedTasks cs) id = GetByID cs id
          ∧ InMemoryStorage.GetByID (storage (saveUnsavedTasks cs)) id
            = GetByID cs id.
Proof.
  intros Hp Hs.
  destruct (unsavedTasks cs) as [|p u] eqn:Hu.
  - unfold saveUnsavedTasks. rewrite Hu. simpl. rewrite Hu.
    split; [reflexivity|]. split; [assumption|].
    intros id. unfold GetByID. rewrite Hu. simpl. split; reflexivity.
  - assert (Hflush : saveUnsavedTasks cs
              = set_unsavedTasks []
                  (set_storage
                     (InMemoryStorage.mk
                        (mergeTasks (InMemoryStorage.tasks (storage cs)) (p :: u)))
                     cs)).
    { unfold saveUnsavedTasks. rewrite Hu. reflexivity. }
    rewrite Hflush. clear Hflush.
    pose proof (mergeTasks_spec (InMemoryStorage.tasks (storage cs)) (p :: u))
      as Hm.
    remember (p :: u) as pend eqn:Hpend.
    split; [reflexivity|]. split; [apply Hm|].
    intros id. unfold GetByID, InMemoryStorage.GetByID.
    cbn [unsavedTasks storage set_unsavedTasks set_storage findByID
         Storage.GetByID InMemoryStorage.storage InMemoryStorage.tasks].
    unfold InMemoryStorage.GetByID. cbn [InMemoryStorage.tasks].
    rewrite Hu, (findByID_MergedByID _ _ _ id Hm). unfold overlay.
    rewrite (lastByID_findByID id _ Hp), (lastByID_findByID id _ Hs).
    destruct (findByID id pend); split; reflexivity.
Qed.


End WrapperOverMemory.

(** * Further properties of the export pipeline *)

Lemma countByte_append (c : ascii) (a b : string) :
  countByte c (a +:+ b) = countByte c a + countByte c b.
Proof.
  induction a as [|x a IH]; [reflexivity|].
  change (countByte c (String x (a +:+ b))
          = countByte c (String x a) + countByte c b).
  simpl. rewrite IH. lia.
Qed.

Lemma ReplaceAll_comma_no_comma (s : string) :
  countByte ","%char (ExportManager.ReplaceAll_comma s) = 0.
Proof.
  unfold ExportManager.ReplaceAll_comma.
  induction s as [|x s IH]; [reflexivity|]. simpl. rewrite IH.
  destruct (Ascii.eqb_spec x ","%char) as [->|Hne]; [reflexivity|].
  destruct (Ascii.eqb_spec x ","%char); [contradiction|reflexivity].
Qed.

Lemma ReplaceAll_comma_length (s : string) :
  String.length (ExportManager.ReplaceAll_comma s) = String.length s.
Proof.
  unfold ExportManager.ReplaceAll_comma.
  induction s as [|x s IH]; [reflexivity|]. simpl. now rewrite IH.
Qed.

Lemma ReplaceAll_comma_id (s : string) :
  countByte ","%char s = 0 → ExportManager.ReplaceAll_comma s = s.
Proof.
  unfold ExportManager.ReplaceAll_comma.
  induction s as [|x s IH]; [reflexivity|]. simpl.
  destruct (Ascii.eqb x ","%char); [discriminate|].
  intros H. now rewrite (IH H).
Qed.

Lemma ReplaceAll_comma_get (s : string) (n : nat) :
  String.get n (ExportManager.ReplaceAll_comma s)
  = match String.get n s with
    | Some c => Some (if Ascii.eqb c ","%char then ";"%char else c)
    | None => None
    end.
Proof.
  unfold ExportManager.ReplaceAll_comma.
  revert n. induction s as [|x s IH]; intros n; [reflexivity|].
  destruct n as [|n]; simpl; [reflexivity | apply IH].
Qed.

Lemma ReplaceAll_comma_semicolons (s : string) :
  countByte ";"%char (ExportManager.ReplaceAll_comma s)
  = countByte ";"%char s + countByte ","%char s.
Proof.
  unfold ExportManager.ReplaceAll_comma.
  induction s as [|x s IH]; [reflexivity|]. simpl. rewrite IH.
  destruct (Ascii.eqb_spec x ","%char) as [->|Hne]; [simpl; lia|].
  destruct (Ascii.eqb x ";"%char); simpl; lia.
Qed.

Section ExportMore.
Context {St : Type} {store : Storage.t St} {lib : GoLib}.
Import ExportManager.

(** X12. The commas of a CSV row.  In the title and the description every
    comma is written as a semicolon and every other byte as it is, at its
    place: the text written has the length of the original, no comma, and
    as many semicolons more as the original had commas.  A row is its
    eight fields joined by commas and a newline, so its commas are the
    seven separators and those of the ID and of the three time columns,
    which are written as they are; the header line has seven. *)
Theorem csvRow_commas (tk : Task) :
  let commas := countByte ","%char in
  let dueDate :=
    if negb (IsZero (DueDate tk)) then time_Format (DueDate tk) "2006-01-02 15:04"
    else "" in
  (∀ (s : string) (n : nat),
     String.get n (ReplaceAll_comma s)
     = match String.get n s with
       | Some c => Some (if Ascii.eqb c ","%char then ";"%char else c)
       | None => None
       end)
  ∧ (∀ s, countByte ";"%char (ReplaceAll_comma s)
          = countByte ";"%char s + commas s)
  ∧ commas (ReplaceAll_comma (Title tk)) = 0
  ∧ commas (ReplaceAll_comma (Description tk)) = 0
  ∧ String.length (ReplaceAll_comma (Title tk)) = String.length (Title tk)
  ∧ (commas (Title tk) = 0 → ReplaceAll_comma (Title tk) = Title tk)
  ∧ csvRow tk
    = Join [ID tk;
            ReplaceAll_comma (Title tk);
            ReplaceAll_comma (Description tk);
            Priority_String (priority tk);
            (if Completed tk then "true" else "false");
            dueDate;
            time_Format (CreatedAt tk) "2006-01-02 15:04";
            time_Format (UpdatedAt tk) "2006-01-02 15:04"] "," +:+ nl
  ∧ commas (csvRow tk)
    = 7 + commas (ID tk) + commas dueDate
      + commas (time_Format (CreatedAt tk) "2006-01-02 15:04")
      + commas (time_Format (UpdatedAt tk) "2006-01-02 15:04")
  ∧ commas "ID,Title,Description,Priority,Completed,Due Date,Created,Updated" = 7.
Proof.
  intros commas dueDate. subst commas.
  split; [apply ReplaceAll_comma_get|].
  split; [apply ReplaceAll_comma_semicolons|].
  split; [apply ReplaceAll_comma_no_comma|].
  split; [apply ReplaceAll_comma_no_comma|].
  split; [apply ReplaceAll_comma_length|].
  split; [apply ReplaceAll_comma_id|].
  split.
  { rewrite csvRow_fields. subst dueDate.
    destruct (IsZero (DueDate tk)); reflexivity. }
  split; [|reflexivity].
  unfold csvRow. fold dueDate. rewrite !countByte_append.
  rewrite !ReplaceAll_comma_no_comma.
  assert (HP : countByte ","%char (Priority_String (priority tk)) = 0).
  { unfold Priority_String.
    destruct (priority tk =? Low)%Z; [reflexivity|].
    destruct (priority tk =? Medium)%Z; [reflexivity|].
    destruct (priority tk =? High)%Z; reflexivity. }
  assert (HB : countByte ","%char (fmt_bool (Completed tk)) = 0).
  { destruct (Completed tk); reflexivity. }
  rewrite HP, HB.
  change (countByte ","%char ",") with 1. change (countByte ","%char nl) with 0.
  lia.
Qed.

Lemma exportFormat_attempt (w : os.World) (tasks : list Task) (base f : string) :
  exportFormat w tasks f (base +:+ "." +:+ f)
  = match attempt w tasks base f with
    | inl data =>
        (os.set_files (<[base +:+ "." +:+ f := data]> (os.files w)) w, None)
    | inr e => (w, Some e)
    end.
Proof.
  unfold attempt, exportFormat, supported, rendering.
  destruct (String.eqb (strings_ToLower f) "json").
  { unfold exportJSON, os.WriteFile. simpl.
    destruct (json_MarshalIndent tasks); [|reflexivity].
    destruct (os.writeFault w !! _); reflexivity. }
  destruct (String.eqb (strings_ToLower f) "csv").
  { unfold exportCSV, os.WriteFile. simpl.
    destruct (os.writeFault w !! _); reflexivity. }
  destruct (String.eqb (strings_ToLower f) "markdown"); simpl.
  { unfold exportMarkdown, os.WriteFile.
    destruct (os.writeFault w !! _); reflexivity. }
  destruct (String.eqb (strings_ToLower f) "md"); simpl; [|reflexivity].
  unfold exportMarkdown, os.WriteFile.
  destruct (os.writeFault w !! _); reflexivity.
Qed.

Lemma reports_nil (w : os.World) (tasks : list Task) (base : string)
    (order : list string) :
  reports w tasks base order = []
  ↔ ∀ f, f ∈ order → snd (exportFormat w tasks f (base +:+ "." +:+ f)) = None.
Proof.
  unfold reports. induction order as [|g order IH].
  - split; [|reflexivity]. intros _ f Hf. inversion Hf.
  - cbn [omap list_omap]. pose proof (exportFormat_attempt w tasks base g) as Hg.
    destruct (attempt w tasks base g) as [data|e].
    + rewrite IH. split.
      * intros Hall f Hf. apply elem_of_cons in Hf as [->|Hf]; [now rewrite Hg|auto].
      * intros Hall f Hf. apply Hall. now apply list_elem_of_further.
    + split; [discriminate|]. intros Hall.
      specialize (Hall g (list_elem_of_here _ _)). rewrite Hg in Hall. discriminate.
Qed.

(** X13. [ConcurrentExport] at its edges.  With no format it returns its
    no-formats error without loading or writing anything; when the load
    fails it returns the load error and writes nothing.  It never changes
    a file that is not [base.f] for a format [f] of the run, nor the rest
    of the world.  After a successful load it returns no error exactly
    when every goroutine returns none, for every order of the
    goroutines. *)
Theorem ConcurrentExport_edges_and_frame (em : St) (w : os.World)
    (formats order : list string) (base : string) :
  let run := ConcurrentExport em w order formats base in
  (formats = [] → run = (w, Some ErrNoFormats))
  ∧ (formats ≠ [] → ∀ e, Storage.Load em = Err e →
       run = (w, Some (ErrLoadTasks e)))
  ∧ os.readFault (fst run) = os.readFault w
  ∧ os.writeFault (fst run) = os.writeFault w
  ∧ os.clock (fst run) = os.clock w
  ∧ (∀ name, (∀ f, f ∈ order → base +:+ "." +:+ f ≠ name) →
       os.files (fst run) !! name = os.files w !! name)
  ∧ (formats ≠ [] → ∀ tasks, Storage.Load em = Ok tasks →
       (snd run = None
        ↔ ∀ f, f ∈ order →
            snd (exportFormat w tasks f (base +:+ "." +:+ f)) = None)).
Proof.
  intros run. subst run.
  destruct formats as [|f0 fs].
  { simpl. repeat split; congruence. }
  destruct (Storage.Load em) as [tasks|e] eqn:HL.
  2:{ unfold ConcurrentExport. rewrite HL. simpl. repeat split; congruence. }
  assert (Hne : f0 :: fs ≠ []) by discriminate.
  destruct (ConcurrentExport_result em w tasks (f0 :: fs) order base HL Hne)
    as (files' & Hres & Hother & _).
  rewrite Hres. simpl.
  split; [discriminate|]. split; [discriminate|].
  split; [reflexivity|]. split; [reflexivity|]. split; [reflexivity|]. split.
  - intros name Hname. apply Hother. intros f Hf Hfn.
    exfalso. exact (Hname f Hf Hfn).
  - intros _ tasks' [= <-]. rewrite <- reports_nil.
    destruct (reports w tasks base order); split; congruence.
Qed.

End ExportMore.

Section TwoPipelines.
Context {St : Type} {store : Storage.t St} {lib : GoLib}.

Lemma exportSwitch_exportFormat (w : os.World) (tasks : list Task)
    (format filename : string) :
  fst (TaskManager.exportSwitch w tasks format filename)
  = fst (ExportManager.exportFormat w tasks format filename)
  ∧ (snd (TaskManager.exportSwitch w tasks format filename) = None
     ↔ snd (ExportManager.exportFormat w tasks format filename) = None).
Proof.
  unfold TaskManager.exportSwitch, ExportManager.exportFormat, TaskManager.inner.
  destruct (String.eqb (strings_ToLower format) "json").
  { destruct (ExportManager.exportJSON w tasks filename) as [w' [e|]]; simpl;
      split; try reflexivity; split; congruence. }
  destruct (String.eqb (strings_ToLower format) "csv").
  { destruct (ExportManager.exportCSV w tasks filename) as [w' [e|]]; simpl;
      split; try reflexivity; split; congruence. }
  destruct (String.eqb (strings_ToLower format) "markdown"
            || String.eqb (strings_ToLower format) "md").
  { destruct (ExportManager.exportMarkdown w tasks filename) as [w' [e|]]; simpl;
      split; try reflexivity; split; congruence. }
  simpl. split; [reflexivity|]. split; discriminate.
Qed.

Lemma exportOne_agree (tasks : list Task) (base : string) (order : list string)
    (acc : TaskManager.collected) (acc' : os.World * list string) :
  TaskManager.cworld acc = fst acc' →
  length (TaskManager.cerrors acc) = length (snd acc') →
  let r := foldl (TaskManager.exportOne tasks base) acc order in
  let r' := foldl (ExportManager.exportOne tasks base) acc' order in
  TaskManager.cworld r = fst r'
  ∧ length (TaskManager.cerrors r) = length (snd r')
  ∧ length (TaskManager.cstdout r) + length (TaskManager.cerrors r)
    = length (TaskManager.cstdout acc) + length (TaskManager.cerrors acc)
      + length order.
Proof.
  revert acc acc'. induction order as [|f order IH]; intros acc acc' Hw He.
  - simpl. repeat split; [assumption|assumption|lia].
  - cbn [foldl].
    assert (Hstep :
      TaskManager.cworld (TaskManager.exportOne tasks base acc f)
      = fst (ExportManager.exportOne tasks base acc' f)
      ∧ length (TaskManager.cerrors (TaskManager.exportOne tasks base acc f))
        = length (snd (ExportManager.exportOne tasks base acc' f))
      ∧ length (TaskManager.cstdout (TaskManager.exportOne tasks base acc f))
        + length (TaskManager.cerrors (TaskManager.exportOne tasks base acc f))
        = S (length (TaskManager.cstdout acc) + length (TaskManager.cerrors acc))).
    { unfold TaskManager.exportOne, ExportManager.exportOne. rewrite Hw.
      destruct (exportSwitch_exportFormat (fst acc') tasks f (base +:+ "." +:+ f))
        as [H1 H2].
      destruct (TaskManager.exportSwitch _ _ _ _) as [w1 e1].
      destruct (ExportManager.exportFormat _ _ _ _) as [w2 e2].
      simpl in H1, H2. subst w2.
      destruct e1 as [e1|], e2 as [e2|]; simpl.
      - rewrite !length_app. simpl. repeat split; lia.
      - destruct H2 as [_ H2]. specialize (H2 eq_refl). discriminate.
      - destruct H2 as [H2 _]. specialize (H2 eq_refl). discriminate.
      - rewrite !length_app. simpl. repeat split; lia. }
    destruct Hstep as (S1 & S2 & S3).
    destruct (IH _ _ S1 S2) as (I1 & I2 & I3).
    split; [exact I1|]. split; [exact I2|]. simpl. lia.
Qed.

(** X14. The export of [TaskManager] and the export of [ExportManager]
    write the same files.  For the same store, world, formats, base name
    and order of the goroutines the two [ConcurrentExport] leave the same
    world and return an error together or not at all, with the same
    number of collected texts; [TaskManager] prints one line for every
    format that did not fail.  [ExportTasks] writes for one format what
    [exportFormat] writes. *)
Theorem both_export_pipelines_agree (tm : St) (w : os.World)
    (formats order : list string) (base : string) :
  let r := TaskManager.ConcurrentExport tm w order formats base in
  let r' := ExportManager.ConcurrentExport tm w order formats base in
  fst (fst r) = fst r'
  ∧ (snd r = None ↔ snd r' = None)
  ∧ (∀ errs errs', snd r = Some (TaskManager.ErrInner (ErrExport errs)) →
       snd r' = Some (ErrExport errs') →
       length errs = length errs'
       ∧ length (snd (fst r)) + length errs = length order)
  ∧ (snd r = None → formats ≠ [] → length (snd (fst r)) = length order)
  ∧ (∀ tasks format filename, Storage.Load tm = Ok tasks →
       fst (TaskManager.ExportTasks tm w format filename)
       = fst (ExportManager.exportFormat w tasks format filename)
       ∧ (snd (TaskManager.ExportTasks tm w format filename) = None
          ↔ snd (ExportManager.exportFormat w tasks format filename) = None)).
Proof.
  intros r r'. subst r r'.
  assert (HE : ∀ tasks format filename, Storage.Load tm = Ok tasks →
       fst (TaskManager.ExportTasks tm w format filename)
       = fst (ExportManager.exportFormat w tasks format filename)
       ∧ (snd (TaskManager.ExportTasks tm w format filename) = None
          ↔ snd (ExportManager.exportFormat w tasks format filename) = None)).
  { intros tasks format filename HL. unfold TaskManager.ExportTasks. rewrite HL.
    apply exportSwitch_exportFormat. }
  unfold TaskManager.ConcurrentExport, ExportManager.ConcurrentExport.
  destruct formats as [|f0 fs].
  { simpl. split; [reflexivity|]. split; [split; discriminate|].
    split; [discriminate|]. split; [congruence | exact HE]. }
  simpl. destruct (Storage.Load tm) as [tasks|e].
  2:{ simpl. split; [reflexivity|]. split; [split; discriminate|].
      split; [discriminate|]. split; [discriminate | exact HE]. }
  destruct (exportOne_agree tasks base order
              (TaskManager.mkCollected w [] []) (w, []) eq_refl eq_refl)
    as (H1 & H2 & H3).
  simpl in H3.
  destruct (foldl (TaskManager.exportOne tasks base) _ order) as [w1 errs1 out1].
  destruct (foldl (ExportManager.exportOne tasks base) _ order) as [w2 errs2].
  simpl in H1, H2, H3. subst w2.
  destruct errs1 as [|x1 errs1], errs2 as [|x2 errs2]; try discriminate; simpl.
  - split; [reflexivity|]. split; [split; reflexivity|].
    split; [discriminate|]. split; [intros _ _; simpl in H3; lia | exact HE].
  - split; [reflexivity|]. split; [split; discriminate|].
    split; [|split; [discriminate | exact HE]].
    intros errs errs' [= <-] [= <-]. simpl in *. lia.
Qed.

End TwoPipelines.

(** * Properties of the task manager *)

Lemma storedBy_same (id : string) (old tk : Task) :
  ID tk = id → CreatedAt tk = CreatedAt old → storedBy id old tk = tk.
Proof. intros Hi Hc. unfold storedBy, set_ID, set_CreatedAt. simpl.
  rewrite <- Hi, <- Hc. now destruct tk. Qed.

Section ManagerRecords.
Context {lib : GoLib}.



(** What a method of the task manager does with the record it has changed:
    it saves the collection with that record in the place of the stored
    one. *)
Lemma file_Update_own_place (tm : JSONFileStorage.t) (l1 l2 : list Task)
    (old tk : Task) :
  JSONFileStorage.Load tm = Ok (l1 ++ old :: l2)%list →
  (∀ x, x ∈ l1 → ID x ≠ ID old) →
  ID tk = ID old → CreatedAt tk = CreatedAt old → task.Validate tk = None →
  let path := JSONFileStorage.filePath tm in
  let w := JSONFileStorage.world tm in
  JSONFileStorage.GetByID tm (ID old) = Ok old
  ∧ JSONFileStorage.Update tm (ID old) tk
    = JSONFileStorage.Save tm (l1 ++ tk :: l2)
  ∧ (∀ s', JSONFileStorage.Save tm (l1 ++ tk :: l2) = (s', None) →
       ∃ data, json_MarshalIndent (l1 ++ tk :: l2)%list = Ok data
               ∧ os.files (JSONFileStorage.world s') !! path = Some data
               ∧ (RoundTrips (l1 ++ tk :: l2)%list →
                  JSONFileStorage.Load s' = Ok (l1 ++ tk :: l2)%list
                  ∧ JSONFileStorage.GetByID s' (ID old) = Ok tk
                  ∧ ∀ id', id' ≠ ID old →
                      JSONFileStorage.GetByID s' id'
                      = JSONFileStorage.GetByID tm id'))
  ∧ (∀ data, json_MarshalIndent (l1 ++ tk :: l2)%list = Ok data →
       os.mkdirFault w !! filepath_Dir path = None →
       os.writeFault w !! (path +:+ ".tmp") = None →
       os.renameFault w !! path = None →
       ∃ s', JSONFileStorage.Save tm (l1 ++ tk :: l2) = (s', None)).
Proof.
  intros HL Hl1 Hid Hc Hv path w.
  assert (Hg : JSONFileStorage.GetByID tm (ID old) = Ok old).
  { unfold JSONFileStorage.GetByID.
    now rewrite HL, (findByID_first (ID old) l1 l2 old Hl1 eq_refl). }
  split; [exact Hg|]. split; [|split].
  - unfold JSONFileStorage.Update. rewrite HL, Hv.
    rewrite (updateLoop_first (ID old) tk l1 l2 old Hl1 eq_refl).
    fold (storedBy (ID old) old tk).
    now rewrite (storedBy_same (ID old) old tk Hid Hc).
  - intros s' Hs. destruct (Save_ok _ _ _ Hs) as (data & Hj & _ & Hf & _).
    exists data. split; [exact Hj|]. split; [exact Hf|]. intros Hrt.
    assert (HL' : JSONFileStorage.Load s' = Ok (l1 ++ tk :: l2)%list).
    { apply (Save_ok_Load _ _ _ Hs Hrt).
      apply (Load_nonempty_readable tm _ HL). now destruct l1. }
    split; [exact HL'|]. unfold JSONFileStorage.GetByID. rewrite HL', HL. split.
    + assert (Hl1' : ∀ x, x ∈ l1 → ID x ≠ ID tk) by (now rewrite Hid).
      rewrite <- Hid. now rewrite (findByID_first (ID tk) l1 l2 tk Hl1' eq_refl).
    + intros id' Hne. rewrite !findByID_app. simpl. rewrite Hid.
      destruct (String.eqb_spec (ID old) id'); [congruence|reflexivity].
  - intros data Hj Hm Hw Hr. exact (Save_succeeds tm _ data Hm Hj Hw Hr).
Qed.

(** X15. [Complete] and [Uncomplete] of the task manager, over the file
    store, for a record that validates.  [Complete] saves the collection
    with the record of the ID changed in two fields and in nothing else:
    the completion flag set and [UpdatedAt] at the clock reading
    ([Uncomplete]: the flag cleared); the other records stay at their
    places.  It succeeds when that collection can be encoded and no system
    call fails.  After a successful call the file holds the encoding of
    that collection, and, when the codec returns the collection it was
    given, the store returns under the ID the changed record and under
    every other ID the record it returned before. *)
Theorem Complete_sets_the_flag_and_the_time_only (tm : JSONFileStorage.t)
    (l1 l2 : list Task) (old : Task) (flag : bool) :
  JSONFileStorage.Load tm = Ok (l1 ++ old :: l2)%list →
  (∀ x, x ∈ l1 → ID x ≠ ID old) →
  task.Validate old = None →
  let path := JSONFileStorage.filePath tm in
  let w := JSONFileStorage.world tm in
  let call := if flag then TaskManager.Complete else TaskManager.Uncomplete in
  let new := mkTask (ID old) (Title old) (Description old) (priority old)
                    (DueDate old) flag (CreatedAt old) (os.Now w) (Tags old) in
  let tasks' := (l1 ++ new :: l2)%list in
  call tm (ID old) = TaskManager.innerS (JSONFileStorage.Save tm tasks')
  ∧ (∀ data, json_MarshalIndent tasks' = Ok data →
       os.mkdirFault w !! filepath_Dir path = None →
       os.writeFault w !! (path +:+ ".tmp") = None →
       os.renameFault w !! path = None →
       ∃ s', call tm (ID old) = (s', None))
  ∧ (∀ s', call tm (ID old) = (s', None) →
       ∃ data, json_MarshalIndent tasks' = Ok data
               ∧ os.files (JSONFileStorage.world s') !! path = Some data
               ∧ (RoundTrips tasks' →
                  JSONFileStorage.Load s' = Ok tasks'
                  ∧ JSONFileStorage.GetByID s' (ID old) = Ok new
                  ∧ ∀ id', id' ≠ ID old →
                      JSONFileStorage.GetByID s' id'
                      = JSONFileStorage.GetByID tm id')).
Proof.
  intros HL Hl1 Hv path w call new tasks'. subst tasks'.
  assert (Hvn : task.Validate new = None) by exact Hv.
  destruct (file_Update_own_place tm l1 l2 old new HL Hl1 eq_refl eq_refl Hvn)
    as (Hg & Hupd & Hsaved & Hok).
  assert (Hcall : call tm (ID old)
                  = TaskManager.innerS
                      (JSONFileStorage.Save tm (l1 ++ new :: l2))).
  { subst call. destruct flag;
      unfold TaskManager.Complete, TaskManager.Uncomplete; rewrite Hg;
      cbv zeta; unfold task.Complete, task.Uncomplete; fold w; fold new;
      now rewrite Hupd. }
  split; [exact Hcall|]. rewrite Hcall. split.
  - intros data Hj Hm Hw Hr. destruct (Hok data Hj Hm Hw Hr) as [s' Hs].
    exists s'. unfold TaskManager.innerS. now rewrite Hs.
  - intros s'. unfold TaskManager.innerS.
    destruct (JSONFileStorage.Save tm (l1 ++ new :: l2)) as [s1 [e|]] eqn:Hs;
      [discriminate|].
    intros [= <-]. exact (Hsaved s1 eq_refl).
Qed.

(** X16. [Update] of the task manager, over the file store.  New fields
    that do not validate are refused with the update error and the store
    is left as it was.  Otherwise it saves the collection with the record
    of the ID changed: the new title, description, priority and due date,
    [UpdatedAt] at the clock reading, and the ID, creation time,
    completion flag and tags it had; the other records stay at their
    places.  It succeeds when that collection can be encoded and no system
    call fails.  After a successful call the file holds the encoding of
    that collection, and, when the codec returns the collection it was
    given, the store returns under the ID the changed record and under
    every other ID the record it returned before. *)
Theorem manager_Update_replaces_four_fields (tm : JSONFileStorage.t)
    (l1 l2 : list Task) (old : Task) (title description : string)
    (p : Priority) (dueDate : Time) :
  JSONFileStorage.Load tm = Ok (l1 ++ old :: l2)%list →
  (∀ x, x ∈ l1 → ID x ≠ ID old) →
  let path := JSONFileStorage.filePath tm in
  let w := JSONFileStorage.world tm in
  let call := TaskManager.Update tm (ID old) title description p dueDate in
  let new := mkTask (ID old) title description p dueDate (Completed old)
                    (CreatedAt old) (os.Now w) (Tags old) in
  let tasks' := (l1 ++ new :: l2)%list in
  (∀ e, task.Validate new = Some e →
        call = (tm, Some (TaskManager.ErrUpdateTask e)))
  ∧ (task.Validate new = None →
     call = TaskManager.innerS (JSONFileStorage.Save tm tasks')
     ∧ ∀ data, json_MarshalIndent tasks' = Ok data →
         os.mkdirFault w !! filepath_Dir path = None →
         os.writeFault w !! (path +:+ ".tmp") = None →
         os.renameFault w !! path = None →
         ∃ s', call = (s', None))
  ∧ (∀ s', call = (s', None) →
       task.Validate new = None
       ∧ ∃ data, json_MarshalIndent tasks' = Ok data
                 ∧ os.files (JSONFileStorage.world s') !! path = Some data
                 ∧ (RoundTrips tasks' →
                    JSONFileStorage.Load s' = Ok tasks'
                    ∧ JSONFileStorage.GetByID s' (ID old) = Ok new
                    ∧ ∀ id', id' ≠ ID old →
                        JSONFileStorage.GetByID s' id'
                        = JSONFileStorage.GetByID tm id')).
Proof.
  intros HL Hl1 path w call new tasks'. subst tasks'.
  assert (Hg : JSONFileStorage.GetByID tm (ID old) = Ok old).
  { unfold JSONFileStorage.GetByID.
    now rewrite HL, (findByID_first (ID old) l1 l2 old Hl1 eq_refl). }
  assert (Hcall : call
                  = match task.Validate new with
                    | Some e => (tm, Some (TaskManager.ErrUpdateTask e))
                    | None => TaskManager.innerS (JSONFileStorage.Update tm (ID old) new)
                    end).
  { subst call. unfold TaskManager.Update, task.Update. rewrite Hg.
    fold w. fold new. destruct (task.Validate new); reflexivity. }
  split; [|split].
  - intros e He. now rewrite Hcall, He.
  - intros Hv.
    destruct (file_Update_own_place tm l1 l2 old new HL Hl1 eq_refl eq_refl Hv)
      as (_ & Hupd & _ & Hok).
    rewrite Hcall, Hv, Hupd. split; [reflexivity|].
    intros data Hj Hm Hw Hr. destruct (Hok data Hj Hm Hw Hr) as [s' Hs].
    exists s'. unfold TaskManager.innerS. now rewrite Hs.
  - intros s'. rewrite Hcall.
    destruct (task.Validate new) eqn:Hv; [discriminate|].
    destruct (file_Update_own_place tm l1 l2 old new HL Hl1 eq_refl eq_refl Hv)
      as (_ & Hupd & Hsaved & _).
    rewrite Hupd. unfold TaskManager.innerS.
    destruct (JSONFileStorage.Save tm (l1 ++ new :: l2)) as [s1 [e|]] eqn:Hs;
      [discriminate|].
    intros [= <-]. split; [reflexivity|]. exact (Hsaved s1 eq_refl).
Qed.


End ManagerRecords.

(** * Properties of the task records *)

Lemma wrap64_id (z : Z) :
  (- 2 ^ 63 <= z < 2 ^ 63)%Z → task.wrap64 z = z.
Proof.
  intros Hz. unfold task.wrap64. rewrite Z.mod_small; lia.
Qed.

Lemma Truncate_same (d t u : Z) :
  (0 < d)%Z →
  (task.Truncate t d = task.Truncate u d ↔ t / d = u / d)%Z.
Proof.
  intros Hd. unfold task.Truncate.
  destruct (Z.leb_spec d 0) as [?|_]; [lia|].
  pose proof (Z.div_mod t d) as Ht. pose proof (Z.div_mod u d) as Hu.
  split; intros H.
  - assert (E : (d * (t / d) = d * (u / d))%Z) by lia.
    apply Z.mul_reg_l in E; lia.
  - assert (E : (d * (t / d) = d * (u / d))%Z) by (now rewrite H). lia.
Qed.

(** X18. The three due-date tests of a task.  A task is overdue when it
    is open, has a due date and the date is before the clock reading; due
    today when it has a due date in the same 24-hour period, counted from
    the zero time, as the clock reading, whether completed or not; due
    soon when it is open and its due date is after the clock reading and
    less than seven times 24 hours after it.  A task with no due date
    passes none of the tests, and an overdue task is not due soon at any
    later clock reading. *)
Theorem due_date_tests (now : Time) (t : Task) :
  let day := (24 * task.Hour)%Z in
  (task.IsOverdue now t = true
   ↔ Completed t = false ∧ DueDate t ≠ 0%Z ∧ (DueDate t < now)%Z)
  ∧ (task.IsDueToday now t = true
     ↔ DueDate t ≠ 0%Z ∧ (now / day = DueDate t / day)%Z)
  ∧ (∀ now2, task.IsDueSoon now now2 t = true
       ↔ Completed t = false ∧ DueDate t ≠ 0%Z
         ∧ (now2 < DueDate t < now + 7 * day)%Z)
  ∧ (DueDate t = 0%Z →
     task.IsOverdue now t = false ∧ task.IsDueToday now t = false
     ∧ ∀ now2, task.IsDueSoon now now2 t = false)
  ∧ (∀ now1 now2, (now <= now2)%Z → task.IsOverdue now t = true →
       task.IsDueSoon now1 now2 t = false)
  ∧ (∀ now', task.IsDueToday now (task.Complete now' t)
             = task.IsDueToday now t).
Proof.
  intros day.
  assert (Hday : (0 < day)%Z) by (subst day; unfold task.Hour; lia).
  assert (Hover : task.IsOverdue now t = true
            ↔ Completed t = false ∧ DueDate t ≠ 0%Z ∧ (DueDate t < now)%Z).
  { unfold task.IsOverdue, IsZero, task.Before.
    destruct (Completed t); simpl; [split; [discriminate|intros [? _]; discriminate]|].
    destruct (Z.eqb_spec (DueDate t) 0); simpl.
    - split; [discriminate|]. intros (_ & ? & _). contradiction.
    - rewrite Z.ltb_lt. tauto. }
  assert (Hsoon : ∀ n1 n2, task.IsDueSoon n1 n2 t = true
            ↔ Completed t = false ∧ DueDate t ≠ 0%Z
              ∧ (n2 < DueDate t < n1 + 7 * day)%Z).
  { intros n1 n2.
    unfold task.IsDueSoon, IsZero, task.Before, After, task.Time_Add.
    destruct (Z.eqb_spec (DueDate t) 0); simpl.
    - split; [discriminate|]. intros (_ & ? & _). contradiction.
    - destruct (Completed t); [split; [discriminate|intros [? _]; discriminate]|].
      rewrite andb_true_iff, !Z.ltb_lt. subst day. split.
      + intros [? ?]. repeat split; try assumption; lia.
      + intros (_ & _ & ? & ?). split; lia. }
  split; [exact Hover|]. split; [|split; [|split; [|split]]].
  - unfold task.IsDueToday, IsZero, task.Equal.
    destruct (Z.eqb_spec (DueDate t) 0).
    + split; [discriminate|]. intros [? _]. contradiction.
    + rewrite Z.eqb_eq. fold day. rewrite (Truncate_same day _ _ Hday). tauto.
  - intros now2. apply Hsoon.
  - intros Hz. unfold task.IsOverdue, task.IsDueToday, task.IsDueSoon, IsZero.
    rewrite Hz. simpl. rewrite andb_false_r. auto.
  - intros now1 now2 Hle Ho. apply Hover in Ho as (_ & _ & Hlt).
    destruct (task.IsDueSoon now1 now2 t) eqn:Hs; [|reflexivity].
    apply Hsoon in Hs as (_ & _ & Hgt & _). lia.
  - intros now'. reflexivity.
Qed.

Lemma generateID_inj (now1 now2 : Time) :
  task.unixRange now1 → task.unixRange now2 →
  task.generateID now1 = task.generateID now2 → now1 = now2.
Proof.
  unfold task.unixRange, task.generateID, task.UnixNano. intros H1 H2 He.
  apply String.app_inj in He. apply (inj pretty) in He.
  rewrite !wrap64_id in He by assumption. lia.
Qed.

(** X19. The ID of a new task is the clock reading of its creation and
    nothing else.  Within the range of [UnixNano] two readings give the
    same ID only when they are the same instant; and of two tasks made at
    one reading, whatever their fields, a store that has taken the first
    refuses the second as already existing. *)
Theorem NewTask_ID_is_the_clock_reading (idNow : Time) :
  (∀ idNow', task.unixRange idNow → task.unixRange idNow' →
     ∀ now now' title title' description description' p p' dueDate dueDate'
       tags tags',
       ID (task.NewTask now idNow title description p dueDate tags)
       = ID (task.NewTask now' idNow' title' description' p' dueDate' tags')
       → idNow = idNow')
  ∧ (∀ (s s1 : InMemoryStorage.t) now now' title title' description description'
       p p' dueDate dueDate' tags tags',
       let t1 := task.NewTask now idNow title description p dueDate tags in
       let t2 := task.NewTask now' idNow title' description' p' dueDate' tags' in
       InMemoryStorage.Add s t1 = (s1, None) →
       task.Validate t2 = None →
       InMemoryStorage.Add s1 t2
       = (s1, Some (ErrAlreadyExists (task.generateID idNow))))
  ∧ (∀ now title description p dueDate tags,
       let t := task.NewTask now idNow title description p dueDate tags in
       Completed t = false ∧ CreatedAt t = now ∧ UpdatedAt t = now
       ∧ (task.Validate t = None
          ↔ title ≠ "" ∧ (String.length title <= 100)%nat
            ∧ (String.length description <= 500)%nat)).
Proof.
  split; [|split].
  - intros idNow' H1 H2 now now' title title' description description' p p'
      dueDate dueDate' tags tags'. simpl. now apply generateID_inj.
  - intros s s1 now now' title title' description description' p p'
      dueDate dueDate' tags tags' t1 t2 Ha Hv.
    unfold InMemoryStorage.Add in Ha.
    destruct (task.Validate t1); [discriminate|].
    destruct (findByID (ID t1) (InMemoryStorage.tasks s)) eqn:Hf; [discriminate|].
    injection Ha as <-.
    unfold InMemoryStorage.Add. rewrite Hv. simpl.
    rewrite findByID_app. change (ID t1) with (task.generateID idNow) in Hf.
    rewrite Hf. simpl. now rewrite String.eqb_refl.
  - intros now title description p dueDate tags t. subst t. simpl.
    split; [reflexivity|]. split; [reflexivity|]. split; [reflexivity|].
    unfold task.Validate. simpl.
    destruct (String.eqb_spec title ""); [split; [discriminate|tauto]|].
    destruct (Nat.ltb_spec 100 (String.length title));
      [split; [discriminate|lia]|].
    destruct (Nat.ltb_spec 500 (String.length description));
      [split; [discriminate|lia]|].
    split; [tauto|reflexivity].
Qed.

(** * Properties of the due-date filter and of the tag lists *)

Section FilterProperties.
Variable Atoi : string → option Z.
Variable AddDate : Time → Z → Z → Z → Time.
Context {lib : GoLib}.

(** X20. A due-date filter that [NewTaskDueFilter] returns without an
    error has one of the three modes that match and a number of days that
    is not negative; "week" gives the filter of the number seven.  With an
    error it returns the zero filter, which matches no date.  The filter
    of "overdue" matches the due date of every overdue task and also, the
    zero time being before any later reading, the missing due date of a
    task that has none, which [IsOverdue] refuses. *)
Theorem NewTaskDueFilter_modes (input : string) :
  let r := filter.NewTaskDueFilter Atoi input in
  (r.2 = None →
   filter.Mode r.1 ≠ filter.ModeInvalid ∧ (0 <= filter.Days r.1)%Z
   ∧ (filter.Mode r.1 = filter.ModeNextNDays ∨ filter.Days r.1 = 0%Z))
  ∧ (r.2 ≠ None →
     r.1 = filter.mkTaskDueFilter filter.ModeInvalid 0
     ∧ ∀ now1 now2 date, filter.Matches AddDate now1 now2 r.1 date = false)
  ∧ (input ≠ "today" → input ≠ "overdue" → input ≠ "week" →
     ∀ days, Atoi input = Some days →
       ((days < 0)%Z → r.2 = Some (filter.ErrNegativeDays days))
       ∧ ((0 <= days)%Z →
          r = (filter.mkTaskDueFilter filter.ModeNextNDays days, None)))
  ∧ (Atoi "7" = Some 7%Z →
     filter.NewTaskDueFilter Atoi "week" = filter.NewTaskDueFilter Atoi "7")
  ∧ (∀ now now2 t,
       let overdue := (filter.NewTaskDueFilter Atoi "overdue").1 in
       (task.IsOverdue now t = true →
        filter.Matches AddDate now now2 overdue (DueDate t) = true)
       ∧ ((0 < now)%Z → DueDate t = 0%Z →
          filter.Matches AddDate now now2 overdue (DueDate t) = true
          ∧ task.IsOverdue now t = false)).
Proof.
  intros r. subst r. unfold filter.NewTaskDueFilter.
  split; [|split; [|split; [|split]]].
  - destruct (String.eqb input "today"); [simpl; intuition (discriminate || lia)|].
    destruct (String.eqb input "overdue"); [simpl; intuition (discriminate || lia)|].
    destruct (String.eqb input "week"); [simpl; intuition (discriminate || lia)|].
    destruct (Atoi input) as [days|]; [|discriminate].
    destruct (Z.ltb_spec days 0); [discriminate|]. simpl.
    intros _. split; [discriminate|]. split; [lia|]. now left.
  - destruct (String.eqb input "today"); [simpl; congruence|].
    destruct (String.eqb input "overdue"); [simpl; congruence|].
    destruct (String.eqb input "week"); [simpl; congruence|].
    destruct (Atoi input) as [days|]; [destruct (Z.ltb_spec days 0)|]; simpl;
      try congruence; intros _; split; reflexivity.
  - intros H1 H2 H3 days Hd.
    destruct (String.eqb_spec input "today"); [contradiction|].
    destruct (String.eqb_spec input "overdue"); [contradiction|].
    destruct (String.eqb_spec input "week"); [contradiction|].
    rewrite Hd. destruct (Z.ltb_spec days 0); split; intros; (reflexivity || lia).
  - intros H7. simpl. now rewrite H7.
  - intros now now2 t. simpl.
    unfold filter.Matches. simpl. split.
    + unfold task.IsOverdue. rewrite !andb_true_iff. tauto.
    + intros Hpos Hz. unfold task.IsOverdue, task.Before, IsZero. rewrite Hz.
      simpl. rewrite andb_false_r. split; [|reflexivity]. now apply Z.ltb_lt.
Qed.

End FilterProperties.

(** ** The order of [sort.Strings] *)

Lemma ascii_compare_Lt_trans (x y z : ascii) :
  Ascii.compare x y = Lt → Ascii.compare y z = Lt → Ascii.compare x z = Lt.
Proof.
  unfold Ascii.compare. rewrite !N.compare_lt_iff. lia.
Qed.

Lemma string_compare_Lt_trans (a b c : string) :
  String.compare a b = Lt → String.compare b c = Lt → String.compare a c = Lt.
Proof.
  revert b c. induction a as [|x a IH]; intros [|y b] [|z c]; simpl;
    try discriminate; try reflexivity.
  destruct (Ascii.compare x y) eqn:Hxy; [|intros _|discriminate].
  - apply Ascii.compare_eq_iff in Hxy as ->.
    destruct (Ascii.compare y z); [apply IH|reflexivity|discriminate].
  - destruct (Ascii.compare y z) eqn:Hyz; [|intros _|discriminate].
    + apply Ascii.compare_eq_iff in Hyz as <-. now rewrite Hxy.
    + now rewrite (ascii_compare_Lt_trans x y z Hxy Hyz).
Qed.

#[global] Instance string_le_trans : Transitive string_le.
Proof.
  intros a b c. unfold string_le, String.leb.
  destruct (String.compare a b) eqn:Hab; [|intros _|discriminate].
  - apply String.compare_eq_iff in Hab as ->. auto.
  - destruct (String.compare b c) eqn:Hbc; [|intros _|discriminate].
    + apply String.compare_eq_iff in Hbc as <-. now rewrite Hab.
    + now rewrite (string_compare_Lt_trans a b c Hab Hbc).
Qed.

#[global] Instance string_le_total : Total string_le.
Proof. intros a b. apply String.leb_total. Qed.

#[global] Instance string_le_antisym : AntiSymm eq string_le.
Proof. intros a b. apply String.leb_antisym. Qed.

Lemma sort_Strings_unique (l k : list string) :
  l ≡ₚ k → sort_Strings l = sort_Strings k.
Proof.
  intros Hp. unfold sort_Strings.
  apply (StronglySorted_unique string_le); try apply StronglySorted_merge_sort;
    try apply _.
  now rewrite !merge_sort_Permutation.
Qed.

Lemma sort_Strings_sorted (l : list string) :
  StronglySorted string_le l → sort_Strings l = l.
Proof.
  intros Hs. unfold sort_Strings.
  apply (StronglySorted_unique string_le); try apply _.
  - apply StronglySorted_merge_sort; apply _.
  - exact Hs.
  - apply merge_sort_Permutation.
Qed.

Lemma tag_set_elem (l : list string) (X : gset string) (x : string) :
  x ∈ foldl (λ (set : gset string) v, {[ v ]} ∪ set) X l ↔ x ∈ l ∨ x ∈ X.
Proof.
  revert X. induction l as [|y l IH]; intros X; simpl.
  - rewrite elem_of_nil. tauto.
  - rewrite IH, elem_of_cons, elem_of_union, elem_of_singleton. tauto.
Qed.

(** X21. [normalizeTags] returns the tags of its input once each and in
    increasing order.  The result does not depend on the order in which
    the loop visits the map, nor on the order or the repetitions of the
    input, and normalizing a second time changes nothing. *)
Theorem normalizeTags_sorted_set (range : gset string → list string)
    (in_ : list string) :
  (∀ X, range X ≡ₚ elements X) →
  let out := normalizeTags range in_ in
  (∀ x, x ∈ out ↔ x ∈ in_)
  ∧ NoDup out
  ∧ StronglySorted string_le out
  ∧ (∀ range', (∀ X, range' X ≡ₚ elements X) → normalizeTags range' in_ = out)
  ∧ (∀ k, (∀ x, x ∈ k ↔ x ∈ in_) → normalizeTags range k = out)
  ∧ normalizeTags range out = out.
Proof.
  intros Hrange out.
  assert (Hperm : ∀ r l, (∀ X, r X ≡ₚ elements X) →
            normalizeTags r l
            ≡ₚ elements (foldl (λ (set : gset string) v, {[ v ]} ∪ set) ∅ l)).
  { intros r l Hr. unfold normalizeTags, sort_Strings.
    now rewrite merge_sort_Permutation, Hr. }
  assert (Hin : ∀ r l, (∀ X, r X ≡ₚ elements X) →
            ∀ x, x ∈ normalizeTags r l ↔ x ∈ l).
  { intros r l Hr x. rewrite (Hperm r l Hr), elem_of_elements, tag_set_elem.
    rewrite elem_of_empty. tauto. }
  assert (Hsorted : ∀ r l, StronglySorted string_le (normalizeTags r l)).
  { intros r l. apply StronglySorted_merge_sort; apply _. }
  assert (Hsame : ∀ r r' l k, (∀ X, r X ≡ₚ elements X) →
            (∀ X, r' X ≡ₚ elements X) → (∀ x, x ∈ k ↔ x ∈ l) →
            normalizeTags r' k = normalizeTags r l).
  { intros r r' l k Hr Hr' Hkl.
    apply (StronglySorted_unique string_le); try apply Hsorted; try apply _.
    rewrite (Hperm r' k Hr'), (Hperm r l Hr).
    assert (E : foldl (λ (set : gset string) v, {[ v ]} ∪ set) ∅ k
                = foldl (λ (set : gset string) v, {[ v ]} ∪ set) ∅ l).
    { apply set_eq. intros x. rewrite !tag_set_elem, Hkl. tauto. }
    now rewrite E. }
  split; [apply Hin, Hrange|]. split; [|split; [apply Hsorted|]].
  - subst out. rewrite (Hperm range in_ Hrange). apply NoDup_elements.
  - split; [|split].
    + intros range' Hr'. apply (Hsame range range' in_ in_ Hrange Hr'). tauto.
    + intros k Hk. apply (Hsame range range in_ k Hrange Hrange Hk).
    + transitivity (normalizeTags range in_); [|reflexivity].
      apply (Hsame range range in_ out Hrange Hrange). apply Hin, Hrange.
Qed.

(** * The properties on the sample data *)

Ltac elems H :=
  repeat (apply elem_of_cons in H as [->|H]; [try discriminate|]);
  try (now inversion H).

Section StoreWitnesses.
#[local] Existing Instance examples.lib.


Lemma Delete_removes_exactly_one_record_witness :
  InMemoryStorage.Delete demo.memStore "nope"
  = (demo.memStore, Some (ErrNotFound "nope"))
  (* the second record is the one of the ID *)
  ∧ InMemoryStorage.Delete demo.memStore "b"
    = (InMemoryStorage.mk [demo.taskA], None)
  ∧ (∃ s', JSONFileStorage.Delete (demo.fileStore demo.world) "b" = (s', None)
           ∧ os.files (JSONFileStorage.world s') !! "tasks.json" = Some "[A]"
           ∧ JSONFileStorage.Load s' = Ok [demo.taskA])
  ∧ ∃ s', JSONFileStorage.Delete (demo.fileStore demo.world) "a" = (s', None)
          ∧ JSONFileStorage.Load s' = Ok [demo.taskB]
          ∧ JSONFileStorage.GetByID s' "b"
            = JSONFileStorage.GetByID (demo.fileStore demo.world) "b"
          ∧ JSONFileStorage.GetByID s' "a" = Err (ErrNotFound "a").
Proof.
  pose proof (Delete_removes_exactly_one_record "nope") as [Hmem _].
  pose proof (Delete_removes_exactly_one_record "b") as [Hmemb Hfileb].
  pose proof (Delete_removes_exactly_one_record "a") as [_ Hfile].
  split; [|split; [|split]].
  - apply (proj1 (Hmem demo.memStore)). intros x Hx. elems Hx.
  - apply (proj1 (proj2 (Hmemb demo.memStore)) [demo.taskA] demo.taskB []);
      [reflexivity | | reflexivity].
    intros y Hy. elems Hy.
  - destruct (proj1 (proj2 (Hfileb (demo.fileStore demo.world)
                              [demo.taskA; demo.taskB] eq_refl))
                [demo.taskA] demo.taskB [] eq_refl) as [_ Hok].
    + intros y Hy. elems Hy.
    + reflexivity.
    + destruct (Hok "[A]" eq_refl eq_refl eq_refl eq_refl)
        as (s' & Hd & Hf & Hrt).
      exists s'. split; [exact Hd|]. split; [exact Hf|].
      apply Hrt, examples_RoundTrips.
  - destruct (JSONFileStorage.Delete (demo.fileStore demo.world) "a")
      as [s' e] eqn:Hd.
    assert (He : e = None) by (vm_compute in Hd; congruence). subst e.
    destruct (proj2 (proj2 (Hfile (demo.fileStore demo.world)
                       [demo.taskA; demo.taskB] eq_refl)) s' Hd)
      as (tasks' & Hloop & _ & Hread).
    injection Hloop as <-.
    destruct (Hread (examples_RoundTrips _)) as (HL & Hother & Hgone).
    exists s'. split; [reflexivity|]. split; [exact HL|]. split.
    + apply Hother. discriminate.
    + apply Hgone. apply (bool_decide_unpack _). vm_compute. reflexivity.
Defined.



Lemma file_store_failure_changes_nothing_witness :
  (* the rename fails: the file is as it was and the temporary file is gone *)
  ∃ s' c,
    JSONFileStorage.Save (demo.fileStore demo.worldNoRename) [demo.taskA]
    = (s', Some (ErrRenameTemp c))
    ∧ JSONFileStorage.Load s' = Ok [demo.taskA; demo.taskB]
    ∧ os.files (JSONFileStorage.world s') !! "tasks.json.tmp" = None.
Proof.
  destruct (file_store_failure_changes_nothing
              (demo.fileStore demo.worldNoRename))
    as (Hsave & _ & _ & _ & Htmp & _).
  destruct (JSONFileStorage.Save (demo.fileStore demo.worldNoRename) [demo.taskA])
    as [s' e] eqn:Hs.
  assert (He : e = Some (ErrRenameTemp
                 (ErrLib "rename tasks.json.tmp tasks.json: permission denied")))
    by (vm_compute in Hs; congruence).
  subst e. eexists s', _. split; [reflexivity|].
  destruct (Hsave _ _ _ Hs) as (_ & _ & HL). split.
  - rewrite HL. reflexivity.
  - exact (Htmp _ _ _ Hs).
Defined.



End StoreWitnesses.

Section WrapperMoreWitnesses.
#[local] Existing Instance examples.lib.

Lemma pending_NoDup : NoDup (ID <$> [demo.storedA'; demo.taskC]).
Proof. apply (bool_decide_unpack _). vm_compute. reflexivity. Qed.


Lemma disabled_wrapper_is_transparent_witness :
  let calls := [RAdd demo.taskC; RUpdate "a" demo.taskA'; RGetByID "a";
                RDelete "b"; RDelete "b"; RLoad] in
  let cs := ConcurrentStorage.NewConcurrentStorage demo.memStore in
  snd (serveAll cs calls) = snd (serveAll demo.memStore calls)
  ∧ ConcurrentStorage.storage (fst (serveAll cs calls))
    = InMemoryStorage.mk [demo.storedA'; demo.taskC].
Proof.
  intros calls cs.
  destruct (disabled_wrapper_is_transparent calls cs eq_refl eq_refl)
    as (Hreplies & Hstore & _).
  split; [exact Hreplies|]. rewrite Hstore. reflexivity.
Defined.

Lemma Delete_of_a_pending_only_record_witness :
  ConcurrentStorage.GetByID demo.pendingMem "c" = Ok demo.taskC
  ∧ snd (ConcurrentStorage.Delete demo.pendingMem "c") = Some (ErrNotFound "c")
  ∧ ConcurrentStorage.GetByID
      (fst (ConcurrentStorage.Delete demo.pendingMem "c")) "c"
    = Err (ErrNotFound "c").
Proof.
  destruct (Delete_of_a_pending_only_record demo.pendingMem "c" demo.taskC)
    as (Hg & He & _ & Hgone & _).
  - reflexivity.
  - exact pending_NoDup.
  - reflexivity.
  - intros x Hx. elems Hx.
  - split; [exact Hg|]. split; [exact He | exact Hgone].
Defined.

Lemma flush_is_invisible_to_GetByID_witness :
  ConcurrentStorage.unsavedTasks
    (ConcurrentStorage.saveUnsavedTasks demo.pendingMem) = []
  ∧ ∀ id,
      ConcurrentStorage.GetByID
        (ConcurrentStorage.saveUnsavedTasks demo.pendingMem) id
      = ConcurrentStorage.GetByID demo.pendingMem id.
Proof.
  destruct (flush_is_invisible_to_GetByID demo.pendingMem pending_NoDup)
    as (Hempty & _ & Hsame).
  - apply (bool_decide_unpack _). vm_compute. reflexivity.
  - split; [exact Hempty|]. intros id. apply Hsame.
Defined.


End WrapperMoreWitnesses.

Section ExportMoreWitnesses.
#[local] Existing Instance examples.lib.

Lemma csvRow_commas_witness :
  (* a title without a comma, a description with one *)
  ExportManager.ReplaceAll_comma (Title demo.taskA) = "Write report"
  ∧ countByte ","%char (Description demo.taskA) = 1%nat
  ∧ String.get 11 (Description demo.taskA) = Some ","%char
  ∧ String.get 11 (ExportManager.ReplaceAll_comma (Description demo.taskA))
    = Some ";"%char
  ∧ String.get 12 (ExportManager.ReplaceAll_comma (Description demo.taskA))
    = String.get 12 (Description demo.taskA)
  ∧ ExportManager.csvRow demo.taskA
    = "a,Write report,first draft; with figures,High,false,,100,200"
      +:+ ExportManager.nl
  ∧ countByte ","%char (ExportManager.csvRow demo.taskA) = 7%nat.
Proof.
  destruct (csvRow_commas demo.taskA)
    as (Hget & _ & _ & _ & _ & Hid & Hfields & Hrow & _).
  split; [apply Hid; reflexivity|]. split; [reflexivity|].
  split; [reflexivity|].
  split; [rewrite Hget; reflexivity|].
  split; [rewrite Hget; reflexivity|].
  split; [rewrite Hfields; reflexivity|].
  rewrite Hrow. reflexivity.
Defined.

Lemma ConcurrentExport_edges_and_frame_witness :
  (* no format, then a store that cannot be read *)
  ExportManager.ConcurrentExport demo.memStore demo.emptyWorld [] [] "base"
  = (demo.emptyWorld, Some ErrNoFormats)
  ∧ ExportManager.ConcurrentExport (demo.fileStore demo.worldNoRead)
      demo.worldNoRead ["json"] ["json"] "base"
    = (demo.worldNoRead,
       Some (ErrLoadTasks
               (ErrReadFile "tasks.json"
                  (ErrLib "open tasks.json: permission denied"))))
  (* the file of the store is not among the exported ones *)
  ∧ os.files (fst (ExportManager.ConcurrentExport (demo.fileStore demo.world)
                     demo.world ["csv"; "json"] ["json"; "csv"] "base"))
      !! "tasks.json"
    = Some "[A,B]".
Proof.
  split; [|split].
  - apply (ConcurrentExport_edges_and_frame (store := InMemoryStorage.storage)
             demo.memStore demo.emptyWorld [] [] "base"). reflexivity.
  - apply (ConcurrentExport_edges_and_frame (store := JSONFileStorage.storage)
             (demo.fileStore demo.worldNoRead) demo.worldNoRead
             ["json"] ["json"] "base"); [discriminate | reflexivity].
  - destruct (ConcurrentExport_edges_and_frame (store := JSONFileStorage.storage)
                (demo.fileStore demo.world) demo.world
                ["json"; "csv"] ["csv"; "json"] "base")
      as (_ & _ & _ & _ & _ & Hframe & _).
    rewrite (Hframe "tasks.json"); [reflexivity|].
    intros f Hf. elems Hf.
Defined.

Lemma both_export_pipelines_agree_witness :
  let r := TaskManager.ConcurrentExport demo.memStore demo.emptyWorld
             ["csv"; "json"] ["json"; "csv"] "base" in
  let r' := ExportManager.ConcurrentExport demo.memStore demo.emptyWorld
              ["csv"; "json"] ["json"; "csv"] "base" in
  snd r' = None
  ∧ fst (fst r) = fst r'
  ∧ snd r = None
  ∧ length (snd (fst r)) = 2%nat.
Proof.
  intros r r'.
  destruct (both_export_pipelines_agree (store := InMemoryStorage.storage)
              demo.memStore demo.emptyWorld ["json"; "csv"] ["csv"; "json"]
              "base")
    as (Hworld & Hiff & _ & Hlines & _).
  assert (Hr' : snd r' = None) by (vm_compute; reflexivity).
  split; [exact Hr'|]. split; [exact Hworld|].
  split; [apply Hiff; exact Hr'|].
  apply Hlines; [apply Hiff; exact Hr' | discriminate].
Defined.

End ExportMoreWitnesses.

Section ManagerWitnesses.
#[local] Existing Instance examples.lib.

Lemma Complete_sets_the_flag_and_the_time_only_witness :
  (* the first record completed, the second reopened *)
  (∃ s', TaskManager.Complete (demo.fileStore demo.world) "a" = (s', None)
         ∧ os.files (JSONFileStorage.world s') !! "tasks.json" = Some "[A+,B]"
         ∧ JSONFileStorage.GetByID s' "a" = Ok examples.taskADone
         ∧ JSONFileStorage.GetByID s' "b" = Ok demo.taskB)
  ∧ ∃ s', TaskManager.Uncomplete (demo.fileStore demo.world) "b" = (s', None)
          ∧ JSONFileStorage.Load s' = Ok [demo.taskA; examples.taskBOpen].
Proof.
  split.
  - destruct (Complete_sets_the_flag_and_the_time_only (lib := examples.lib)
                (demo.fileStore demo.world) [] [demo.taskB] demo.taskA true
                ltac:(vm_compute; reflexivity)
                ltac:(intros x Hx; inversion Hx) eq_refl)
      as (_ & Hok & Hdone).
    destruct (Hok "[A+,B]" ltac:(vm_compute; reflexivity) eq_refl eq_refl eq_refl)
      as [s' Hc].
    destruct (Hdone s' Hc) as (data & Hj & Hf & Hread).
    vm_compute in Hj. injection Hj as <-.
    destruct (Hread (examples_RoundTrips _)) as (_ & Hg & Hother).
    exists s'. split; [exact Hc|]. split; [exact Hf|]. split; [exact Hg|].
    rewrite (Hother "b"); [vm_compute; reflexivity | discriminate].
  - destruct (Complete_sets_the_flag_and_the_time_only (lib := examples.lib)
                (demo.fileStore demo.world) [demo.taskA] [] demo.taskB false
                ltac:(vm_compute; reflexivity)
                ltac:(intros x Hx; elems Hx) eq_refl)
      as (_ & Hok & Hdone).
    destruct (Hok "[A,B-]" ltac:(vm_compute; reflexivity) eq_refl eq_refl eq_refl)
      as [s' Hc].
    destruct (Hdone s' Hc) as (data & _ & _ & Hread).
    destruct (Hread (examples_RoundTrips _)) as (HL & _).
    exists s'. split; [exact Hc | exact HL].
Defined.

Lemma manager_Update_replaces_four_fields_witness :
  (* an empty title, then new fields that validate *)
  TaskManager.Update (demo.fileStore demo.world) "a" "" "" Low 700%Z
  = (demo.fileStore demo.world, Some (TaskManager.ErrUpdateTask ErrTitleEmpty))
  ∧ ∃ s', TaskManager.Update (demo.fileStore demo.world) "a" "Write paper" ""
            Low 700%Z = (s', None)
          ∧ os.files (JSONFileStorage.world s') !! "tasks.json" = Some "[A*,B]"
          ∧ JSONFileStorage.GetByID s' "a" = Ok examples.taskANew
          ∧ JSONFileStorage.GetByID s' "b" = Ok demo.taskB.
Proof.
  split.
  - apply (manager_Update_replaces_four_fields (lib := examples.lib)
             (demo.fileStore demo.world) [] [demo.taskB] demo.taskA
             "" "" Low 700%Z ltac:(vm_compute; reflexivity)
             ltac:(intros x Hx; inversion Hx)).
    reflexivity.
  - destruct (manager_Update_replaces_four_fields (lib := examples.lib)
                (demo.fileStore demo.world) [] [demo.taskB] demo.taskA
                "Write paper" "" Low 700%Z ltac:(vm_compute; reflexivity)
                ltac:(intros x Hx; inversion Hx))
      as (_ & Hok & Hdone).
    destruct (proj2 (Hok eq_refl) "[A*,B]" ltac:(vm_compute; reflexivity)
                eq_refl eq_refl eq_refl) as [s' Hc].
    destruct (Hdone s' Hc) as (_ & data & Hj & Hf & Hread).
    vm_compute in Hj. injection Hj as <-.
    destruct (Hread (examples_RoundTrips _)) as (_ & Hg & Hother).
    exists s'. split; [exact Hc|]. split; [exact Hf|]. split; [exact Hg|].
    rewrite (Hother "b"); [vm_compute; reflexivity | discriminate].
Defined.


End ManagerWitnesses.

Lemma due_date_tests_witness :
  (* due five nanoseconds into the fourth day, read on the fifth day and
     on the fourth; then a record with no due date *)
  task.IsOverdue 345600000000007%Z examples.taskLate = true
  ∧ task.IsDueSoon 345600000000007%Z 345600000000008%Z examples.taskLate = false
  ∧ task.IsDueToday 259200000000009%Z examples.taskLate = true
  ∧ task.IsDueToday 345600000000007%Z demo.taskA = false.
Proof.
  destruct (due_date_tests 345600000000007%Z examples.taskLate)
    as (Hover & _ & _ & _ & Hexcl & _).
  destruct (due_date_tests 259200000000009%Z examples.taskLate)
    as (_ & Htoday & _).
  destruct (due_date_tests 345600000000007%Z demo.taskA)
    as (_ & _ & _ & Hnone & _).
  assert (Ho : task.IsOverdue 345600000000007%Z examples.taskLate = true).
  { apply Hover. split; [reflexivity|]. split; [discriminate|]. simpl. lia. }
  split; [exact Ho|]. split; [|split].
  - apply Hexcl; [lia | exact Ho].
  - apply Htoday. split; [discriminate | reflexivity].
  - apply (Hnone eq_refl).
Defined.

Lemma NewTask_ID_is_the_clock_reading_witness :
  (* two tasks made at the clock reading of the first of January 2024 *)
  let reading := ((62135596800 + 1704067200) * 1000000000)%Z in
  let t1 := task.NewTask reading reading "Pay rent" "" High 0%Z [] in
  let t2 := task.NewTask reading reading "Buy milk" "" Low 0%Z ["home"] in
  ID t1 = "task_1704067200000000000"
  ∧ ∃ s1, InMemoryStorage.Add demo.memStore t1 = (s1, None)
          ∧ InMemoryStorage.Add s1 t2
            = (s1, Some (ErrAlreadyExists "task_1704067200000000000")).
Proof.
  intros reading t1 t2. split; [reflexivity|].
  eexists. split; [reflexivity|].
  destruct (NewTask_ID_is_the_clock_reading reading) as (_ & Hdup & _).
  apply (Hdup demo.memStore _ reading reading "Pay rent" "Buy milk" "" ""
           High Low 0%Z 0%Z [] ["home"]); reflexivity.
Defined.

Section FilterWitnesses.
#[local] Existing Instance examples.lib.

Lemma NewTaskDueFilter_modes_witness :
  filter.NewTaskDueFilter examples.Atoi "14"
  = (filter.mkTaskDueFilter filter.ModeNextNDays 14, None)
  ∧ (filter.NewTaskDueFilter examples.Atoi "-3").2
    = Some (filter.ErrNegativeDays (-3))
  ∧ filter.NewTaskDueFilter examples.Atoi "week"
    = filter.NewTaskDueFilter examples.Atoi "7"
  ∧ filter.Matches examples.AddDate 1000%Z 1000%Z
      (filter.NewTaskDueFilter examples.Atoi "soon").1 500%Z = false
  ∧ filter.Matches examples.AddDate 1000%Z 1000%Z
      (filter.NewTaskDueFilter examples.Atoi "overdue").1 (DueDate demo.taskA)
    = true.
Proof.
  pose proof (NewTaskDueFilter_modes examples.Atoi examples.AddDate) as H.
  destruct (H "14") as (_ & _ & H14 & _).
  destruct (H "-3") as (_ & _ & Hneg & _).
  destruct (H "week") as (_ & _ & _ & Hweek & _).
  destruct (H "soon") as (_ & Hbad & _).
  destruct (H "overdue") as (_ & _ & _ & _ & Hover).
  split; [|split; [|split; [|split]]].
  - apply (H14 ltac:(discriminate) ltac:(discriminate) ltac:(discriminate)
             14%Z eq_refl). lia.
  - apply (Hneg ltac:(discriminate) ltac:(discriminate) ltac:(discriminate)
             (-3)%Z eq_refl). lia.
  - apply Hweek. reflexivity.
  - apply Hbad. discriminate.
  - apply (Hover 1000%Z 1000%Z demo.taskA); [lia | reflexivity].
Defined.

End FilterWitnesses.

Lemma normalizeTags_sorted_set_witness :
  normalizeTags elements ["work"; "home"; "work"; "errand"]
  = ["errand"; "home"; "work"]
  ∧ normalizeTags elements ["home"; "errand"; "work"]
    = normalizeTags elements ["work"; "home"; "work"; "errand"]
  ∧ normalizeTags (λ X, reverse (elements X)) ["work"; "home"; "work"; "errand"]
    = ["errand"; "home"; "work"].
Proof.
  destruct (normalizeTags_sorted_set elements
              ["work"; "home"; "work"; "errand"] ltac:(reflexivity))
    as (_ & _ & _ & Hrange & Hinput & _).
  assert (E : normalizeTags elements ["work"; "home"; "work"; "errand"]
              = ["errand"; "home"; "work"]) by (vm_compute; reflexivity).
  split; [exact E|]. split.
  - apply Hinput. intros x. rewrite !elem_of_cons, !elem_of_nil. tauto.
  - rewrite <- E. apply Hrange. intros X. apply reverse_Permutation.
Defined.
